(** * Ingestion-and-quality pipeline: a shallow embedding

    The development follows the Python sources of the pipeline:

    - [gcs_to_bq/main.py]: request router ([parse_filename]), schema
      inference ([detect_column_type], [process_csv_schema]), dataset
      provisioning, load orchestration and the entry point [gcs_to_bq];
    - [gcs_to_bq/BQ_SQL/data_cleaner.py]: the cleaning decision rule;
    - [gcs_to_bq/BQ_SQL/validator.py]: the result validator;
    - [clean_table/main.py]: copy-based remediation.

    Python [str] values are modelled as [string], a character being a
    code point below 256 (ASCII and Latin-1; text with other code points
    has no counterpart here), Python [int] as [Z], Python [float] as
    IEEE-754 binary64
    ([PrimFloat]), dictionaries as [gmap].  Code that talks to the cloud
    services is embedded as a program tree ([prog]) whose nodes are the
    client calls it makes and the lines it logs; a handler gives the
    answers of the services.  Log lines are kept by their level and their
    fixed text, without the values interpolated in them. *)

From Stdlib Require Import ZArith Ascii String Floats Uint63 Bool Lia.
From stdpp Require Import base option list strings gmap.

Local Open Scope Z_scope.

(** ** Exceptions and outcomes *)

(** The exception classes the pipeline raises or catches.  [NotFound] and
    [Conflict] are the two [google.api_core.exceptions] classes the code
    names; [OtherError] stands for any other subclass of [Exception]. *)
Inductive exn : Type :=
| ValueError (msg : string)
| NotFound
| Conflict
| StopIteration
| IndexError
| ZeroDivisionError
| OtherError (msg : string).

Global Instance exn_eq_dec : EqDecision exn.
Proof. solve_decision. Defined.

Inductive outcome (A : Type) : Type :=
| Returned (a : A)
| Raised (e : exn).
Arguments Returned {A} a.
Arguments Raised {A} e.

(** ** Python string operations *)

Module Str.

Definition ascii_in_range (lo hi : nat) (c : ascii) : bool :=
  (lo <=? nat_of_ascii c)%nat && (nat_of_ascii c <=? hi)%nat.

Definition is_upper (c : ascii) : bool := ascii_in_range 65 90 c.
Definition is_digit (c : ascii) : bool := ascii_in_range 48 57 c.
Definition is_alpha (c : ascii) : bool :=
  ascii_in_range 65 90 c || ascii_in_range 97 122 c.

(** [str.isspace] on the code points below 256: TAB, LF, VT, FF, CR,
    the four separators FS, GS, RS, US, the space, NEL (U+0085) and the
    no-break space (U+00A0). *)
Definition is_space (c : ascii) : bool :=
  ascii_in_range 9 13 c || ascii_in_range 28 32 c
  || ascii_in_range 133 133 c || ascii_in_range 160 160 c.

(** [str.lower] on one code point below 256: the letters [A]-[Z] and the
    capital letters of Latin-1 (U+00C0-U+00DE but the sign U+00D7). *)
Definition lower_char (c : ascii) : ascii :=
  if is_upper c || ascii_in_range 192 214 c || ascii_in_range 216 222 c
  then ascii_of_nat (nat_of_ascii c + 32) else c.

(** [s.lower()] *)
Fixpoint lower (s : string) : string :=
  match s with
  | EmptyString => EmptyString
  | String c s' => String (lower_char c) (lower s')
  end.

(** [c in s] for a one-character [c] *)
Fixpoint contains_char (c : ascii) (s : string) : bool :=
  match s with
  | EmptyString => false
  | String a s' => Ascii.eqb a c || contains_char c s'
  end.

(** [s.startswith(p)], returning what follows the prefix *)
Fixpoint strip_prefix (p s : string) : option string :=
  match p with
  | EmptyString => Some s
  | String a p' =>
      match s with
      | EmptyString => None
      | String b s' => if Ascii.eqb a b then strip_prefix p' s' else None
      end
  end.

(** [s.partition(sep)]: the text before and after the leftmost
    occurrence of [sep], if there is one. *)
Fixpoint partition (sep s : string) : option (string * string) :=
  match strip_prefix sep s with
  | Some rest => Some (EmptyString, rest)
  | None =>
      match s with
      | EmptyString => None
      | String c s' =>
          match partition sep s' with
          | Some (a, b) => Some (String c a, b)
          | None => None
          end
      end
  end.

(** [s.split(sep, 1)] for a non-empty [sep] *)
Definition split1 (sep s : string) : list string :=
  match partition sep s with
  | Some (a, b) => [a; b]
  | None => [s]
  end.

(** [s.split(c)] for a one-character separator [c] *)
Fixpoint split (c : ascii) (s : string) : list string :=
  match s with
  | EmptyString => [EmptyString]
  | String a s' =>
      if Ascii.eqb a c then EmptyString :: split c s'
      else match split c s' with
           | t :: ts => String a t :: ts
           | [] => [String a EmptyString]
           end
  end.

(** [c.join(l)] *)
Fixpoint join (c : ascii) (l : list string) : string :=
  match l with
  | [] => EmptyString
  | [t] => t
  | t :: ts => t +:+ String c (join c ts)
  end.

(** [s.endswith(p)] *)
Fixpoint ends_with (p s : string) : bool :=
  String.eqb p s ||
  match s with
  | EmptyString => false
  | String _ s' => ends_with p s'
  end.

Fixpoint lstrip (s : string) : string :=
  match s with
  | EmptyString => EmptyString
  | String c s' => if is_space c then lstrip s' else s
  end.

Fixpoint rstrip (s : string) : string :=
  match s with
  | EmptyString => EmptyString
  | String c s' =>
      match rstrip s' with
      | EmptyString => if is_space c then EmptyString else String c EmptyString
      | r => String c r
      end
  end.

(** [s.strip()] *)
Definition strip (s : string) : string := rstrip (lstrip s).

Fixpoint lstrip_char (x : ascii) (s : string) : string :=
  match s with
  | EmptyString => EmptyString
  | String c s' => if Ascii.eqb c x then lstrip_char x s' else s
  end.

Fixpoint rstrip_char (x : ascii) (s : string) : string :=
  match s with
  | EmptyString => EmptyString
  | String c s' =>
      match rstrip_char x s' with
      | EmptyString => if Ascii.eqb c x then EmptyString else String c EmptyString
      | r => String c r
      end
  end.

(** [s.strip(x)] for a one-character set [x] *)
Definition strip_char (x : ascii) (s : string) : string :=
  rstrip_char x (lstrip_char x s).

(** [sep] occurs in [s] *)
Definition occurs (sep s : string) : Prop :=
  exists a b, s = a +:+ sep +:+ b.

End Str.

(** ** Request router: [parse_filename] *)

Definition malformed : exn :=
  ValueError "Filename must be in format: dataset-table-mode__file.csv".

(** [parse_filename(file_name)].  Both tuple unpackings raise when the
    split does not give the expected number of parts; the [except] clause
    turns every exception into the one [ValueError]. *)
Definition parse_filename (file_name : string)
  : outcome (string * string * string * string) :=
  match Str.split1 "__" file_name with
  | [meta; actual_file] =>
      match Str.split "-" meta with
      | [dataset_id; table_id; mode] =>
          Returned (dataset_id, table_id, Str.lower mode, actual_file)
      | _ => Raised malformed
      end
  | _ => Raised malformed
  end.

(** ** Schema inference: [clean_column] and [detect_column_type] *)

Inductive column_type : Type := BOOLEAN | INT64 | FLOAT64 | STRING.

Global Instance column_type_eq_dec : EqDecision column_type.
Proof. solve_decision. Defined.

(** The builtins [int(v)] and [float(v)] on an ASCII literal, as
    recognisers for the grammar of the Python language reference:
    [digitpart ::= digit (["_"] digit)*], an integer is an optional sign
    and a [digitpart]; a float is an optional sign and [inf], [infinity],
    [nan] (any case) or [[digitpart] "." digitpart | digitpart ["."]] with
    an optional exponent [("e"|"E") [sign] digitpart].  Both builtins
    ignore surrounding white space, which [detect_column_type] has already
    stripped.  [int] refuses, with a [ValueError], a literal of more
    digits than [sys.int_max_str_digits], 4300 unless the interpreter is
    configured otherwise; underscores and the sign do not count. *)
Module Literal.

(** The default of [sys.int_max_str_digits]. *)
Definition int_max_str_digits : nat := 4300.

(** The number of digits of [s]. *)
Fixpoint digit_count (s : string) : nat :=
  match s with
  | EmptyString => O
  | String c s' => ((if Str.is_digit c then 1 else 0) + digit_count s')%nat
  end.

(** what follows the longest [(["_"] digit)*] at the head of [s] *)
Fixpoint digitpart_tail (s : string) : string :=
  match s with
  | EmptyString => EmptyString
  | String c s' =>
      if Str.is_digit c then digitpart_tail s'
      else if Ascii.eqb c "_" then
        match s' with
        | String d s'' => if Str.is_digit d then digitpart_tail s'' else s
        | EmptyString => s
        end
      else s
  end.

(** what follows a [digitpart] at the head of [s], if there is one *)
Definition digitpart (s : string) : option string :=
  match s with
  | String c s' => if Str.is_digit c then Some (digitpart_tail s') else None
  | EmptyString => None
  end.

Definition skip_sign (s : string) : string :=
  match s with
  | String c s' => if Ascii.eqb c "+" || Ascii.eqb c "-" then s' else s
  | EmptyString => s
  end.

(** [int(v)] does not raise [ValueError] *)
Definition int_ok (v : string) : bool :=
  match digitpart (skip_sign v) with
  | Some EmptyString => (digit_count v <=? int_max_str_digits)%nat
  | _ => false
  end.

Definition exponent_ok (s : string) : bool :=
  match s with
  | EmptyString => true
  | String e s' =>
      if Ascii.eqb e "e" || Ascii.eqb e "E" then
        match digitpart (skip_sign s') with
        | Some EmptyString => true
        | _ => false
        end
      else false
  end.

Definition special_float (s : string) : bool :=
  bool_decide (Str.lower s ∈ ["inf"; "infinity"; "nan"]).

(** [float(v)] does not raise [ValueError] *)
Definition float_ok (v : string) : bool :=
  let s := skip_sign v in
  special_float s ||
  match digitpart s with
  | Some (String "." frac) =>
      exponent_ok (default frac (digitpart frac))
  | Some rest => exponent_ok rest
  | None =>
      match s with
      | String "." frac =>
          match digitpart frac with
          | Some rest => exponent_ok rest
          | None => false
          end
      | _ => false
      end
  end.

End Literal.

Definition is_word_char (c : ascii) : bool :=
  Str.is_alpha c || Str.is_digit c || Ascii.eqb c "_".

(** [re.sub(r'[^a-zA-Z0-9_]', '_', name)] *)
Fixpoint sub_non_word (name : string) : string :=
  match name with
  | EmptyString => EmptyString
  | String c s => String (if is_word_char c then c else "_"%char) (sub_non_word s)
  end.

(** [clean_column(name)] *)
Definition clean_column (name : string) : string :=
  Str.lower (Str.strip_char "_" (sub_non_word name)).

(** The alternatives of [bool_pattern]. *)
Definition bool_words : list string :=
  ["true"; "false"; "yes"; "no"; "t"; "f"; "y"; "n"; "0"; "1"].

Definition newline : string := String (ascii_of_nat 10) EmptyString.

(** [bool_pattern.match(v)] for
    [re.compile(r'^(true|false|yes|no|t|f|y|n|0|1)$', re.IGNORECASE)]:
    one of the alternatives, in any case, followed by the end of the text
    or by one final line feed (which [$] also accepts). *)
Definition bool_pattern_match (v : string) : bool :=
  existsb (fun w => String.eqb (Str.lower v) w
                    || String.eqb (Str.lower v) (w +:+ newline)) bool_words.

(** [non_null = [str(v).strip() for v in values if v not in [None, '']]] *)
Fixpoint non_null_values (values : list (option string)) : list string :=
  match values with
  | [] => []
  | None :: rest => non_null_values rest
  | Some v :: rest =>
      if String.eqb v "" then non_null_values rest
      else Str.strip v :: non_null_values rest
  end.

(** The integer loop: counts up to the first value that has a decimal
    point or that [int] rejects ([break]). *)
Fixpoint int_loop (vs : list string) (int_count : nat) : nat :=
  match vs with
  | [] => int_count
  | v :: rest =>
      if Str.contains_char "." v then int_count
      else if Literal.int_ok v then int_loop rest (S int_count)
      else int_count
  end.

(** The float loop: counts up to the first value [float] rejects. *)
Fixpoint float_loop (vs : list string) (float_count : nat) : nat :=
  match vs with
  | [] => float_count
  | v :: rest =>
      if Literal.float_ok v then float_loop rest (S float_count)
      else float_count
  end.

(** [detect_column_type(values)] *)
Definition detect_column_type (values : list (option string)) : column_type :=
  match values with
  | [] => STRING
  | _ =>
      let non_null := non_null_values values in
      match non_null with
      | [] => STRING
      | _ =>
          if forallb bool_pattern_match non_null then BOOLEAN
          else if Nat.eqb (int_loop non_null 0) (length non_null) then INT64
          else if Nat.eqb (float_loop non_null 0) (length non_null) then FLOAT64
          else STRING
      end
  end.

(** ** Numbers *)

(** A Python [int] as a [float].  Exact for magnitudes below [2^53], which
    covers row counts; larger operands are outside the model. *)
Definition float_of_Z (z : Z) : float :=
  if z <? 0 then PrimFloat.opp (PrimFloat.of_uint63 (Uint63.of_Z (- z)))
  else PrimFloat.of_uint63 (Uint63.of_Z z).

(** [a / b] on two Python [int]s: true division, which raises on a zero
    divisor. *)
Definition true_div (a b : Z) : outcome float :=
  if b =? 0 then Raised ZeroDivisionError
  else Returned (PrimFloat.div (float_of_Z a) (float_of_Z b)).

(** ** Cleaning engine: [DataCleaner._determine_cleaning_operations] *)

Module DataCleaner.

(** The configuration dictionary, with the three keys the code reads. *)
Record config : Type := Config {
  max_empty_percentage : float;
  min_issue_percentage : float;
  operations : list string
}.

(** [_get_default_config()] *)
Definition _get_default_config : config :=
  {| max_empty_percentage := 50;
     min_issue_percentage := 1;
     operations := ["trim"; "nullify_empty"; "nullify_whitespace"] |}.

(** One entry of the cleaning plan. *)
Record cleaning_op : Type := CleaningOp {
  field : string;
  op_list : list string;
  issues_pct : float
}.

(** [stats.get(key, 0)] *)
Definition stat (stats : gmap string Z) (key : string) : Z :=
  default 0 (stats !! key).

(** [(stats.get(key, 0) / total_rows) * 100], for [total_rows] not zero *)
Definition percentage (count total_rows : Z) : float :=
  PrimFloat.mul (PrimFloat.div (float_of_Z count) (float_of_Z total_rows)) 100.

Definition empty_pct (stats : gmap string Z) : float :=
  percentage (stat stats "empty_string_count") (stat stats "total_rows").

Definition whitespace_pct (stats : gmap string Z) : float :=
  percentage (stat stats "whitespace_only_count") (stat stats "total_rows").

Definition total_issues_pct (stats : gmap string Z) : float :=
  PrimFloat.add (empty_pct stats) (whitespace_pct stats).

(** [min_issue_percentage <= total_issues_pct <= max_empty_percentage] *)
Definition within_bounds (cfg : config) (stats : gmap string Z) : bool :=
  PrimFloat.leb (min_issue_percentage cfg) (total_issues_pct stats)
  && PrimFloat.leb (total_issues_pct stats) (max_empty_percentage cfg).

Definition enabled (name : string) (cfg : config) : bool :=
  bool_decide (name ∈ operations cfg).

(** The list [operations] built for a column whose issues are within
    the bounds. *)
Definition column_operations (cfg : config) (stats : gmap string Z) : list string :=
  (if enabled "trim" cfg then ["TRIM"] else [])
  ++ (if enabled "nullify_empty" cfg
         && PrimFloat.ltb (empty_pct stats) (max_empty_percentage cfg)
      then ["NULLIF_EMPTY"] else [])
  ++ (if enabled "nullify_whitespace" cfg
         && PrimFloat.ltb (whitespace_pct stats) (max_empty_percentage cfg)
      then ["NULLIF_WHITESPACE"] else []).

(** The body of the loop for one [field]: the entry appended to
    [cleaning_operations], if any. *)
Definition column_plan (cfg : config) (quality_report : gmap string (gmap string Z))
    (f : string) : option cleaning_op :=
  let stats := default ∅ (quality_report !! f) in
  if stat stats "total_rows" =? 0 then None
  else if within_bounds cfg stats then
    match column_operations cfg stats with
    | [] => None
    | ops => Some (CleaningOp f ops (total_issues_pct stats))
    end
  else None.

(** [_determine_cleaning_operations(fields, quality_report, config)] *)
Fixpoint _determine_cleaning_operations (fields : list string)
    (quality_report : gmap string (gmap string Z)) (cfg : config)
  : list cleaning_op :=
  match fields with
  | [] => []
  | f :: rest =>
      match column_plan cfg quality_report f with
      | Some op => op :: _determine_cleaning_operations rest quality_report cfg
      | None => _determine_cleaning_operations rest quality_report cfg
      end
  end.

(** A column is selected when the plan has an entry for it. *)
Definition selected (fields : list string)
    (quality_report : gmap string (gmap string Z)) (cfg : config) (f : string) : Prop :=
  exists op, op ∈ _determine_cleaning_operations fields quality_report cfg
             /\ field op = f.

End DataCleaner.

(** ** The cloud clients *)

(** [bigquery.SchemaField(name, field_type)] *)
Record SchemaField : Type := mkSchemaField {
  field_name : string;
  field_type : column_type
}.

(** What the code reads of a [bigquery.Table]. *)
Record Table : Type := mkTable {
  num_rows : Z;
  schema : list string
}.

Inductive WriteDisposition : Type := WRITE_TRUNCATE | WRITE_APPEND.

Inductive SourceFormat : Type := CSV.

(** [bigquery.LoadJobConfig(...)] with the fields the code sets. *)
Record LoadJobConfig : Type := mkLoadJobConfig {
  job_schema : list SchemaField;
  skip_leading_rows : Z;
  source_format : SourceFormat;
  write_disposition : WriteDisposition;
  field_delimiter : string;
  allow_quoted_newlines : bool;
  ignore_unknown_values : bool;
  autodetect : bool;
  max_bad_records : Z;
  allow_jagged_rows : bool
}.

(** A value in a result row of a query. *)
Inductive cell : Type :=
| CInt (n : Z)
| CStr (s : string)
| CNull.

Global Instance cell_eq_dec : EqDecision cell.
Proof. solve_decision. Defined.

(** A result row: its named columns. *)
Abbreviation row := (gmap string cell).

(** The SQL statements the code sends.  The multi-line templates are
    kept by name with their arguments; the cleaning query of
    [clean_bq_table], which the code assembles from clauses, is kept as
    text. *)
Inductive sql : Type :=
| SqlRowCount (table_ref : string)
    (* SELECT COUNT( * ) as row_count FROM `table_ref` *)
| SqlValidation (table_ref : string) (original_row_count : Z)
    (* SELECT COUNT( * ) as current_row_count,
              COUNT( * ) - original_row_count as row_count_change
       FROM `table_ref` *)
| SqlSchemaColumns (project dataset table : string)
    (* SELECT column_name FROM `project.dataset.INFORMATION_SCHEMA.COLUMNS`
       WHERE table_name = 'table' *)
| SqlNaCount (source_table : string) (conditions : string)
    (* SELECT COUNT( * ) as na_count FROM `source_table` WHERE conditions *)
| SqlDupCount (source_table : string)
    (* SELECT COUNT( * ) - COUNT(DISTINCT TO_JSON_STRING(t)) as dup_count
       FROM `source_table` t *)
| SqlText (text : string).

(** The calls to the outside world, indexed by the type of their answer. *)
Inductive call : Type -> Type :=
| BigQueryClient : call string
    (* bigquery.Client(); the answer is its [project] *)
| StorageClient : call unit
    (* storage.Client() *)
| DownloadAsText (bucket_name file_name : string) : call string
    (* storage_client.bucket(bucket_name).blob(file_name).download_as_text() *)
| CsvReader (text : string) : call (list (list string))
    (* the rows of csv.reader(text.splitlines()) *)
| GetDataset (dataset_ref : string) : call unit
| CreateDataset (dataset_ref : string) : call unit
| GetTable (table_ref : string) : call Table
| LoadTableFromUri (uri table_ref : string) (job_config : LoadJobConfig) : call nat
    (* the answer names the load job *)
| LoadJobResult (job : nat) : call (list string)
    (* load_job.result(); the answer is load_job.errors afterwards *)
| Query (q : sql) (destination : option string) : call (list row)
    (* bq.query(q, job_config) followed by result() *)
| UtcNow : call string.
    (* datetime.utcnow().strftime("%Y%m%d_%H%M%S") *)

Inductive level : Type := INFO | WARNING | ERROR.

(** What the code writes or waits for without reading an answer. *)
Inductive output : Type :=
| Log (lvl : level) (msg : string)
| Print (msg : string)
| Sleep (seconds : Z).

(** ** Programs over the clients *)

(** A finite tree: every loop of the pipeline is bounded. *)
Inductive prog (A : Type) : Type :=
| Ret (a : A)
| Raise (e : exn)
| Emit (o : output) (k : prog A)
| Vis {R : Type} (c : call R) (k : outcome R -> prog A).
Arguments Ret {A} a.
Arguments Raise {A} e.
Arguments Emit {A} o k.
Arguments Vis {A R} c k.

Fixpoint bind {A B : Type} (p : prog A) (f : A -> prog B) : prog B :=
  match p with
  | Ret a => f a
  | Raise e => Raise e
  | Emit o k => Emit o (bind k f)
  | Vis c k => Vis c (fun r => bind (k r) f)
  end.

Global Instance prog_ret : MRet prog := @Ret.
Global Instance prog_bind : MBind prog := fun A B f p => bind p f.

(** [try: p except Exception as e: h e] *)
Fixpoint catch {A : Type} (p : prog A) (h : exn -> prog A) : prog A :=
  match p with
  | Ret a => Ret a
  | Raise e => h e
  | Emit o k => Emit o (catch k h)
  | Vis c k => Vis c (fun r => catch (k r) h)
  end.

(** [try: p except NotFound: h] *)
Definition catch_not_found {A : Type} (p : prog A) (h : prog A) : prog A :=
  catch p (fun e => match e with NotFound => h | _ => Raise e end).

(** [try: p finally: f] *)
Fixpoint finally {A : Type} (p : prog A) (f : prog unit) : prog A :=
  match p with
  | Ret a => bind f (fun _ => Ret a)
  | Raise e => bind f (fun _ => Raise e)
  | Emit o k => Emit o (finally k f)
  | Vis c k => Vis c (fun r => finally (k r) f)
  end.

Definition perform {R : Type} (c : call R) : prog R :=
  Vis c (fun r => match r with Returned x => Ret x | Raised e => Raise e end).

Definition emit (o : output) : prog unit := Emit o (Ret tt).

Definition lift {A : Type} (r : outcome A) : prog A :=
  match r with Returned a => Ret a | Raised e => Raise e end.

(** ** Running a program against the services *)

Inductive event : Type :=
| EvOut (o : output)
| EvCall {R : Type} (c : call R).

(** The services: how a state [W] of the world answers a call and
    changes with it. *)
Definition handler (W : Type) : Type := forall R : Type, call R -> W -> outcome R * W.

Record result (W A : Type) : Type := Result {
  outcome_of : outcome A;
  world_of : W;
  trace_of : list event
}.
Arguments Result {W A} _ _ _.
Arguments outcome_of {W A} _.
Arguments world_of {W A} _.
Arguments trace_of {W A} _.

Definition after {W A : Type} (ev : event) (r : result W A) : result W A :=
  Result (outcome_of r) (world_of r) (ev :: trace_of r).

Fixpoint run {W A : Type} (h : handler W) (p : prog A) (w : W) : result W A :=
  match p with
  | Ret a => Result (Returned a) w []
  | Raise e => Result (Raised e) w []
  | Emit o k => after (EvOut o) (run h k w)
  | Vis c k => after (EvCall c) (run h (k (h _ c w).1) (h _ c w).2)
  end.

(** Calls that can change the contents of a table: a load job and a
    query job. *)
Definition mutating {R : Type} (c : call R) : bool :=
  match c with
  | LoadTableFromUri _ _ _ | LoadJobResult _ | Query _ _ => true
  | _ => false
  end.

Definition is_load_submission (ev : event) : bool :=
  match ev with
  | EvCall (LoadTableFromUri _ _ _) => true
  | _ => false
  end.

Definition is_mutation (ev : event) : bool :=
  match ev with
  | EvCall c => mutating c
  | EvOut _ => false
  end.

Definition is_create_dataset (ev : event) : bool :=
  match ev with
  | EvCall (CreateDataset _) => true
  | _ => false
  end.

(** ** [gcs_to_bq/main.py]: schema extraction *)

(** A Python value that is [True], [False] or [None] (a function that
    falls off its end returns [None]). *)
Definition truthy (v : option bool) : bool := default false v.

(** [any(field.strip() for field in row)] *)
Definition any_field (r : list string) : bool :=
  existsb (fun f => negb (String.eqb (Str.strip f) "")) r.

(** The sampling loop: at most [sample_size] calls of [next(reader)],
    keeping the rows that are not blank. *)
Fixpoint sample (sample_size : nat) (reader : list (list string)) : list (list string) :=
  match sample_size with
  | O => []
  | S n =>
      match reader with
      | [] => []
      | r :: reader' =>
          if any_field r then r :: sample n reader' else sample n reader'
      end
  end.

(** [list(zip( *sample_rows))]: as many columns as the shortest row has
    fields. *)
Definition zip_star (rows : list (list string)) : list (list string) :=
  match rows with
  | [] => []
  | r :: rest =>
      let width := foldr (fun x m => Nat.min (length x) m) (length r) rest in
      map (fun j => map (fun x => nth j x EmptyString) rows) (seq 0 width)
  end.

(** The loop over [zip(raw_header, columns)]. *)
Fixpoint infer_columns (raw_header : list string) (columns : list (list string))
  : list string * list SchemaField * gmap string column_type :=
  match raw_header, columns with
  | col_name :: header', col_values :: columns' =>
      let clean_name := clean_column col_name in
      let col_type := detect_column_type (map Some col_values) in
      let '(clean_fields, sch, type_report) := infer_columns header' columns' in
      (clean_name :: clean_fields,
       mkSchemaField clean_name col_type :: sch,
       (* later columns of the same name overwrite earlier ones *)
       type_report ∪ {[ clean_name := col_type ]})
  | _, _ => ([], [], ∅)
  end.

Definition detected_log (names : list string) : prog unit :=
  foldr (fun _ k => Emit (Log INFO "Detected column") k) (Ret tt) names.

(** [process_csv_schema(storage_client, bucket_name, file_name, sample_size)];
    [None] stands for the triple [(None, None, None)]. *)
Definition process_csv_schema (bucket_name file_name : string) (sample_size : nat)
  : prog (option (list string * list SchemaField * gmap string column_type)) :=
  catch
    (content ← perform (DownloadAsText bucket_name file_name);
     reader ← perform (CsvReader content);
     match reader with
     | [] => Raise StopIteration
     | raw_header :: reader' =>
         let sample_rows := sample sample_size reader' in
         match sample_rows with
         | [] => Raise (ValueError "No data rows found in CSV")
         | _ =>
             let columns := zip_star sample_rows in
             let r := infer_columns raw_header columns in
             _ ← detected_log r.1.1;
             Ret (Some r)
         end
     end)
    (fun e => Emit (Log ERROR "Error processing CSV") (Ret None)).

(** ** [gcs_to_bq/main.py]: provisioning and loading *)

(** The loop of [verify_dataset_creation], from [attempt] on, with
    [todo] iterations left. *)
Fixpoint verify_dataset_loop (dataset_ref : string) (max_attempts : nat) (delay : Z)
    (todo attempt : nat) : prog (option bool) :=
  match todo with
  | O => Ret None
  | S todo' =>
      Vis (GetDataset dataset_ref) (fun r =>
        match r with
        | Returned _ =>
            Emit (Log INFO "Verified dataset exists") (Ret (Some true))
        | Raised NotFound =>
            if (Z.of_nat attempt <? Z.of_nat max_attempts - 1) then
              Emit (Log INFO "Waiting for dataset creation")
                (Emit (Sleep delay)
                   (verify_dataset_loop dataset_ref max_attempts delay todo' (S attempt)))
            else
              Emit (Log ERROR "Dataset not found after max_attempts attempts")
                (Ret (Some false))
        | Raised e => Raise e
        end)
  end.

(** [verify_dataset_creation(bq, dataset_ref, max_attempts=5, delay=30)] *)
Definition verify_dataset_creation (dataset_ref : string) (max_attempts : nat) (delay : Z)
  : prog (option bool) :=
  verify_dataset_loop dataset_ref max_attempts delay max_attempts 0.

(** The loop of [verify_table_load]. *)
Fixpoint verify_table_loop (table_ref : string) (max_attempts : nat) (delay : Z)
    (todo attempt : nat) : prog (option bool) :=
  match todo with
  | O => Ret None
  | S todo' =>
      Vis (GetTable table_ref) (fun r =>
        match r with
        | Returned table =>
            if 0 <? num_rows table then
              Emit (Log INFO "Verified table loaded") (Ret (Some true))
            else if (Z.of_nat attempt <? Z.of_nat max_attempts - 1) then
              Emit (Log INFO "Waiting for data load")
                (Emit (Sleep delay)
                   (verify_table_loop table_ref max_attempts delay todo' (S attempt)))
            else
              Emit (Log WARNING "Table created but appears to be empty")
                (Ret (Some true))
        | Raised NotFound =>
            Emit (Log ERROR "Table not found") (Ret (Some false))
        | Raised e => Raise e
        end)
  end.

(** [verify_table_load(bq, table_ref, max_attempts=5, delay=30)] *)
Definition verify_table_load (table_ref : string) (max_attempts : nat) (delay : Z)
  : prog (option bool) :=
  verify_table_loop table_ref max_attempts delay max_attempts 0.

(** [f"{project_id}.{dataset_id}"], the text from which
    [create_dataset_if_not_exists] builds its [bigquery.Dataset].  The
    constructor reads the text back as a project and a dataset and raises
    a [ValueError] when it cannot; the construction is modelled for the
    texts it accepts, and the properties of the provisioner are stated
    for identifiers that are plain ([plain_id] below), for which it
    does. *)
Definition dataset_reference (project_id dataset_id : string) : string :=
  project_id +:+ "." +:+ dataset_id.

(** [create_dataset_if_not_exists(bq, project_id, dataset_id)] *)
Definition create_dataset_if_not_exists (project_id dataset_id : string)
  : prog (option bool) :=
  let dataset_ref := dataset_reference project_id dataset_id in
  catch_not_found
    (_ ← perform (GetDataset dataset_ref);
     _ ← emit (Log INFO "Dataset exists");
     Ret (Some true))
    (Emit (Log INFO "Creating dataset")
       (catch
          (_ ← perform (CreateDataset dataset_ref);
           _ ← emit (Log INFO "Waiting for dataset creation to complete...");
           verify_dataset_creation dataset_ref 5 30)
          (fun e =>
             match e with
             | Conflict =>
                 Emit (Log WARNING "Dataset was already created by another process")
                   (Ret (Some true))
             | _ =>
                 Emit (Log ERROR "Error creating dataset") (Ret (Some false))
             end))).

(** The [job_config] of [load_csv_to_bigquery]. *)
Definition load_job_config (sch : list SchemaField) (mode : string) : LoadJobConfig :=
  {| job_schema := sch;
     skip_leading_rows := 1;
     source_format := CSV;
     write_disposition :=
       if String.eqb mode "create" then WRITE_TRUNCATE else WRITE_APPEND;
     field_delimiter := ",";
     allow_quoted_newlines := true;
     ignore_unknown_values := false;
     autodetect := false;
     max_bad_records := 1000;
     allow_jagged_rows := false |}.

Definition schema_log (sch : list SchemaField) : prog unit :=
  foldr (fun _ k => Emit (Log INFO "  - field") k) (Ret tt) sch.

(** [load_csv_to_bigquery(bq, uri, table_ref, schema, mode)] *)
Definition load_csv_to_bigquery (uri table_ref : string) (sch : list SchemaField)
    (mode : string) : prog (option bool) :=
  let job_config := load_job_config sch mode in
  _ ← emit (Log INFO "Starting load job");
  _ ← emit (Log INFO "Schema being applied:");
  _ ← schema_log sch;
  catch
    (load_job ← perform (LoadTableFromUri uri table_ref job_config);
     errors ← perform (LoadJobResult load_job);
     _ ← emit (match errors with
               | [] => Log INFO "Load job completed successfully"
               | _ => Log WARNING "Load job completed with errors"
               end);
     verify_table_load table_ref 5 30)
    (fun e => Emit (Log ERROR "Load job failed") (Ret (Some false))).

(** ** Result validator: [BQ_SQL/validator.py] *)

Module DataValidator.

(** [list(rows)[0]] *)
Definition first_row (rows : list row) : prog row :=
  match rows with
  | [] => Raise IndexError
  | r :: _ => Ret r
  end.

(** [result.name] *)
Definition attribute (r : row) (name : string) : prog cell :=
  match r !! name with
  | Some c => Ret c
  | None => Raise (OtherError "AttributeError")
  end.

(** [get_row_count(table_ref)] *)
Definition get_row_count (table_ref : string) : prog cell :=
  catch
    (rows ← perform (Query (SqlRowCount table_ref) None);
     result ← first_row rows;
     attribute result "row_count")
    (fun e => Emit (Print "Could not get row count") (Ret (CInt 0))).

(** [abs(change) / original_row_count * 100] *)
Definition change_percentage (change : cell) (original_row_count : Z) : prog float :=
  match change with
  | CInt d =>
      q ← lift (true_div (Z.abs d) original_row_count);
      Ret (PrimFloat.mul q 100)
  | _ => Raise (OtherError "TypeError")
  end.

(** [validate_cleaning_results(table_ref, original_row_count, tolerance_pct)] *)
Definition validate_cleaning_results (table_ref : string) (original_row_count : Z)
    (tolerance_pct : float) : prog bool :=
  catch
    (rows ← perform (Query (SqlValidation table_ref original_row_count) None);
     result ← first_row rows;
     row_count_change ← attribute result "row_count_change";
     let passed : prog bool :=
       _ ← attribute result "current_row_count";
       _ ← emit (Print "Validation passed");
       Ret true in
     if bool_decide (row_count_change ≠ CInt 0) then
       _ ← attribute result "current_row_count";
       _ ← emit (Print "Row count changed");
       change_pct ← change_percentage row_count_change original_row_count;
       if PrimFloat.ltb tolerance_pct change_pct then
         _ ← emit (Print "Row count change exceeds tolerance");
         Ret false
       else passed
     else passed)
    (fun e => Emit (Print "Validation failed") (Ret false)).

(** [table_ref.split('.')[i]] *)
Definition component (table_ref : string) (i : nat) : prog string :=
  match Str.split "." table_ref !! i with
  | Some s => Ret s
  | None => Raise IndexError
  end.

(** [set(fields) - set(schema_columns)], as the list of its elements *)
Definition missing_columns (fields : list string) (schema_columns : list cell)
  : list string :=
  filter (fun f => CStr f ∉ schema_columns) fields.

Fixpoint column_names (rows : list row) : prog (list cell) :=
  match rows with
  | [] => Ret []
  | r :: rest =>
      c ← attribute r "column_name";
      cs ← column_names rest;
      Ret (c :: cs)
  end.

(** [validate_data_integrity(table_ref, fields)] *)
Definition validate_data_integrity (table_ref : string) (fields : list string)
  : prog bool :=
  catch
    (project ← component table_ref 0;
     dataset ← component table_ref 1;
     table ← component table_ref 2;
     rows ← perform (Query (SqlSchemaColumns project dataset table) None);
     schema_columns ← column_names rows;
     match missing_columns fields schema_columns with
     | [] =>
         _ ← emit (Print "Data integrity check passed");
         Ret true
     | _ =>
         _ ← emit (Print "Missing expected columns");
         Ret false
     end)
    (fun e => Emit (Print "Integrity check failed") (Ret true)).

End DataValidator.

(** ** [gcs_to_bq/main.py]: quality checks and the entry point *)

(** [run_data_quality_checks(bq, table_ref, clean_fields)] *)
Definition run_data_quality_checks (table_ref : string) (clean_fields : list string)
  : prog bool :=
  row_count ← DataValidator.get_row_count table_ref;
  if bool_decide (row_count = CInt 0) then
    _ ← emit (Log ERROR "Empty dataset - cannot train model");
    Ret false
  else
    ok ← DataValidator.validate_data_integrity table_ref clean_fields;
    if negb ok then
      _ ← emit (Log WARNING "Data integrity validation failed");
      Ret false
    else if (length clean_fields <? 2)%nat then
      _ ← emit (Log ERROR "Insufficient columns for training");
      Ret false
    else Ret true.

(** The triggering event. *)
Record trigger : Type := Trigger {
  bucket : string;
  name : string
}.

(** [f"{project_id}.{dataset_id}.{table_id}"] *)
Definition table_reference (project_id dataset_id table_id : string) : string :=
  project_id +:+ "." +:+ dataset_id +:+ "." +:+ table_id.

(** [f"gs://{bucket_name}/{event['name']}"] *)
Definition gcs_uri (bucket_name file_name : string) : string :=
  "gs://" +:+ bucket_name +:+ "/" +:+ file_name.

(** The existence test of the 'create' mode: [true] when the function
    returns from inside the [try]. *)
Definition create_mode_conflict (mode table_ref : string) : prog bool :=
  if String.eqb mode "create" then
    catch_not_found
      (existing_table ← perform (GetTable table_ref);
       _ ← emit (Log WARNING "Table already exists");
       Ret true)
      (Ret false)
  else Ret false.

(** The body of the [try] of [gcs_to_bq]. *)
Definition gcs_to_bq_body (event : trigger) : prog unit :=
  '(dataset_id, table_id, mode, actual_file) ← lift (parse_filename (name event));
  _ ← emit (Log INFO "Parsed filename");
  project_id ← perform BigQueryClient;
  _ ← perform StorageClient;
  let bucket_name := bucket event in
  _ ← emit (Log INFO "Operating in project");
  extracted ← process_csv_schema bucket_name (name event) 100;
  match extracted with
  | None | Some ([], _, _) =>
      _ ← emit (Log ERROR "Failed to process schema - aborting");
      Ret tt
  | Some (clean_fields, sch, type_report) =>
      provisioned ← create_dataset_if_not_exists project_id dataset_id;
      if negb (truthy provisioned) then Ret tt
      else
        let table_ref := table_reference project_id dataset_id table_id in
        conflict ← create_mode_conflict mode table_ref;
        if (conflict : bool) then Ret tt
        else
          let uri := gcs_uri bucket_name (name event) in
          loaded ← load_csv_to_bigquery uri table_ref sch mode;
          if negb (truthy loaded) then Ret tt
          else
            checked ← run_data_quality_checks table_ref clean_fields;
            if negb checked then
              _ ← emit (Log ERROR "Dataset validation failed");
              _ ← emit (Log INFO "Processing complete");
              Ret tt
            else
              _ ← emit (Log INFO "Data successfully loaded to BigQuery table");
              _ ← emit (Log INFO "Table contains columns and passed validation checks");
              Ret tt
  end.

(** [gcs_to_bq(event, context)] *)
Definition gcs_to_bq (event : trigger) : prog unit :=
  _ ← emit (Log INFO "Triggered by");
  if negb (Str.ends_with ".csv" (name event)) then
    _ ← emit (Log INFO "Skipping non-CSV file");
    Ret tt
  else
    finally
      (catch (gcs_to_bq_body event)
         (fun e => Emit (Log ERROR "Processing failed") (Raise e)))
      (emit (Log INFO "Processing complete")).

(** ** Copy-based remediation: [clean_table/main.py] *)

Module CleanTable.

(** The decoded Pub/Sub payload. *)
Record payload : Type := Payload {
  project_id : string;
  dataset_id : string;
  table_id : string
}.

(** [sep.join(l)] *)
Fixpoint join_with (sep : string) (l : list string) : string :=
  match l with
  | [] => EmptyString
  | [t] => t
  | t :: ts => t +:+ sep +:+ join_with sep ts
  end.

(** The double the literal [0.1] denotes. *)
Definition tenth : float := 0x1.999999999999ap-4%float.

(** [rows[0][key]] of the data frame of a query *)
Definition scalar (rows : list row) (key : string) : prog Z :=
  match rows with
  | [] => Raise IndexError
  | r :: _ =>
      match r !! key with
      | Some (CInt n) => Ret n
      | Some _ => Raise (OtherError "TypeError")
      | None => Raise (OtherError "KeyError")
      end
  end.

(** [count / total_rows], for [total_rows] not zero *)
Definition fraction (count total_rows : Z) : float :=
  PrimFloat.div (float_of_Z count) (float_of_Z total_rows).

(** [dup_percentage < 0.1 and dup_count > 0] *)
Definition remove_duplicates (dup_count total_rows : Z) : bool :=
  PrimFloat.ltb (fraction dup_count total_rows) tenth && (0 <? dup_count).

(** [na_percentage < 0.1 and na_count > 0] *)
Definition remove_na_rows (na_count total_rows : Z) : bool :=
  PrimFloat.ltb (fraction na_count total_rows) tenth && (0 <? na_count).

Definition select_clause (dup_count total_rows : Z) : string :=
  if remove_duplicates dup_count total_rows then "SELECT DISTINCT *" else "SELECT *".

Definition from_clause (source_table : string) : string :=
  "FROM `" +:+ source_table +:+ "`".

Definition where_clause (na_count total_rows : Z) (columns : list string) : string :=
  if remove_na_rows na_count total_rows then
    "WHERE " +:+ join_with " AND " (map (fun c => c +:+ " IS NOT NULL") columns)
  else "".

(** [f"{select_clause} {from_clause} {where_clause}"] *)
Definition cleaning_query (source_table : string) (columns : list string)
    (na_count dup_count total_rows : Z) : string :=
  select_clause dup_count total_rows +:+ " " +:+ from_clause source_table
  +:+ " " +:+ where_clause na_count total_rows columns.

(** [clean_bq_table(event, context)], from the decoded payload on. *)
Definition clean_bq_table (p : payload) : prog unit :=
  let source_table := table_reference (project_id p) (dataset_id p) (table_id p) in
  _ ← perform BigQueryClient;
  _ ← emit (Print "Cleaning table");
  catch
    (table_ref ← perform (GetTable source_table);
     let total_rows := num_rows table_ref in
     _ ← emit (Print "Total rows");
     if total_rows =? 0 then
       _ ← emit (Print "Table is empty, skipping cleaning");
       Ret tt
     else
       let null_conditions := map (fun c => c +:+ " IS NULL") (schema table_ref) in
       na_rows ← perform (Query (SqlNaCount source_table
                                   (join_with " OR " null_conditions)) None);
       na_count ← scalar na_rows "na_count";
       _ ← emit (Print "Rows with NAs");
       dup_rows ← perform (Query (SqlDupCount source_table) None);
       dup_count ← scalar dup_rows "dup_count";
       _ ← emit (Print "Duplicate rows");
       timestamp ← perform UtcNow;
       let new_table_id := table_id p +:+ "_cleaned_" +:+ timestamp in
       let destination := table_reference (project_id p) (dataset_id p) new_table_id in
       _ ← emit (Print (if remove_duplicates dup_count total_rows
                        then "Will remove duplicates"
                        else "Keeping duplicates (too many or none found)"));
       _ ← emit (Print (if remove_na_rows na_count total_rows
                        then "Will remove NA rows"
                        else "Keeping NA rows (too many or none found)"));
       _ ← emit (Print "Executing cleaning query...");
       _ ← emit (Print "Query");
       _ ← perform (Query (SqlText (cleaning_query source_table (schema table_ref)
                                      na_count dup_count total_rows))
                      (Some destination));
       final_table ← perform (GetTable destination);
       _ ← emit (Print "Cleaned table created");
       _ ← emit (Print "Removed rows");
       _ ← emit (Print "Final table has rows");
       Ret tt)
    (fun e => Emit (Print "Error cleaning table") (Raise e)).

(** The cleaning queries a run submitted. *)
Definition submitted_queries (tr : list event) : list string :=
  omap (fun ev => match ev with
                  | EvCall (Query (SqlText text) (Some _)) => Some text
                  | _ => None
                  end) tr.

End CleanTable.

(** ** Reference services *)

(** A small deterministic model of the two services, used to run the
    pipeline on concrete inputs and to state what an invocation leaves
    behind: object storage as a map from [gs://] URIs to text, the dataset
    namespace as a set, tables as a map from table references to their
    column names and rows.  A load job is carried out when it is
    submitted.  CSV text is read without quoting: lines are separated by
    a line feed and fields by a comma. *)
Module Cloud.

Record stored_table : Type := StoredTable {
  columns : list string;
  rows : list (list string)
}.

Record state : Type := State {
  project : string;
  blobs : gmap string string;
  datasets : gset string;
  tables : gmap string stored_table;
  jobs : nat
}.

Definition csv_rows (text : string) : list (list string) :=
  map (Str.split ",") (Str.split (ascii_of_nat 10) text).

Definition with_datasets (w : state) (d : gset string) : state :=
  State (project w) (blobs w) d (tables w) (jobs w).

Definition with_table (w : state) (table_ref : string) (t : stored_table) : state :=
  State (project w) (blobs w) (datasets w) (<[table_ref := t]> (tables w)) (S (jobs w)).

Definition describe (t : stored_table) : Table :=
  mkTable (Z.of_nat (length (rows t))) (columns t).

(** The rows of a table after a load job. *)
Definition loaded_rows (cfg : LoadJobConfig) (old : option stored_table)
    (text : string) : list (list string) :=
  let new := drop (Z.to_nat (skip_leading_rows cfg)) (csv_rows text) in
  match write_disposition cfg, old with
  | WRITE_APPEND, Some t => rows t ++ new
  | _, _ => new
  end.

Definition answer_query (q : sql) (w : state) : outcome (list row) :=
  match q with
  | SqlRowCount table_ref =>
      match tables w !! table_ref with
      | Some t => Returned [ {[ "row_count" := CInt (Z.of_nat (length (rows t))) ]} ]
      | None => Raised NotFound
      end
  | SqlValidation table_ref original =>
      match tables w !! table_ref with
      | Some t =>
          let n := Z.of_nat (length (rows t)) in
          Returned [ {[ "current_row_count" := CInt n;
                        "row_count_change" := CInt (n - original) ]} ]
      | None => Raised NotFound
      end
  | SqlSchemaColumns p d t =>
      match tables w !! table_reference p d t with
      | Some st => Returned (map (fun c => {[ "column_name" := CStr c ]}) (columns st))
      | None => Returned []
      end
  | _ => Raised (OtherError "unsupported statement")
  end.

Definition serve : handler state :=
  fun R (c : call R) (w : state) =>
    match c in call R return outcome R * state with
    | BigQueryClient => (Returned (project w), w)
    | StorageClient => (Returned tt, w)
    | DownloadAsText bucket_name file_name =>
        match blobs w !! gcs_uri bucket_name file_name with
        | Some text => (Returned text, w)
        | None => (Raised NotFound, w)
        end
    | CsvReader text => (Returned (csv_rows text), w)
    | GetDataset dataset_ref =>
        if bool_decide (dataset_ref ∈ datasets w) then (Returned tt, w)
        else (Raised NotFound, w)
    | CreateDataset dataset_ref =>
        if bool_decide (dataset_ref ∈ datasets w) then (Raised Conflict, w)
        else (Returned tt, with_datasets w ({[ dataset_ref ]} ∪ datasets w))
    | GetTable table_ref =>
        match tables w !! table_ref with
        | Some t => (Returned (describe t), w)
        | None => (Raised NotFound, w)
        end
    | LoadTableFromUri uri table_ref cfg =>
        match blobs w !! uri with
        | Some text =>
            (Returned (jobs w),
             with_table w table_ref
               (StoredTable (map field_name (job_schema cfg))
                  (loaded_rows cfg (tables w !! table_ref) text)))
        | None => (Raised NotFound, w)
        end
    | LoadJobResult job => (Returned [], w)
    | Query q destination => (answer_query q w, w)
    | UtcNow => (Returned "19700101_000000", w)
    end.

End Cloud.

(** ** Concurrent invocations *)

(** One atomic action of a thread: an output, or one call and its
    answer. *)
Definition step {W A : Type} (h : handler W) (p : prog A) (w : W) : prog A * W :=
  match p with
  | Ret _ | Raise _ => (p, w)
  | Emit _ k => (k, w)
  | Vis c k => (k (h _ c w).1, (h _ c w).2)
  end.

(** Two threads over one world: [true] in the schedule lets the first
    thread take a step, [false] the second. *)
Fixpoint interleave {W A : Type} (h : handler W) (schedule : list bool)
    (p1 p2 : prog A) (w : W) : prog A * prog A * W :=
  match schedule with
  | [] => (p1, p2, w)
  | true :: s => interleave h s (step h p1 w).1 p2 (step h p1 w).2
  | false :: s => interleave h s p1 (step h p2 w).1 (step h p2 w).2
  end.

(** Both threads run to their end: interleaved as the schedule says, and
    one after the other for what is left when the schedule is used up. *)
Definition concurrently {W A : Type} (h : handler W) (schedule : list bool)
    (p1 p2 : prog A) (w : W) : outcome A * outcome A * W :=
  let s := interleave h schedule p1 p2 w in
  let r1 := run h s.1.1 s.2 in
  let r2 := run h s.1.2 (world_of r1) in
  (outcome_of r1, outcome_of r2, world_of r2).

(** ** The filename contract, as a predicate *)

(** [s] is [a], then the leftmost occurrence of [sep], then [b]. *)
Definition leftmost (sep s a b : string) : Prop :=
  s = a +:+ sep +:+ b
  /\ forall a' b', s = a' +:+ sep +:+ b' -> (String.length a <= String.length a')%nat.

Definition dash_free (t : string) : Prop := Str.contains_char "-" t = false.

(** [file_name] reads [dataset-table-mode__file]: three tokens without a
    dash, and the double underscore that ends them is the first one of
    the name. *)
Definition decomposes (file_name dataset_id table_id mode actual_file : string) : Prop :=
  dash_free dataset_id /\ dash_free table_id /\ dash_free mode
  /\ leftmost "__" file_name
       (dataset_id +:+ "-" +:+ table_id +:+ "-" +:+ mode) actual_file.

(** The two modes of the uploader. *)
Definition valid_mode (mode : string) : Prop :=
  Str.lower mode = "create" \/ Str.lower mode = "append".

(** ** The precedence rule of schema inference, as stated *)

Definition in_bool_words (v : string) : bool :=
  bool_decide (Str.lower v ∈ bool_words).

Definition integer_literal (v : string) : bool :=
  Literal.int_ok v && negb (Str.contains_char "." v).

(** The ordered precedence over a list of values: boolean if every value
    is one of the boolean words, else integer if every value parses as an
    integer and has no decimal point, else float if every value parses as
    a float, else string; string too when there is no value. *)
Definition precedence (vs : list string) : column_type :=
  if bool_decide (vs = []) then STRING
  else if forallb in_bool_words vs then BOOLEAN
  else if forallb integer_literal vs then INT64
  else if forallb Literal.float_ok vs then FLOAT64
  else STRING.

(** A sampled value that is null or blank. *)
Definition blank (v : option string) : Prop :=
  match v with
  | None => True
  | Some s => Str.strip s = ""
  end.

(** The sampled values that are not blank, without the white space
    around them. *)
Definition non_blank_values (values : list (option string)) : list string :=
  omap (fun v => match v with
                 | Some s => if String.eqb (Str.strip s) "" then None
                             else Some (Str.strip s)
                 | None => None
                 end) values.

(** The rule as stated: the precedence over the values that are not
    blank, a null or blank value counting as empty. *)
Definition classify_by_precedence (values : list (option string)) : column_type :=
  precedence (non_blank_values values).

(** The sampled values other than null and the empty string, each
    without the white space around it: a value of white space only is
    among them, as the empty text. *)
Definition kept_values (values : list (option string)) : list string :=
  omap (fun v => match v with
                 | Some s => if String.eqb s "" then None else Some (Str.strip s)
                 | None => None
                 end) values.

(** The rule as amended: the precedence over the kept values. *)
Definition classify_kept (values : list (option string)) : column_type :=
  precedence (kept_values values).

(** A value that is not empty but holds white space only. *)
Definition whitespace_only (v : option string) : Prop :=
  match v with
  | Some s => s <> "" /\ Str.strip s = ""
  | None => False
  end.

(** The literal of [n] digits [7]. *)
Fixpoint sevens (n : nat) : string :=
  match n with
  | O => EmptyString
  | S n' => String "7" (sevens n')
  end.

(** ** Sample inputs *)

(** The scenario of the specification: 1,000 rows, 60 empty strings and
    5 whitespace-only values in the column [email]. *)
Definition scenario_report : gmap string (gmap string Z) :=
  {[ "email" := {[ "total_rows" := 1000; "empty_string_count" := 60;
                   "whitespace_only_count" := 5 ]} ]}.

(** A column half of whose values are empty strings. *)
Definition half_empty_report : gmap string (gmap string Z) :=
  {[ "email" := {[ "total_rows" := 2; "empty_string_count" := 1 ]} ]}.

(** The default bounds, with only the [nullify_empty] operation enabled. *)
Definition nullify_only : DataCleaner.config :=
  DataCleaner.Config 50 1 ["nullify_empty"].

(** ** Reasoning about programs *)

(** What is assumed of the answers of the services. *)
Definition answers : Type := forall R : Type, call R -> outcome R -> Prop.

Definition any_answer : answers := fun _ _ _ => True.

(** On the worlds that satisfy [I], the answer of [h] to a call within
    [P] is one [Ans] allows, and leaves a world that satisfies [I]. *)
Definition respects {W : Type} (I : W -> Prop) (h : handler W) (Ans : answers)
    (P : event -> Prop) : Prop :=
  forall (R : Type) (c : call R) (w : W),
    I w -> P (EvCall c) -> Ans R c (h R c w).1 /\ I (h R c w).2.

(** Whatever the services answer within [Ans], every event of [p]
    satisfies [P] and its outcome satisfies [Q]. *)
Fixpoint guarantees {A : Type} (Ans : answers) (P : event -> Prop)
    (Q : outcome A -> Prop) (p : prog A) : Prop :=
  match p with
  | Ret a => Q (Returned a)
  | Raise e => Q (Raised e)
  | Emit o k => P (EvOut o) /\ guarantees Ans P Q k
  | Vis c k => P (EvCall c) /\ forall r, Ans _ c r -> guarantees Ans P Q (k r)
  end.

Definition returns {A : Type} (o : outcome A) : Prop := exists a, o = Returned a.

(** Events that leave the tables alone. *)
Definition quiet (ev : event) : Prop := is_mutation ev = false.

(** ** Assumptions on the services *)

(** An assumption on the answers of [get_table(table_ref)]. *)
Definition about_table (table_ref : string) (Good : outcome Table -> Prop) : answers :=
  fun R c =>
    match c in call R return outcome R -> Prop with
    | GetTable ref => fun r => ref = table_ref -> Good r
    | _ => fun _ => True
    end.

(** The table is there and has no row. *)
Definition table_empty (table_ref : string) : answers :=
  about_table table_ref (fun r => exists t, r = Returned t /\ num_rows t <= 0).

(** The table is never reported missing. *)
Definition table_not_missing (table_ref : string) : answers :=
  about_table table_ref (fun r => r <> Raised NotFound).

(** The events of a verification that polls an empty table [n] times. *)
Fixpoint empty_polls (table_ref : string) (delay : Z) (n : nat) : list event :=
  match n with
  | O => []
  | S n' =>
      match n' with
      | O => [EvCall (GetTable table_ref);
              EvOut (Log WARNING "Table created but appears to be empty")]
      | S _ =>
          EvCall (GetTable table_ref) :: EvOut (Log INFO "Waiting for data load")
          :: EvOut (Sleep delay) :: empty_polls table_ref delay n'
      end
  end.

Definition is_get_table (ev : event) : bool :=
  match ev with
  | EvCall (GetTable _) => true
  | _ => false
  end.

Definition get_table_calls (tr : list event) : nat :=
  length (List.filter is_get_table tr).

(** ** Sample worlds *)

(** A project whose table [proj.sales.orders] exists and has no row. *)
Definition empty_table_world : Cloud.state :=
  Cloud.State "proj" ∅ {[ "proj.sales" ]}
    {[ "proj.sales.orders" := Cloud.StoredTable ["name"; "age"] [] ]} 0.

(** ** Two provisioners at once *)

(** An identifier that is not empty and has no dot and no colon.  The
    constructor [bigquery.Dataset] splits the text it is given at the
    dots (after a legacy prefix [domain:project], if there is one), drops
    the empty parts, and raises a [ValueError] unless a project and a
    dataset are left; for a project and a dataset identifier that are
    plain it gives the two back. *)
Definition plain_id (s : string) : bool :=
  negb (String.eqb s "")
  && negb (Str.contains_char "." s) && negb (Str.contains_char ":" s).

(** What the provisioner needs of the service for the dataset
    [dataset_ref], where [present w] tells whether the dataset is in the
    namespace of the world [w]: a dataset in the namespace stays there
    whatever is called, a lookup finds it when it is there and reports
    [NotFound] when it is not, and a creation adds it at once, or answers
    with the conflict when it is there already. *)
Definition dataset_namespace {W : Type} (h : handler W) (dataset_ref : string)
    (present : W -> bool) : Prop :=
  (forall R (c : call R) w, present w = true -> present (h R c w).2 = true)
  /\ (forall w, present w = true -> (h _ (GetDataset dataset_ref) w).1 = Returned tt)
  /\ (forall w, present w = false -> (h _ (GetDataset dataset_ref) w).1 = Raised NotFound)
  /\ (forall w, present w = true -> (h _ (CreateDataset dataset_ref) w).1 = Raised Conflict)
  /\ (forall w, present w = false ->
        (h _ (CreateDataset dataset_ref) w).1 = Returned tt
        /\ present (h _ (CreateDataset dataset_ref) w).2 = true).

(** The namespace only grows. *)
Definition grows {W : Type} (present : W -> bool) (w w' : W) : Prop :=
  present w = true -> present w' = true.

(** From world [w] on, and whatever other threads add to the namespace
    between two of its steps, the thread [p] ends by returning [True]
    with the dataset in place. *)
Fixpoint wins {W : Type} (h : handler W) (present : W -> bool)
    (p : prog (option bool)) (w : W) : Prop :=
  match p with
  | Ret v => v = Some true /\ present w = true
  | Raise _ => False
  | Emit _ k => wins h present k w
  | Vis c k =>
      forall w', grows present w w' -> wins h present (k (h _ c w').1) (h _ c w').2
  end.

(** The client reports project [proj], and the table [table_ref] is
    there whenever it is looked up. *)
Definition destination_exists (proj table_ref : string) : answers :=
  fun R c =>
    match c in call R return outcome R -> Prop with
    | BigQueryClient => fun r => forall p, r = Returned p -> p = proj
    | GetTable ref => fun r => ref = table_ref -> returns r
    | _ => fun _ => True
    end.

(** The clients can be built, and looking a dataset up either finds it
    or reports it missing. *)
Definition healthy : answers :=
  fun R c =>
    match c in call R return outcome R -> Prop with
    | BigQueryClient => fun r => returns r
    | StorageClient => fun r => returns r
    | GetDataset _ => fun r => r = Returned tt \/ r = Raised NotFound
    | _ => fun _ => True
    end.

Definition both (A1 A2 : answers) : answers :=
  fun R c r => A1 R c r /\ A2 R c r.

(** The log line of the [except] clause of [gcs_to_bq]. *)
Definition failure_log : event := EvOut (Log ERROR "Processing failed").

(** An event that leaves the tables alone and is not the failure log. *)
Definition calm (ev : event) : Prop := quiet ev /\ ev <> failure_log.

(** A load job, if the event submits one, appends. *)
Definition appends (ev : event) : Prop :=
  match ev with
  | EvCall (LoadTableFromUri _ _ cfg) => write_disposition cfg = WRITE_APPEND
  | _ => True
  end.

(** A CSV file of two data rows, stored under a name that asks for the
    creation of [sales.orders]. *)
Definition sample_csv : string :=
  "Name,Age" +:+ newline +:+ "ann,3" +:+ newline +:+ "bob,4".

Definition create_event : trigger := Trigger "bkt" "sales-orders-create__data.csv".

(** The world after a first load of that file. *)
Definition loaded_world : Cloud.state :=
  Cloud.State "proj" {[ "gs://bkt/sales-orders-create__data.csv" := sample_csv ]}
    {[ "proj.sales" ]}
    {[ "proj.sales.orders" :=
         Cloud.StoredTable ["name"; "age"] [["ann"; "3"]; ["bob"; "4"]] ]} 1.

(** The same file under a name whose mode token is [replace], in a world
    where [sales.orders] already has two rows. *)
Definition replace_event : trigger := Trigger "bkt" "sales-orders-replace__data.csv".

Definition replace_world : Cloud.state :=
  Cloud.State "proj" {[ "gs://bkt/sales-orders-replace__data.csv" := sample_csv ]}
    {[ "proj.sales" ]}
    {[ "proj.sales.orders" :=
         Cloud.StoredTable ["name"; "age"] [["ann"; "3"]; ["bob"; "4"]] ]} 1.

(** ** What the validator reads *)

(** The [column_name] of every row, when every row has one. *)
Fixpoint row_columns (rows : list row) : option (list cell) :=
  match rows with
  | [] => Some []
  | r :: rest =>
      match r !! "column_name", row_columns rest with
      | Some c, Some cs => Some (c :: cs)
      | _, _ => None
      end
  end.

(** [abs(change) / original * 100], for [original] not zero. *)
Definition change_pct (change original : Z) : float :=
  PrimFloat.mul (PrimFloat.div (float_of_Z (Z.abs change)) (float_of_Z original)) 100.

(** The result row of the validation query has both columns, and its
    change is an integer. *)
Definition well_formed_result (result : row) (change : Z) : Prop :=
  result !! "row_count_change" = Some (CInt change)
  /\ is_Some (result !! "current_row_count").

(** Services that are down: every call raises. *)
Definition offline : handler unit :=
  fun R c w => (Raised (OtherError "service unavailable"), w).

(** Services that answer the validation query with a current count of
    [current] rows. *)
Definition counting (current : Z) : handler unit :=
  fun R c w =>
    (match c in call R return outcome R with
     | Query (SqlValidation _ original) _ =>
         Returned [ {[ "current_row_count" := CInt current;
                       "row_count_change" := CInt (current - original) ]} ]
     | _ => Raised (OtherError "unsupported call")
     end, w).

(** ** What the copy-based remediation measures *)

(** The integer under [key] in the first row of an answer. *)
Definition read_scalar (key : string) (r : outcome (list row)) : option Z :=
  match r with
  | Returned (x :: _) =>
      match x !! key with
      | Some (CInt n) => Some n
      | _ => None
      end
  | _ => None
  end.

(** The source table is described as [tbl], and the two counting
    queries, when they can be read, count [na] rows with a null and
    [dup] duplicate rows. *)
Definition measures (source_table : string) (tbl : Table) (na dup : Z) : answers :=
  fun R c =>
    match c in call R return outcome R -> Prop with
    | GetTable ref => fun r => ref = source_table -> forall t, r = Returned t -> t = tbl
    | Query q _ =>
        fun r =>
          match q with
          | SqlNaCount _ _ => forall n, read_scalar "na_count" r = Some n -> n = na
          | SqlDupCount _ => forall n, read_scalar "dup_count" r = Some n -> n = dup
          | _ => True
          end
    | _ => fun _ => True
    end.

(** A cleaning query, if the event submits one, is the one built from
    the measured counts. *)
Definition expected_copy (source_table : string) (tbl : Table) (na dup : Z)
    (ev : event) : Prop :=
  match ev with
  | EvCall (Query (SqlText text) (Some _)) =>
      text = CleanTable.cleaning_query source_table (schema tbl) na dup (num_rows tbl)
  | _ => True
  end.

(** Services that describe every table as [total] rows over the columns
    [id] and [email], and count [na] rows with a null and [dup] duplicate
    rows. *)
Definition survey (total na dup : Z) : handler unit :=
  fun R c w =>
    (match c in call R return outcome R with
     | BigQueryClient => Returned "proj"
     | GetTable _ => Returned (mkTable total ["id"; "email"])
     | Query (SqlNaCount _ _) _ => Returned [ {[ "na_count" := CInt na ]} ]
     | Query (SqlDupCount _) _ => Returned [ {[ "dup_count" := CInt dup ]} ]
     | Query (SqlText _) _ => Returned []
     | UtcNow => Returned "20240101_000000"
     | _ => Raised (OtherError "unsupported call")
     end, w).

Definition orders_payload : CleanTable.payload :=
  CleanTable.Payload "proj" "sales" "orders".

(** ** Column names, as BigQuery takes them *)

(** Every character of [s] satisfies [P]. *)
Fixpoint string_forall (P : ascii -> bool) (s : string) : bool :=
  match s with
  | EmptyString => true
  | String c s' => P c && string_forall P s'
  end.

(** A lower-case letter, a digit or the underscore. *)
Definition is_column_char (c : ascii) : bool :=
  Str.ascii_in_range 97 122 c || Str.is_digit c || Ascii.eqb c "_".

Definition is_alnum (c : ascii) : bool := Str.is_alpha c || Str.is_digit c.

(** ** Further assumptions and sample services *)

(** An assumption on the answers of [get_dataset(dataset_ref)]. *)
Definition about_dataset (dataset_ref : string) (Good : outcome unit -> Prop) : answers :=
  fun R c =>
    match c in call R return outcome R -> Prop with
    | GetDataset ref => fun r => ref = dataset_ref -> Good r
    | _ => fun _ => True
    end.

(** The dataset is reported missing at every lookup. *)
Definition dataset_missing (dataset_ref : string) : answers :=
  about_dataset dataset_ref (fun r => r = Raised NotFound).

(** The events of a verification that looks a missing dataset up [n]
    times. *)
Fixpoint missing_polls (dataset_ref : string) (delay : Z) (n : nat) : list event :=
  match n with
  | O => []
  | S n' =>
      match n' with
      | O => [EvCall (GetDataset dataset_ref);
              EvOut (Log ERROR "Dataset not found after max_attempts attempts")]
      | S _ =>
          EvCall (GetDataset dataset_ref) :: EvOut (Log INFO "Waiting for dataset creation")
          :: EvOut (Sleep delay) :: missing_polls dataset_ref delay n'
      end
  end.

Definition is_get_dataset (ev : event) : bool :=
  match ev with
  | EvCall (GetDataset _) => true
  | _ => false
  end.

Definition get_dataset_calls (tr : list event) : nat :=
  length (List.filter is_get_dataset tr).

(** The seconds a run slept in all. *)
Fixpoint slept (tr : list event) : Z :=
  match tr with
  | [] => 0
  | EvOut (Sleep seconds) :: tr' => seconds + slept tr'
  | _ :: tr' => slept tr'
  end.

(** Services where a created dataset never becomes visible. *)
Definition lagging : handler unit :=
  fun R c w =>
    (match c in call R return outcome R with
     | GetDataset _ => Raised NotFound
     | CreateDataset _ => Returned tt
     | _ => Raised (OtherError "unsupported call")
     end, w).

(** [extend r k] continues the run [r] with the run that [k] chooses
    from the outcome and the world [r] ended in. *)
Definition extend {W A B : Type} (r : result W A) (k : outcome A -> W -> result W B)
  : result W B :=
  let r2 := k (outcome_of r) (world_of r) in
  Result (outcome_of r2) (world_of r2) (trace_of r ++ trace_of r2).

Definition is_load_result (ev : event) : bool :=
  match ev with
  | EvCall (LoadJobResult _) => true
  | _ => false
  end.

Definition is_call (ev : event) : bool :=
  match ev with
  | EvCall _ => true
  | EvOut _ => false
  end.

(** The client calls of a run. *)
Definition calls (tr : list event) : list event := List.filter is_call tr.

(** Services that answer the row count alone. *)
Definition count_only (n : Z) : handler unit :=
  fun R c w =>
    (match c in call R return outcome R with
     | Query (SqlRowCount _) _ => Returned [ {[ "row_count" := CInt n ]} ]
     | _ => Raised (OtherError "unsupported call")
     end, w).

(** ** The reach of an invocation *)

(** The events that concern only the triggering object, and the dataset
    and the table that its name designates in the project: the object is
    the one downloaded and loaded, the lookups and the creation name that
    dataset and that table, and the queries are the row count of the
    table and a schema listing, neither with a destination. *)
Definition within (bucket_name file_name project_id dataset_id table_id : string)
    (ev : event) : Prop :=
  match ev with
  | EvOut _ => True
  | EvCall c =>
      match c with
      | DownloadAsText b n => b = bucket_name /\ n = file_name
      | GetDataset ref | CreateDataset ref =>
          ref = dataset_reference project_id dataset_id
      | GetTable ref => ref = table_reference project_id dataset_id table_id
      | LoadTableFromUri uri ref _ =>
          uri = gcs_uri bucket_name file_name
          /\ ref = table_reference project_id dataset_id table_id
      | Query q destination =>
          destination = None
          /\ match q with
             | SqlRowCount ref => ref = table_reference project_id dataset_id table_id
             | SqlSchemaColumns _ _ _ => True
             | _ => False
             end
      | UtcNow => False
      | _ => True
      end
  end.

(** The BigQuery client belongs to the project [proj]. *)
Definition project_is (proj : string) : answers :=
  fun R c =>
    match c in call R return outcome R -> Prop with
    | BigQueryClient => fun r => forall p, r = Returned p -> p = proj
    | _ => fun _ => True
    end.

(** The clients can be built, and looking a dataset or a table up either
    finds it or reports it missing. *)
Definition dependable : answers :=
  fun R c =>
    match c in call R return outcome R -> Prop with
    | BigQueryClient => fun r => returns r
    | StorageClient => fun r => returns r
    | GetDataset _ => fun r => returns r \/ r = Raised NotFound
    | GetTable _ => fun r => returns r \/ r = Raised NotFound
    | _ => fun _ => True
    end.

(** Where an exception that [gcs_to_bq] raises can come from: the file
    name, the construction of a client, or a lookup that fails with
    something other than [NotFound]. *)
Definition failure_source (Ans : answers) (file_name : string) (e : exn) : Prop :=
  parse_filename file_name = Raised e
  \/ Ans _ BigQueryClient (Raised e)
  \/ Ans _ StorageClient (Raised e)
  \/ (e <> NotFound
      /\ ((exists ref, Ans _ (GetDataset ref) (Raised e))
          \/ (exists ref, Ans _ (GetTable ref) (Raised e)))).

(** The log line of the [finally] clause of [gcs_to_bq]. *)
Definition completion_log : event := EvOut (Log INFO "Processing complete").

(** ** Cleaning engine, execution: [BQ_SQL/data_cleaner.py] *)

(** The nested expression built for one column. *)
Definition field_expression (operations : list string) (field : string) : string :=
  let e0 := "`" +:+ field +:+ "`" in
  let e1 := if bool_decide ("TRIM" ∈ operations) then "TRIM(" +:+ e0 +:+ ")" else e0 in
  let e2 := if bool_decide ("NULLIF_EMPTY" ∈ operations)
            then "NULLIF(" +:+ e1 +:+ ", '')" else e1 in
  if bool_decide ("NULLIF_WHITESPACE" ∈ operations)
  then "CASE WHEN REGEXP_CONTAINS(" +:+ e2 +:+ ", r'^\s+$') THEN NULL ELSE " +:+ e2 +:+ " END"
  else e2.

Definition update_clause (op : DataCleaner.cleaning_op) : string :=
  "`" +:+ DataCleaner.field op +:+ "` = "
  +:+ field_expression (DataCleaner.op_list op) (DataCleaner.field op).

(** The text of the [UPDATE] statement. *)
Definition update_query (table_ref : string)
    (cleaning_operations : list DataCleaner.cleaning_op) : string :=
  newline +:+ "        UPDATE `" +:+ table_ref +:+ "`"
  +:+ newline +:+ "        SET "
  +:+ CleanTable.join_with ", " (map update_clause cleaning_operations)
  +:+ newline +:+ "        WHERE true"
  +:+ newline +:+ "        ".

(** The line printed for each column of the plan. *)
Definition operations_log (cleaning_operations : list DataCleaner.cleaning_op)
  : prog unit :=
  foldr (fun _ k => Emit (Print "  column: operations") k) (Ret tt) cleaning_operations.

(** [_execute_cleaning_operations(table_ref, cleaning_operations)] *)
Definition _execute_cleaning_operations (table_ref : string)
    (cleaning_operations : list DataCleaner.cleaning_op) : prog bool :=
  _ ← emit (Print "Executing cleaning on columns...");
  _ ← operations_log cleaning_operations;
  catch
    (_ ← perform (Query (SqlText (update_query table_ref cleaning_operations)) None);
     _ ← emit (Print "Cleaning complete");
     Ret true)
    (fun e => Emit (Print "Cleaning execution failed") (Ret false)).

(** The arguments of [perform_smart_cleaning] as Python passes them: an
    entry of the report is [None] or a dictionary of counts, and the
    configuration is a dictionary in which each of the three keys the
    code reads may be missing and other keys may be present. *)
Module CleanerInput.

Record config_dict : Type := ConfigDict {
  max_empty_percentage : option float;
  min_issue_percentage : option float;
  operations : option (list string);
  other_keys : bool
}.

(** [not config] *)
Definition falsy (config : option config_dict) : bool :=
  match config with
  | None => true
  | Some (ConfigDict None None None false) => true
  | Some _ => false
  end.

(** The dictionary [_get_default_config()] returns. *)
Definition _get_default_config : config_dict :=
  ConfigDict (Some (DataCleaner.max_empty_percentage DataCleaner._get_default_config))
    (Some (DataCleaner.min_issue_percentage DataCleaner._get_default_config))
    (Some (DataCleaner.operations DataCleaner._get_default_config)) false.

(** The configuration after [if not config: config = self._get_default_config()]. *)
Definition effective (config : option config_dict) : config_dict :=
  match config with
  | Some c => if falsy config then _get_default_config else c
  | None => _get_default_config
  end.

(** A dictionary with the three keys. *)
Definition complete (c : config_dict) : option DataCleaner.config :=
  match max_empty_percentage c, min_issue_percentage c, operations c with
  | Some hi, Some lo, Some ops => Some (DataCleaner.Config hi lo ops)
  | _, _, _ => None
  end.

(** [config[key]] *)
Definition item {A : Type} (v : option A) : outcome A :=
  match v with
  | Some x => Returned x
  | None => Raised (OtherError "KeyError")
  end.

Definition and_then {A B : Type} (o : outcome A) (f : A -> outcome B) : outcome B :=
  match o with
  | Returned a => f a
  | Raised e => Raised e
  end.

(** The body of the loop for one [field], in the order in which the code
    reads the report and the configuration. *)
Definition column_plan (config : config_dict)
    (quality_report : gmap string (option (gmap string Z))) (f : string)
  : outcome (option DataCleaner.cleaning_op) :=
  match default (Some ∅) (quality_report !! f) with
  | None => Raised (OtherError "AttributeError")
  | Some stats =>
      if DataCleaner.stat stats "total_rows" =? 0 then Returned None
      else
        let total_issues_pct := DataCleaner.total_issues_pct stats in
        and_then (item (min_issue_percentage config)) (fun lo =>
        if negb (PrimFloat.leb lo total_issues_pct) then Returned None
        else
          and_then (item (max_empty_percentage config)) (fun hi =>
          if negb (PrimFloat.leb total_issues_pct hi) then Returned None
          else
            and_then (item (operations config)) (fun ops =>
            Returned
              match DataCleaner.column_operations (DataCleaner.Config hi lo ops) stats with
              | [] => None
              | l => Some (DataCleaner.CleaningOp f l total_issues_pct)
              end)))
  end.

(** [_determine_cleaning_operations(fields, quality_report, config)] *)
Fixpoint _determine_cleaning_operations (fields : list string)
    (quality_report : gmap string (option (gmap string Z))) (config : config_dict)
  : outcome (list DataCleaner.cleaning_op) :=
  match fields with
  | [] => Returned []
  | f :: rest =>
      and_then (column_plan config quality_report f) (fun entry =>
      and_then (_determine_cleaning_operations rest quality_report config) (fun plan =>
      Returned match entry with
               | Some op => op :: plan
               | None => plan
               end))
  end.

(** The entries of the report that are dictionaries. *)
Definition dictionaries (quality_report : gmap string (option (gmap string Z)))
  : gmap string (gmap string Z) :=
  omap id quality_report.

End CleanerInput.

(** [perform_smart_cleaning(table_ref, fields, quality_report, config=None)] *)
Definition perform_smart_cleaning (table_ref : string) (fields : list string)
    (quality_report : gmap string (option (gmap string Z)))
    (config : option CleanerInput.config_dict)
  : prog bool :=
  let config := CleanerInput.effective config in
  _ ← emit (Print "Analyzing cleaning requirements...");
  cleaning_operations ←
    lift (CleanerInput._determine_cleaning_operations fields quality_report config);
  match cleaning_operations with
  | [] =>
      _ ← emit (Print "No cleaning needed - data quality is acceptable!");
      Ret true
  | _ => _execute_cleaning_operations table_ref cleaning_operations
  end.

(** Services that carry out every statement. *)
Definition obliging : handler unit :=
  fun R c w =>
    (match c in call R return outcome R with
     | Query _ _ => Returned []
     | _ => Raised (OtherError "unsupported call")
     end, w).

(** A quality report for one column with 3 empty strings in 100 rows. *)
Definition email_report : gmap string (option (gmap string Z)) :=
  {[ "email" := Some {[ "total_rows" := 100; "empty_string_count" := 3 ]} ]}.

(** ** The reach of the copy-based remediation *)

(** An event that leaves the source table of [p] and everything else in
    place: an output; the construction of the client, a table lookup or
    a reading of the clock; one of the two counting queries over the
    source table, without a destination; or the copy, a [SELECT] from
    the source table that writes to a table of the same dataset named
    [<table>_cleaned_<timestamp>], which is not the source. *)
Definition leaves_source (p : CleanTable.payload) (ev : event) : Prop :=
  let source_table :=
    table_reference (CleanTable.project_id p) (CleanTable.dataset_id p)
      (CleanTable.table_id p) in
  match ev with
  | EvOut _ => True
  | EvCall c =>
      match c with
      | BigQueryClient | GetTable _ | UtcNow => True
      | Query q None =>
          (exists cols,
             q = SqlNaCount source_table
                   (CleanTable.join_with " OR " (map (fun c => c +:+ " IS NULL") cols)))
          \/ q = SqlDupCount source_table
      | Query q (Some destination) =>
          (exists cols na_count dup_count total_rows,
             q = SqlText (CleanTable.cleaning_query source_table cols
                            na_count dup_count total_rows))
          /\ (exists timestamp,
                destination
                = table_reference (CleanTable.project_id p) (CleanTable.dataset_id p)
                    (CleanTable.table_id p +:+ "_cleaned_" +:+ timestamp))
          /\ destination <> source_table
      | _ => False
      end
  end.

(** ** Uploader: [uploader/upload_file.py] *)

Module Uploader.

(** [os.path.basename(path)]: what follows the last slash *)
Definition basename (path : string) : string :=
  default EmptyString (last (Str.split "/" path)).

(** [input(...).strip().lower()] and the membership test on it: the
    mode, when [upload_csv] goes on. *)
Definition accepted_mode (answer : string) : option string :=
  let mode := Str.lower (Str.strip answer) in
  if bool_decide (mode ∈ ["create"; "append"]) then Some mode else None.

(** [f"{dataset}-{table}-{mode}__{actual_file}"] *)
Definition trigger_filename (dataset table mode actual_file : string) : string :=
  dataset +:+ "-" +:+ table +:+ "-" +:+ mode +:+ "__" +:+ actual_file.

(** [upload_csv()], as a function of what the user types and of whether
    the local file exists: the name under which the file is uploaded, or
    [None] when the function returns before the upload. *)
Definition upload_csv (local_file_answer : string) (file_exists : bool)
    (dataset_answer table_answer mode_answer : string) : option string :=
  let local_file := Str.strip local_file_answer in
  if negb file_exists then None
  else
    let dataset := Str.strip dataset_answer in
    let table := Str.strip table_answer in
    match accepted_mode mode_answer with
    | None => None
    | Some mode =>
        let actual_file := basename local_file in
        Some (trigger_filename dataset table mode actual_file)
    end.

End Uploader.

(** [s] has two underscores in a row. *)
Fixpoint has_double_underscore (s : string) : bool :=
  match s with
  | EmptyString => false
  | String a s' =>
      (Ascii.eqb a "_" && match s' with
                          | String b _ => Ascii.eqb b "_"
                          | EmptyString => false
                          end)
      || has_double_underscore s'
  end.

Fixpoint ends_with_underscore (s : string) : bool :=
  match s with
  | EmptyString => false
  | String a EmptyString => Ascii.eqb a "_"
  | String _ s' => ends_with_underscore s'
  end.

(** ** Quality analyzer: [BQ_SQL/data_quality_analyzer.py] *)

Module DataQualityAnalyzer.

(** A value of the dictionary [_analyze_column] returns. *)
Inductive metric : Type :=
| MFloat (x : float)
| MCell (c : cell)
| MRange (lo hi : cell).

(** [quality_report], with [None] for a column whose analysis failed. *)
Record quality_report : Type := QualityReport {
  table : string;
  total_rows : Z;
  columns : gmap string (option (gmap string metric))
}.

(** [s.count(c)] for a one-character [c] *)
Fixpoint count_char (c : ascii) (s : string) : nat :=
  match s with
  | EmptyString => O
  | String a s' => ((if Ascii.eqb a c then 1 else 0) + count_char c s')%nat
  end.

(** The text of the query of [_analyze_column]. *)
Definition column_query (table_ref column_name : string) : string :=
  let col := "`" +:+ column_name +:+ "`" in
  newline +:+ "        SELECT"
  +:+ newline +:+ "            COUNT(" +:+ "*" +:+ ") as total_rows,"
  +:+ newline +:+ "            COUNT(" +:+ col +:+ ") as non_null_count,"
  +:+ newline +:+ "            COUNTIF(TRIM(" +:+ col +:+ ") = '') as empty_string_count,"
  +:+ newline +:+ "            COUNTIF(REGEXP_CONTAINS(" +:+ col
  +:+ ", r'^\s+$')) as whitespace_only_count,"
  +:+ newline +:+ "            APPROX_COUNT_DISTINCT(" +:+ col +:+ ") as distinct_values,"
  +:+ newline +:+ "            MIN(LENGTH(" +:+ col +:+ ")) as min_length,"
  +:+ newline +:+ "            MAX(LENGTH(" +:+ col +:+ ")) as max_length"
  +:+ newline +:+ "        FROM `" +:+ table_ref +:+ "`"
  +:+ newline +:+ "        ".

(** [(results.key / results.total_rows) * 100] *)
Definition percent (results : row) (key : string) : prog float :=
  count ← DataValidator.attribute results key;
  total ← DataValidator.attribute results "total_rows";
  match count, total with
  | CInt c, CInt t =>
      q ← lift (true_div c t);
      Ret (PrimFloat.mul q 100)
  | _, _ => Raise (OtherError "TypeError")
  end.

(** The dictionary built from the first row of the answer. *)
Definition column_summary (results : row) : prog (gmap string metric) :=
  non_null_pct ← percent results "non_null_count";
  empty_pct ← percent results "empty_string_count";
  whitespace_pct ← percent results "whitespace_only_count";
  distinct_values ← DataValidator.attribute results "distinct_values";
  min_length ← DataValidator.attribute results "min_length";
  max_length ← DataValidator.attribute results "max_length";
  Ret ({[ "non_null_pct" := MFloat non_null_pct;
          "empty_pct" := MFloat empty_pct;
          "whitespace_pct" := MFloat whitespace_pct;
          "distinct_values" := MCell distinct_values;
          "length_range" := MRange min_length max_length ]} : gmap string metric).

(** The body of the [try] of [_analyze_column]. *)
Definition analyze_column_body (table_ref column_name : string)
  : prog (option (gmap string metric)) :=
  rows ← perform (Query (SqlText (column_query table_ref column_name)) None);
  results ← DataValidator.first_row rows;
  summary ← column_summary results;
  Ret (Some summary).

(** [_analyze_column(table_ref, column_name)] *)
Definition _analyze_column (table_ref column_name : string)
  : prog (option (gmap string metric)) :=
  catch (analyze_column_body table_ref column_name)
    (fun e => Emit (Log ERROR "Column analysis failed") (Ret None)).

(** The loop of [analyze_table_quality] over [columns]. *)
Fixpoint analyze_columns (table_ref : string) (cols : list string)
    (report : gmap string (option (gmap string metric)))
  : prog (gmap string (option (gmap string metric))) :=
  match cols with
  | [] => Ret report
  | col :: rest =>
      col_analysis ← _analyze_column table_ref col;
      analyze_columns table_ref rest (<[col := col_analysis]> report)
  end.

(** [analyze_table_quality(table_ref, columns)] *)
Definition analyze_table_quality (table_ref : string) (cols : list string)
  : prog (option quality_report) :=
  catch
    (if negb (count_char "." table_ref =? 2)%nat then
       Raise (ValueError "Invalid table reference")
     else
       tbl ← perform (GetTable table_ref);
       let num_rows := num_rows tbl in
       if num_rows =? 0 then
         _ ← emit (Log WARNING "Empty table - skipping quality analysis");
         Ret None
       else
         analyses ← analyze_columns table_ref cols ∅;
         Ret (Some (QualityReport table_ref num_rows analyses)))
    (fun e => Emit (Log ERROR "Quality analysis failed") (Ret None)).

(** The keys of the dictionary [_analyze_column] returns. *)
Definition analysis_keys : gset string :=
  {[ "non_null_pct"; "empty_pct"; "whitespace_pct"; "distinct_values"; "length_range" ]}.

End DataQualityAnalyzer.

(** The column analyses of a report of the analyzer, passed to the
    cleaner as its [quality_report]: an analysis that failed is [None],
    and of an analysis the cleaner can read the entries that are
    integers. *)
Definition analysis_counts (analysis : gmap string DataQualityAnalyzer.metric)
  : gmap string Z :=
  omap (fun m => match m with
                 | DataQualityAnalyzer.MCell (CInt n) => Some n
                 | _ => None
                 end) analysis.

Definition analyses_as_report
    (columns : gmap string (option (gmap string DataQualityAnalyzer.metric)))
  : gmap string (option (gmap string Z)) :=
  (fun analysis : option (gmap string DataQualityAnalyzer.metric) =>
     analysis_counts <$> analysis) <$> columns.

(** The queries of an analysis of the columns [cols], in order. *)
Definition column_queries (table_ref : string) (cols : list string) : list event :=
  map (fun c => EvCall (Query (SqlText (DataQualityAnalyzer.column_query table_ref c))
                          None)) cols.

(** No event at all. *)
Definition no_event (ev : event) : Prop := False.

(** Services that describe every table as one of [total] rows and answer
    no query. *)
Definition describing (total : Z) : handler unit :=
  fun R c w =>
    (match c in call R return outcome R with
     | GetTable _ => Returned (mkTable total ["id"; "email"])
     | _ => Raised (OtherError "unsupported call")
     end, w).

(** ** Counting load jobs *)

(** [p] submits at most [n] load jobs, whatever the services answer. *)
Fixpoint load_budget {A : Type} (n : nat) (p : prog A) : Prop :=
  match p with
  | Ret _ | Raise _ => True
  | Emit _ k => load_budget n k
  | Vis c k =>
      if is_load_submission (EvCall c) then
        match n with
        | O => False
        | S n' => forall r, load_budget n' (k r)
        end
      else forall r, load_budget n (k r)
  end.

(** The load jobs a run submitted. *)
Definition load_submissions (tr : list event) : list event :=
  List.filter is_load_submission tr.

(** Services where the client can be built and every table has [total]
    rows, but no query is answered. *)
Definition unmeasured (total : Z) : handler unit :=
  fun R c w =>
    (match c in call R return outcome R with
     | BigQueryClient => Returned "proj"
     | GetTable _ => Returned (mkTable total ["id"; "email"])
     | _ => Raised (OtherError "unsupported call")
     end, w).

(** ** Tables with nulls, and what a copy selects *)

(** The warehouse as far as the copy-based remediation reads and writes
    it: a table is its rows, a row has a cell for every column, and a
    cell is a text or [NULL]. *)
Module Warehouse.

Definition cells : Type := list (option string).

(** Some column of the row [IS NULL]. *)
Definition has_null (r : cells) : bool :=
  existsb (fun c => match c with None => true | Some _ => false end) r.

(** The number of rows in which some column is null. *)
Definition na_count (rows : list cells) : Z :=
  Z.of_nat (length (List.filter has_null rows)).

(** The number of rows less the number of different rows. *)
Definition dup_count (rows : list cells) : Z :=
  Z.of_nat (length rows) - Z.of_nat (length (remove_dups rows)).

(** How many times the row [r] is in the table. *)
Definition occurrences (r : cells) (rows : list cells) : nat :=
  length (List.filter (fun x => bool_decide (x = r)) rows).

(** What [SELECT *] or [SELECT DISTINCT *] selects from a table, with
    or without a [WHERE] clause that asks every column to be
    [IS NOT NULL]. *)
Definition copy_result (distinct drop_nulls : bool) (rows : list cells) : list cells :=
  let kept := if drop_nulls then List.filter (fun r => negb (has_null r)) rows else rows in
  if distinct then remove_dups kept else kept.

(** The text of that query. *)
Definition copy_query_text (distinct drop_nulls : bool) (source_table : string)
    (cols : list string) : string :=
  (if distinct then "SELECT DISTINCT *" else "SELECT *")
  +:+ " " +:+ ("FROM `" +:+ source_table +:+ "`") +:+ " "
  +:+ (if drop_nulls
       then "WHERE " +:+ CleanTable.join_with " AND "
                           (map (fun c => c +:+ " IS NOT NULL") cols)
       else "").

(** The text of the condition under which some column is null. *)
Definition null_condition (cols : list string) : string :=
  CleanTable.join_with " OR " (map (fun c => c +:+ " IS NULL") cols).

(** Calls that only read. *)
Definition reads {R : Type} (c : call R) : bool :=
  match c with
  | BigQueryClient | GetTable _ | UtcNow | Query _ None => true
  | _ => false
  end.

(** The services answer for the table [source_table], of columns
    [cols], as a warehouse does whose tables are [content w] in the
    world [w]: a call that only reads leaves the tables as they are; the
    client is made and the clock is read; a table that exists is
    described, the source table with its number of rows and its columns;
    the two counting queries count; and a copy query writes what it
    selects to its destination and nothing else. *)
Definition faithful {W : Type} (h : handler W) (content : W -> gmap string (list cells))
    (source_table : string) (cols : list string) : Prop :=
  (forall R (c : call R) w, reads c = true -> content (h R c w).2 = content w)
  /\ (forall w, exists project, (h _ BigQueryClient w).1 = Returned project)
  /\ (forall w, exists timestamp, (h _ UtcNow w).1 = Returned timestamp)
  /\ (forall w rows, content w !! source_table = Some rows ->
        (h _ (GetTable source_table) w).1
        = Returned (mkTable (Z.of_nat (length rows)) cols))
  /\ (forall w ref, is_Some (content w !! ref) ->
        exists t, (h _ (GetTable ref) w).1 = Returned t)
  /\ (forall w rows, content w !! source_table = Some rows ->
        read_scalar "na_count"
          (h _ (Query (SqlNaCount source_table (null_condition cols)) None) w).1
        = Some (na_count rows))
  /\ (forall w rows, content w !! source_table = Some rows ->
        read_scalar "dup_count" (h _ (Query (SqlDupCount source_table) None) w).1
        = Some (dup_count rows))
  /\ (forall w rows distinct drop_nulls destination,
        content w !! source_table = Some rows ->
        let r := h _ (Query (SqlText (copy_query_text distinct drop_nulls source_table cols))
                        (Some destination)) w in
        (exists answer, r.1 = Returned answer)
        /\ content r.2 = <[destination := copy_result distinct drop_nulls rows]> (content w)).

(** Which copy a text asks for, of the four over [source_table]. *)
Definition parse_copy (source_table : string) (cols : list string) (text : string)
  : option (bool * bool) :=
  find (fun f => String.eqb text (copy_query_text f.1 f.2 source_table cols))
    [(false, false); (false, true); (true, false); (true, true)].

(** A warehouse that holds tables of the columns [cols], understands the
    queries of the remediation of [source_table], and whose clock has
    stopped. *)
Definition serve (source_table : string) (cols : list string)
  : handler (gmap string (list cells)) :=
  fun R c w =>
    match c in call R return outcome R * gmap string (list cells) with
    | BigQueryClient => (Returned "proj", w)
    | UtcNow => (Returned "20240101_000000", w)
    | GetTable ref =>
        (match w !! ref with
         | Some rows => Returned (mkTable (Z.of_nat (length rows)) cols)
         | None => Raised NotFound
         end, w)
    | Query (SqlNaCount ref _) None =>
        (match w !! ref with
         | Some rows => Returned [ {[ "na_count" := CInt (na_count rows) ]} ]
         | None => Raised NotFound
         end, w)
    | Query (SqlDupCount ref) None =>
        (match w !! ref with
         | Some rows => Returned [ {[ "dup_count" := CInt (dup_count rows) ]} ]
         | None => Raised NotFound
         end, w)
    | Query (SqlText text) (Some destination) =>
        match w !! source_table, parse_copy source_table cols text with
        | Some rows, Some f => (Returned [], <[destination := copy_result f.1 f.2 rows]> w)
        | _, _ => (Raised (OtherError "invalid query"), w)
        end
    | _ => (Raised (OtherError "unsupported call"), w)
    end.

End Warehouse.

(** Thirty orders: one order entered eighteen times, an order without an
    address entered twice, and ten others. *)
Definition repeated_orders : list Warehouse.cells :=
  replicate 18 [Some "1"; Some "a@example.com"]
  ++ replicate 2 [Some "2"; None]
  ++ map (fun n => [Some n; Some "b@example.com"])
       ["3"; "4"; "5"; "6"; "7"; "8"; "9"; "10"; "11"; "12"].

(** ** What the analyzer reports for a column *)

(** An integer count of the row [results]. *)
Definition count_of (results : row) (key : string) : option Z :=
  match results !! key with
  | Some (CInt n) => Some n
  | _ => None
  end.

(** The share of [total_rows] that the count [key] is, in percent, when
    both are integers and there are rows. *)
Definition percent_of (results : row) (key : string) : option float :=
  match count_of results key, count_of results "total_rows" with
  | Some n, Some total =>
      if total =? 0 then None
      else Some (PrimFloat.mul (PrimFloat.div (float_of_Z n) (float_of_Z total)) 100)
  | _, _ => None
  end.

(** The analysis [_analyze_column] reports for an answer of the services
    to its query: [None] when the query raises or has no row, when its
    first row lacks a column or has a count that is not an integer, and
    when it counts no rows; the five entries computed from the first row
    otherwise. *)
Definition column_analysis (answer : outcome (list row))
  : option (gmap string DataQualityAnalyzer.metric) :=
  match answer with
  | Returned (results :: _) =>
      match percent_of results "non_null_count",
            percent_of results "empty_string_count",
            percent_of results "whitespace_only_count",
            results !! "distinct_values",
            results !! "min_length",
            results !! "max_length" with
      | Some non_null_pct, Some empty_pct, Some whitespace_pct,
        Some distinct_values, Some min_length, Some max_length =>
          Some {[ "non_null_pct" := DataQualityAnalyzer.MFloat non_null_pct;
                  "empty_pct" := DataQualityAnalyzer.MFloat empty_pct;
                  "whitespace_pct" := DataQualityAnalyzer.MFloat whitespace_pct;
                  "distinct_values" := DataQualityAnalyzer.MCell distinct_values;
                  "length_range" := DataQualityAnalyzer.MRange min_length max_length ]}
      | _, _, _, _, _, _ => None
      end
  | _ => None
  end.

(** The entries of the report for the columns [cols]: each column is
    analysed from the answer to its query in the world the queries
    before it left, and a later analysis of the same column replaces an
    earlier one. *)
Fixpoint expected_analyses {W : Type} (h : handler W) (table_ref : string)
    (cols : list string) (report : gmap string (option (gmap string DataQualityAnalyzer.metric)))
    (w : W) : gmap string (option (gmap string DataQualityAnalyzer.metric)) :=
  match cols with
  | [] => report
  | col :: rest =>
      let answer :=
        h _ (Query (SqlText (DataQualityAnalyzer.column_query table_ref col)) None) w in
      expected_analyses h table_ref rest (<[col := column_analysis answer.1]> report)
        answer.2
  end.

(** The counts of a column of 200 rows: 3 nulls, 4 empty strings, 1 of
    white space, 150 different values of 0 to 40 characters. *)
Definition counted_row : row :=
  {[ "total_rows" := CInt 200; "non_null_count" := CInt 197;
     "empty_string_count" := CInt 4; "whitespace_only_count" := CInt 1;
     "distinct_values" := CInt 150; "min_length" := CInt 0; "max_length" := CInt 40 ]}.

(** * Properties *)

(** ** Strings *)

#[local] Arguments String.append : simpl nomatch.

Module StrFacts.

Lemma append_inj_length (a a' b b' : string) :
  a +:+ b = a' +:+ b' -> String.length a = String.length a' -> a = a' /\ b = b'.
Proof.
  revert a'. induction a as [|x a IH]; intros [|x' a'] E L; simpl in *;
    try discriminate; [easy|].
  injection E as -> E. injection L as L.
  destruct (IH _ E L) as [-> ->]. easy.
Qed.

Lemma strip_prefix_spec (p s r : string) :
  Str.strip_prefix p s = Some r <-> s = p +:+ r.
Proof.
  revert s. induction p as [|a p IH]; intros s; simpl.
  - split; [now intros [= ->] | now intros ->].
  - destruct s as [|b s]; [split; discriminate|].
    destruct (Ascii.eqb a b) eqn:E.
    + apply Ascii.eqb_eq in E as ->. rewrite IH. split; [now intros -> | now intros [= ->]].
    + split; [discriminate|]. intros [= -> _]. now rewrite Ascii.eqb_refl in E.
Qed.

Lemma strip_prefix_None (p s : string) :
  Str.strip_prefix p s = None -> forall r, s <> p +:+ r.
Proof.
  intros H r E. apply strip_prefix_spec in E. congruence.
Qed.

Lemma partition_eq (sep s : string) :
  Str.partition sep s =
  match Str.strip_prefix sep s with
  | Some rest => Some (EmptyString, rest)
  | None =>
      match s with
      | EmptyString => None
      | String c s' =>
          match Str.partition sep s' with
          | Some (a, b) => Some (String c a, b)
          | None => None
          end
      end
  end.
Proof. destruct s; reflexivity. Qed.

Lemma partition_sound (sep s a b : string) :
  Str.partition sep s = Some (a, b) -> s = a +:+ sep +:+ b.
Proof.
  revert a b. induction s as [|c s IH]; intros a b; rewrite partition_eq.
  - destruct (Str.strip_prefix sep "") eqn:E; [|discriminate].
    intros [= <- <-]. now apply strip_prefix_spec in E.
  - destruct (Str.strip_prefix sep (String c s)) eqn:E.
    + intros [= <- <-]. now apply strip_prefix_spec in E.
    + destruct (Str.partition sep s) as [[a0 b0]|] eqn:P; [|discriminate].
      intros [= <- <-]. simpl. f_equal. now apply IH.
Qed.

Lemma partition_first (sep s a b : string) :
  Str.partition sep s = Some (a, b) ->
  forall a' b', s = a' +:+ sep +:+ b' -> (String.length a <= String.length a')%nat.
Proof.
  revert a b. induction s as [|c s IH]; intros a b; rewrite partition_eq.
  - destruct (Str.strip_prefix sep "") eqn:E; [|discriminate].
    intros [= <- <-] a' b' _. simpl. lia.
  - destruct (Str.strip_prefix sep (String c s)) eqn:E.
    + intros [= <- <-] a' b' _. simpl. lia.
    + destruct (Str.partition sep s) as [[a0 b0]|] eqn:P; [|discriminate].
      intros [= <- <-] a' b' E'. destruct a' as [|c' a'].
      * simpl in E'. now apply strip_prefix_None with (r := b') in E.
      * simpl in E'. injection E' as -> E'. simpl.
        specialize (IH _ _ eq_refl _ _ E'). lia.
Qed.

Lemma partition_complete (sep s a b : string) :
  s = a +:+ sep +:+ b -> is_Some (Str.partition sep s).
Proof.
  revert s. induction a as [|c a IH]; intros s ->; rewrite partition_eq.
  - simpl. destruct (Str.strip_prefix sep (sep +:+ b)) eqn:E; [eauto|].
    now apply strip_prefix_None with (r := b) in E.
  - destruct (Str.strip_prefix sep _); [eauto|]. simpl.
    destruct (IH _ eq_refl) as [[a0 b0] ->]. eauto.
Qed.

(** [partition] finds the leftmost occurrence, and nothing else. *)
Lemma partition_leftmost (sep s a b : string) :
  Str.partition sep s = Some (a, b) <-> leftmost sep s a b.
Proof.
  split.
  - intros P. split; [now apply partition_sound | now apply (partition_first _ _ _ _ P)].
  - intros [E Hmin]. destruct (partition_complete _ _ _ _ E) as [[a0 b0] P].
    pose proof (partition_sound _ _ _ _ P) as E0.
    pose proof (partition_first _ _ _ _ P _ _ E) as L1.
    pose proof (Hmin _ _ E0) as L2.
    rewrite E in E0.
    destruct (append_inj_length a a0 (sep +:+ b) (sep +:+ b0) E0) as [-> E1]; [lia|].
    destruct (append_inj_length sep sep b b0 E1 eq_refl) as [_ ->].
    exact P.
Qed.

Lemma partition_None (sep s : string) :
  Str.partition sep s = None <-> ~ Str.occurs sep s.
Proof.
  split.
  - intros P (a & b & E). destruct (partition_complete _ _ _ _ E) as [x Hx]. congruence.
  - intros H. destruct (Str.partition sep s) as [[a b]|] eqn:P; [|reflexivity].
    exfalso. apply H. exists a, b. now apply partition_sound.
Qed.

Lemma split_not_nil (c : ascii) (s : string) : Str.split c s <> [].
Proof.
  destruct s as [|a s]; simpl; [discriminate|].
  destruct (Ascii.eqb a c); [discriminate|]. destruct (Str.split c s); discriminate.
Qed.

Lemma join_cons (c : ascii) (t : string) (l : list string) :
  l <> [] -> Str.join c (t :: l) = t +:+ String c (Str.join c l).
Proof. destruct l; [easy | reflexivity]. Qed.

Lemma split_join (c : ascii) (s : string) : Str.join c (Str.split c s) = s.
Proof.
  induction s as [|a s IH]; [reflexivity|]. simpl.
  destruct (Ascii.eqb a c) eqn:E.
  - apply Ascii.eqb_eq in E as ->.
    rewrite join_cons by apply split_not_nil. rewrite IH. reflexivity.
  - destruct (Str.split c s) as [|t ts] eqn:S; [now apply split_not_nil in S|].
    rewrite <- IH. destruct ts; reflexivity.
Qed.

Lemma split_clean (c : ascii) (s : string) :
  Forall (fun t => Str.contains_char c t = false) (Str.split c s).
Proof.
  induction s as [|a s IH]; simpl; [now repeat constructor|].
  destruct (Ascii.eqb a c) eqn:E; [now constructor|].
  destruct (Str.split c s) as [|t ts].
  - constructor; [simpl; now rewrite E | constructor].
  - inversion IH; subst. constructor; [|assumption]. simpl. now rewrite E.
Qed.

Lemma split_append (c : ascii) (t s : string) :
  Str.contains_char c t = false ->
  Str.split c (t +:+ String c s) = t :: Str.split c s.
Proof.
  induction t as [|a t IH]; simpl.
  - intros _. now rewrite Ascii.eqb_refl.
  - destruct (Ascii.eqb a c); [discriminate|]. simpl. intros H. now rewrite IH.
Qed.

Lemma split_token (c : ascii) (t : string) :
  Str.contains_char c t = false -> Str.split c t = [t].
Proof.
  induction t as [|a t IH]; simpl; [reflexivity|].
  destruct (Ascii.eqb a c); [discriminate|]. simpl. intros H. now rewrite IH.
Qed.

(** [split] is the inverse of [join] on tokens free of the separator. *)
Lemma split_of_join (c : ascii) (ts : list string) :
  ts <> [] -> Forall (fun t => Str.contains_char c t = false) ts ->
  Str.split c (Str.join c ts) = ts.
Proof.
  induction ts as [|t ts IH]; [easy|]. intros _ F. inversion F as [|? ? Ht Hts]; subst.
  destruct ts as [|t' ts].
  - simpl. now apply split_token.
  - change (Str.join c (t :: t' :: ts)) with (t +:+ String c (Str.join c (t' :: ts))).
    rewrite split_append by assumption. f_equal. now apply IH.
Qed.

End StrFacts.

(** ** Request router *)

Section Router.

Local Lemma meta_join (d t m : string) :
  d +:+ "-" +:+ t +:+ "-" +:+ m = Str.join "-" [d; t; m].
Proof. reflexivity. Qed.

(** A name that reads [dataset-table-mode__file] is accepted whatever
    the mode token is; the mode comes back in lower case. *)
Lemma parse_filename_accepts (s d t m f : string) :
  decomposes s d t m f -> parse_filename s = Returned (d, t, Str.lower m, f).
Proof.
  intros (Hd & Ht & Hm & L). apply StrFacts.partition_leftmost in L.
  unfold parse_filename, Str.split1. rewrite L, meta_join.
  rewrite StrFacts.split_of_join; [reflexivity | discriminate |].
  repeat constructor; assumption.
Qed.

Lemma parse_filename_returns (s d t m' f : string) :
  parse_filename s = Returned (d, t, m', f) ->
  exists m, m' = Str.lower m /\ decomposes s d t m f.
Proof.
  unfold parse_filename, Str.split1.
  destruct (Str.partition "__" s) as [[a b]|] eqn:P; [|discriminate].
  pose proof (StrFacts.split_join "-" a) as J.
  pose proof (StrFacts.split_clean "-" a) as C.
  destruct (Str.split "-" a) as [|x [|y [|z [|? ?]]]]; try discriminate.
  intros [= -> -> <- ->]. exists z. split; [reflexivity|].
  rewrite !Forall_cons in C. destruct C as (Hx & Hy & Hz & _).
  repeat split; try assumption.
  - rewrite meta_join, J. now apply StrFacts.partition_sound.
  - rewrite meta_join, J. now apply (StrFacts.partition_first _ _ _ _ P).
Qed.

Lemma parse_filename_raises_malformed (s : string) (e : exn) :
  parse_filename s = Raised e -> e = malformed.
Proof.
  unfold parse_filename.
  destruct (Str.split1 "__" s) as [|meta [|actual [|? ?]]]; try now intros [= <-].
  destruct (Str.split "-" meta) as [|x [|y [|z [|? ?]]]];
    first [now intros [= <-] | discriminate].
Qed.

End Router.

(** C1 (as amended).  [parse_filename] raises the one [ValueError] when
    the name has no double underscore, and when what precedes the first
    double underscore does not split on dashes into three tokens; these
    are the only names it rejects.  On every name that reads
    [dataset-table-mode__file] it returns the dataset, the table, the
    mode token in lower case and the file; the mode token is not checked
    against any list of modes. *)
Theorem parse_filename_contract (s : string) :
  (~ Str.occurs "__" s -> parse_filename s = Raised malformed)
  /\ (forall meta f, leftmost "__" s meta f -> length (Str.split "-" meta) <> 3%nat ->
        parse_filename s = Raised malformed)
  /\ (forall d t m f, decomposes s d t m f ->
        parse_filename s = Returned (d, t, Str.lower m, f))
  /\ (forall d t m' f, parse_filename s = Returned (d, t, m', f) ->
        exists m, m' = Str.lower m /\ decomposes s d t m f)
  /\ (forall e, parse_filename s = Raised e ->
        e = malformed /\ forall d t m f, ~ decomposes s d t m f)
  /\ ((forall d t m f, ~ decomposes s d t m f) -> parse_filename s = Raised malformed).
Proof.
  split; [|split; [|split; [|split; [|split]]]].
  - intros N. apply StrFacts.partition_None in N.
    unfold parse_filename, Str.split1. now rewrite N.
  - intros meta f L N. apply StrFacts.partition_leftmost in L.
    unfold parse_filename, Str.split1. rewrite L.
    destruct (Str.split "-" meta) as [|x [|y [|z [|? ?]]]]; try reflexivity.
    now destruct N.
  - intros d t m f. apply parse_filename_accepts.
  - intros d t m' f. apply parse_filename_returns.
  - intros e E. split; [now apply parse_filename_raises_malformed with s|].
    intros d t m f D. rewrite (parse_filename_accepts _ _ _ _ _ D) in E. discriminate.
  - intros N. destruct (parse_filename s) as [[[[d t] m'] f]|e] eqn:E.
    + destruct (parse_filename_returns _ _ _ _ _ E) as (m & _ & D).
      now destruct (N _ _ _ _ D).
    + now rewrite (parse_filename_raises_malformed _ _ E).
Qed.

Lemma parse_filename_contract_witness :
  decomposes "sales-orders-Create__data.csv" "sales" "orders" "Create" "data.csv"
  /\ parse_filename "sales-orders-Create__data.csv"
     = Returned ("sales", "orders", "create", "data.csv")
  /\ parse_filename "sales-orders__data.csv" = Raised malformed.
Proof.
  assert (D : decomposes "sales-orders-Create__data.csv" "sales" "orders" "Create" "data.csv").
  { split; [reflexivity | split; [reflexivity | split; [reflexivity|]]].
    apply StrFacts.partition_leftmost. reflexivity. }
  split; [exact D|]. split.
  - exact (proj1 (proj2 (proj2 (parse_filename_contract _))) _ _ _ _ D).
  - apply (proj1 (proj2 (parse_filename_contract "sales-orders__data.csv"))
             "sales-orders" "data.csv").
    + apply StrFacts.partition_leftmost. reflexivity.
    + simpl. lia.
Defined.

(** C1 as stated fails: a name whose mode token is [replace] is not
    rejected. *)
Lemma parse_filename_takes_any_mode :
  decomposes "sales-orders-replace__data.csv" "sales" "orders" "replace" "data.csv"
  /\ ~ valid_mode "replace"
  /\ parse_filename "sales-orders-replace__data.csv"
     = Returned ("sales", "orders", "replace", "data.csv").
Proof.
  split; [|split].
  - split; [reflexivity | split; [reflexivity | split; [reflexivity|]]].
    apply StrFacts.partition_leftmost. reflexivity.
  - intros [H|H]; discriminate H.
  - reflexivity.
Qed.

(** ** Schema inference *)

Section Inference.

Local Lemma lower_char_line_feed (c : ascii) :
  Str.lower_char c = ascii_of_nat 10 -> c = ascii_of_nat 10.
Proof.
  destruct c as [[] [] [] [] [] [] [] []]; vm_compute; congruence.
Qed.

Local Lemma lower_ends (s w : string) (x : ascii) :
  Str.lower s = w +:+ String x "" ->
  exists s' c, s = s' +:+ String c "" /\ Str.lower_char c = x.
Proof.
  revert w. induction s as [|a s IH]; intros w; simpl.
  - destruct w; discriminate.
  - destruct w as [|b w]; simpl.
    + intros [= Ha Hs]. destruct s; [|discriminate]. now exists "", a.
    + intros [= Ha Hs]. destruct (IH _ Hs) as (s' & c & -> & Hc).
      now exists (String a s'), c.
Qed.

Local Lemma rstrip_ends (s t : string) (c : ascii) :
  Str.rstrip s = t +:+ String c "" -> Str.is_space c = false.
Proof.
  revert t. induction s as [|a s IH]; intros t; simpl.
  - destruct t; discriminate.
  - destruct (Str.rstrip s) as [|b r] eqn:R.
    + destruct (Str.is_space a) eqn:Sa; [destruct t; discriminate|].
      destruct t as [|? [|? ?]]; simpl; try discriminate. now intros [= <-].
    + destruct t as [|x t]; simpl; [discriminate|].
      intros [= _ E]. now apply (IH t).
Qed.

Local Lemma stripped_no_line_feed (u w : string) :
  Str.lower (Str.strip u) <> w +:+ newline.
Proof.
  intros E. apply lower_ends in E as (s' & c & E & Hc).
  apply lower_char_line_feed in Hc as ->.
  now apply rstrip_ends in E.
Qed.

(** On a stripped value the pattern accepts exactly the boolean words. *)
Lemma bool_pattern_match_stripped (u : string) :
  bool_pattern_match (Str.strip u) = in_bool_words (Str.strip u).
Proof.
  unfold bool_pattern_match, in_bool_words.
  destruct (existsb _ bool_words) eqn:E.
  - apply existsb_exists in E as (w & Hw & E). apply list_elem_of_In in Hw.
    apply orb_true_iff in E as [E|E]; apply String.eqb_eq in E.
    + symmetry. apply bool_decide_eq_true. now rewrite E.
    + now apply stripped_no_line_feed in E.
  - symmetry. apply bool_decide_eq_false. intros Hin.
    apply not_true_iff_false in E. apply E, existsb_exists.
    exists (Str.lower (Str.strip u)). split; [now apply list_elem_of_In|].
    now rewrite String.eqb_refl.
Qed.

Lemma non_null_values_stripped (values : list (option string)) :
  Forall (fun v => exists u, v = Str.strip u) (non_null_values values).
Proof.
  induction values as [|[v|] rest IH]; simpl; [constructor | | assumption].
  destruct (String.eqb v ""); [assumption|]. constructor; [now exists v | assumption].
Qed.

Lemma int_loop_all (vs : list string) (n : nat) :
  forallb integer_literal vs = true -> int_loop vs n = (n + length vs)%nat.
Proof.
  revert n. induction vs as [|v vs IH]; intros n; simpl; [lia|].
  unfold integer_literal at 1. intros H.
  apply andb_true_iff in H as [H1 H2]. apply andb_true_iff in H1 as [H0 H1].
  apply negb_true_iff in H1. rewrite H1, H0, IH by assumption. lia.
Qed.

Lemma int_loop_short (vs : list string) (n : nat) :
  forallb integer_literal vs = false -> (int_loop vs n < n + length vs)%nat.
Proof.
  revert n. induction vs as [|v vs IH]; intros n; simpl; [discriminate|].
  unfold integer_literal at 1.
  destruct (Str.contains_char "." v); [intros _; lia|].
  destruct (Literal.int_ok v); simpl; [|intros _; lia].
  intros H. specialize (IH (S n) H). lia.
Qed.

Lemma float_loop_all (vs : list string) (n : nat) :
  forallb Literal.float_ok vs = true -> float_loop vs n = (n + length vs)%nat.
Proof.
  revert n. induction vs as [|v vs IH]; intros n; simpl; [lia|].
  intros H. apply andb_true_iff in H as [H0 H1]. rewrite H0, IH by assumption. lia.
Qed.

Lemma float_loop_short (vs : list string) (n : nat) :
  forallb Literal.float_ok vs = false -> (float_loop vs n < n + length vs)%nat.
Proof.
  revert n. induction vs as [|v vs IH]; intros n; simpl; [discriminate|].
  destruct (Literal.float_ok v); simpl; [|intros _; lia].
  intros H. specialize (IH (S n) H). lia.
Qed.

Lemma non_null_values_kept (values : list (option string)) :
  non_null_values values = kept_values values.
Proof.
  induction values as [|[v|] rest IH]; simpl; [reflexivity | | exact IH].
  destruct (String.eqb v ""); simpl; now rewrite IH.
Qed.

Lemma detect_column_type_precedence (values : list (option string)) :
  detect_column_type values = classify_kept values.
Proof.
  unfold detect_column_type, classify_kept, precedence.
  rewrite <- non_null_values_kept.
  destruct values as [|v0 rest]; [reflexivity|].
  pose proof (non_null_values_stripped (v0 :: rest)) as S.
  destruct (non_null_values (v0 :: rest)) as [|v vs] eqn:E; [reflexivity|].
  rewrite bool_decide_eq_false_2 by discriminate.
  replace (forallb bool_pattern_match (v :: vs)) with (forallb in_bool_words (v :: vs)).
  2:{ clear E. induction S as [|x l (u & ->) _ IH]; [reflexivity|].
      simpl. now rewrite bool_pattern_match_stripped, IH. }
  destruct (forallb in_bool_words (v :: vs)); [reflexivity|].
  destruct (forallb integer_literal (v :: vs)) eqn:I.
  - rewrite (int_loop_all _ 0 I). now rewrite Nat.eqb_refl.
  - pose proof (int_loop_short _ 0 I) as L.
    destruct (Nat.eqb_spec (int_loop (v :: vs) 0) (length (v :: vs))) as [Q|_]; [lia|].
    destruct (forallb Literal.float_ok (v :: vs)) eqn:F.
    + rewrite (float_loop_all _ 0 F). now rewrite Nat.eqb_refl.
    + pose proof (float_loop_short _ 0 F) as L'.
      destruct (Nat.eqb_spec (float_loop (v :: vs) 0) (length (v :: vs))) as [Q|_]; [lia|].
      reflexivity.
Qed.

(** A list with an empty text in it is neither boolean, integer nor
    float. *)
Lemma empty_text_not_classified (vs : list string) :
  "" ∈ vs -> precedence vs = STRING.
Proof.
  intros H. unfold precedence.
  assert (F : forall f : string -> bool, f "" = false -> forallb f vs = false).
  { intros f Hf. induction vs as [|v vs IH]; [inversion H|].
    simpl. apply elem_of_cons in H as [<-|H]; [now rewrite Hf|].
    rewrite IH by assumption. apply andb_false_r. }
  case_bool_decide; [reflexivity|].
  rewrite !F by reflexivity. reflexivity.
Qed.

Lemma kept_values_blank (values : list (option string)) :
  Forall blank values -> kept_values values = [] \/ "" ∈ kept_values values.
Proof.
  induction 1 as [|[s|] rest B _ IH]; simpl; [now left | | exact IH].
  destruct (String.eqb s ""); simpl; [exact IH|].
  right. simpl in B. rewrite B. apply elem_of_cons. now left.
Qed.

Lemma kept_values_whitespace (values : list (option string)) :
  Exists whitespace_only values -> "" ∈ kept_values values.
Proof.
  induction 1 as [v rest H|v rest _ IH]; simpl.
  - destruct v as [s|]; [|destruct H]. destruct H as [N E].
    destruct (String.eqb_spec s ""); [contradiction|]. simpl.
    rewrite E. apply elem_of_cons. now left.
  - destruct v as [s|]; [|exact IH].
    destruct (String.eqb s ""); simpl; [exact IH|]. apply elem_of_cons. now right.
Qed.

Lemma kept_values_non_blank (values : list (option string)) :
  Forall (fun v => ~ whitespace_only v) values ->
  kept_values values = non_blank_values values.
Proof.
  induction 1 as [|[s|] rest N _ IH]; simpl; [reflexivity | | exact IH].
  destruct (String.eqb_spec s "") as [->|Hs]; simpl.
  - exact IH.
  - destruct (String.eqb_spec (Str.strip s) "") as [E|_]; simpl.
    + exfalso. apply N. now split.
    + now rewrite IH.
Qed.

End Inference.




(** ** Floating-point comparisons *)

Section FloatOrder.

Local Lemma SFcompare_antisym (a b : spec_float) :
  SFcompare b a = option_map CompOpp (SFcompare a b).
Proof.
  destruct a as [sa|sa| |sa ma ea], b as [sb|sb| |sb mb eb]; simpl;
    try reflexivity; try (destruct sa; reflexivity); try (destruct sb; reflexivity);
    try (destruct sa, sb; reflexivity).
  destruct sa, sb; simpl; try reflexivity;
    rewrite (Z.compare_antisym ea eb); destruct (ea ?= eb); simpl; try reflexivity;
    f_equal; rewrite (Pos.compare_cont_antisym ma mb Eq); reflexivity.
Qed.

(** [x < y] excludes [y <= x]. *)
Lemma float_lt_not_le (x y : float) :
  PrimFloat.ltb x y = true -> PrimFloat.leb y x = false.
Proof.
  rewrite FloatAxioms.ltb_spec, FloatAxioms.leb_spec. unfold SFltb, SFleb.
  rewrite (SFcompare_antisym (Prim2SF x) (Prim2SF y)).
  destruct (SFcompare (Prim2SF x) (Prim2SF y)) as [[]|]; simpl; congruence.
Qed.

End FloatOrder.

(** ** Cleaning engine *)

Section Cleaning.

Import DataCleaner.

Lemma in_cleaning_plan (fields : list string)
    (report : gmap string (gmap string Z)) (cfg : config) (op : cleaning_op) :
  op ∈ _determine_cleaning_operations fields report cfg
  <-> exists f, f ∈ fields /\ column_plan cfg report f = Some op.
Proof.
  induction fields as [|g fields IH]; simpl.
  - split; [intros H; inversion H | intros (f & H & _); inversion H].
  - destruct (column_plan cfg report g) as [op'|] eqn:E.
    + rewrite elem_of_cons, IH. split.
      * intros [->|(f & Hf & Hp)]; [exists g | exists f]; split;
          first [apply elem_of_cons; auto | assumption].
      * intros (f & Hf & Hp). apply elem_of_cons in Hf as [->|Hf].
        -- left. congruence.
        -- right. eauto.
    + rewrite IH. split.
      * intros (f & Hf & Hp). exists f. split; [apply elem_of_cons; auto | assumption].
      * intros (f & Hf & Hp). apply elem_of_cons in Hf as [->|Hf]; [congruence | eauto].
Qed.

Lemma column_plan_Some (cfg : config) (report : gmap string (gmap string Z))
    (f : string) (op : cleaning_op) :
  let stats := default ∅ (report !! f) in
  column_plan cfg report f = Some op
  <-> stat stats "total_rows" <> 0
      /\ within_bounds cfg stats = true
      /\ column_operations cfg stats <> []
      /\ op = CleaningOp f (column_operations cfg stats) (total_issues_pct stats).
Proof.
  intros stats. unfold column_plan. fold stats.
  destruct (Z.eqb_spec (stat stats "total_rows") 0) as [Z0|Z0].
  - split; [discriminate | intros (H & _); contradiction].
  - destruct (within_bounds cfg stats).
    + destruct (column_operations cfg stats) as [|o ops].
      * split; [discriminate | intros (_ & _ & H & _); contradiction].
      * split; [intros [= <-]; repeat split; [assumption | discriminate]
               | intros (_ & _ & _ & ->); reflexivity].
    + split; [discriminate | intros (_ & H & _); discriminate].
Qed.

Lemma selected_iff (fields : list string) (report : gmap string (gmap string Z))
    (cfg : config) (f : string) :
  let stats := default ∅ (report !! f) in
  selected fields report cfg f
  <-> f ∈ fields /\ stat stats "total_rows" <> 0
      /\ within_bounds cfg stats = true
      /\ column_operations cfg stats <> [].
Proof.
  intros stats. unfold selected. split.
  - intros (op & Hin & Hf). apply in_cleaning_plan in Hin as (g & Hg & Hp).
    apply column_plan_Some in Hp as (H1 & H2 & H3 & ->). simpl in Hf. subst g.
    repeat split; assumption.
  - intros (Hf & H1 & H2 & H3).
    exists (CleaningOp f (column_operations cfg stats) (total_issues_pct stats)).
    split; [|reflexivity]. apply in_cleaning_plan. exists f. split; [assumption|].
    apply column_plan_Some. repeat split; assumption.
Qed.

Lemma trim_enabled_operations (cfg : config) (stats : gmap string Z) :
  enabled "trim" cfg = true -> column_operations cfg stats <> [].
Proof. unfold column_operations. intros ->. discriminate. Qed.

Lemma within_bounds_iff (cfg : config) (stats : gmap string Z) :
  within_bounds cfg stats = true
  <-> PrimFloat.leb (min_issue_percentage cfg) (total_issues_pct stats) = true
      /\ PrimFloat.leb (total_issues_pct stats) (max_empty_percentage cfg) = true.
Proof. unfold within_bounds. apply andb_true_iff. Qed.

End Cleaning.



(** The scenario of the specification: 6.5% of issues, inside the default
    bounds, and the three operations in order. *)
Example cleaning_scenario :
  DataCleaner._determine_cleaning_operations ["email"] scenario_report
    DataCleaner._get_default_config
  = [DataCleaner.CleaningOp "email" ["TRIM"; "NULLIF_EMPTY"; "NULLIF_WHITESPACE"] 6.5%float].
Proof. vm_compute. reflexivity. Qed.


(** ** Program logic *)

Section Logic.

Context {A : Type}.

Lemma bind_eq {B : Type} (f : A -> prog B) (p : prog A) : (p ≫= f) = bind p f.
Proof. reflexivity. Qed.

Lemma guarantees_weaken (Ans : answers) (P P' : event -> Prop)
    (Q Q' : outcome A -> Prop) (p : prog A) :
  (forall ev, P ev -> P' ev) -> (forall o, Q o -> Q' o) ->
  guarantees Ans P Q p -> guarantees Ans P' Q' p.
Proof.
  intros HP HQ. induction p as [a|e|o k IH|R c k IH]; simpl; auto.
  - intros [H1 H2]. auto.
  - intros [H1 H2]. split; auto.
Qed.

Lemma guarantees_bind {B : Type} (Ans : answers) (P : event -> Prop)
    (Q1 : outcome A -> Prop) (Q : outcome B -> Prop) (p : prog A) (f : A -> prog B) :
  guarantees Ans P Q1 p ->
  (forall a, Q1 (Returned a) -> guarantees Ans P Q (f a)) ->
  (forall e, Q1 (Raised e) -> Q (Raised e)) ->
  guarantees Ans P Q (p ≫= f).
Proof.
  rewrite bind_eq. intros Hp Hf He.
  induction p as [a|e|o k IH|R c k IH]; simpl in *; auto.
  - destruct Hp. auto.
  - destruct Hp as [H1 H2]. split; auto.
Qed.

Lemma guarantees_catch (Ans : answers) (P : event -> Prop)
    (Q1 Q : outcome A -> Prop) (p : prog A) (h : exn -> prog A) :
  guarantees Ans P Q1 p ->
  (forall a, Q1 (Returned a) -> Q (Returned a)) ->
  (forall e, Q1 (Raised e) -> guarantees Ans P Q (h e)) ->
  guarantees Ans P Q (catch p h).
Proof.
  intros Hp Ha He.
  induction p as [a|e|o k IH|R c k IH]; simpl in *; auto.
  - destruct Hp. auto.
  - destruct Hp as [H1 H2]. split; auto.
Qed.

Lemma guarantees_finally (Ans : answers) (P : event -> Prop)
    (Q : outcome A -> Prop) (p : prog A) (f : prog unit) :
  guarantees Ans P Q p ->
  guarantees Ans P (fun o => o = Returned tt) f ->
  guarantees Ans P Q (finally p f).
Proof.
  intros Hp Hf.
  induction p as [a|e|o k IH|R c k IH]; simpl in *.
  - induction f as [[]|e|o k IH|R c k IH]; simpl in *; try easy.
    + destruct Hf. auto.
    + destruct Hf as [H1 H2]. split; auto.
  - induction f as [[]|e'|o k IH|R c k IH]; simpl in *; try easy.
    + destruct Hf. auto.
    + destruct Hf as [H1 H2]. split; auto.
  - destruct Hp. auto.
  - destruct Hp as [H1 H2]. split; auto.
Qed.

Lemma guarantees_perform (Ans : answers) (P : event -> Prop)
    (Q : outcome A -> Prop) (c : call A) :
  P (EvCall c) -> (forall r, Ans _ c r -> Q r) ->
  guarantees Ans P Q (perform c).
Proof. intros HP HQ. simpl. split; [assumption|]. intros [a|e] Hr; simpl; auto. Qed.

(** The guarantee holds of every run against services that respect the
    assumption. *)
Lemma guarantees_run {W : Type} (I : W -> Prop) (h : handler W) (Ans : answers)
    (P : event -> Prop) (Q : outcome A -> Prop) (p : prog A) (w : W) :
  respects I h Ans P -> I w -> guarantees Ans P Q p ->
  Forall P (trace_of (run h p w)) /\ Q (outcome_of (run h p w))
  /\ I (world_of (run h p w)).
Proof.
  intros Hh. revert w.
  induction p as [a|e|o k IH|R c k IH]; intros w Hw Hp; simpl in *.
  - auto.
  - auto.
  - destruct Hp as [H1 H2]. destruct (IH w Hw H2) as (T & O & W'). auto.
  - destruct Hp as [H1 H2]. destruct (Hh _ c w Hw H1) as [Ha Hi].
    destruct (IH _ _ Hi (H2 _ Ha)) as (T & O & W'). auto.
Qed.

(** A part of the world that only events outside [P] can change is left
    as it was. *)
Lemma guarantees_frame {W X : Type} (I : W -> Prop) (h : handler W) (Ans : answers)
    (P : event -> Prop) (Q : outcome A -> Prop) (content : W -> X)
    (p : prog A) (w : W) :
  respects I h Ans P -> I w -> guarantees Ans P Q p ->
  (forall R (c : call R) w', I w' -> P (EvCall c) -> content (h R c w').2 = content w') ->
  content (world_of (run h p w)) = content w.
Proof.
  intros Hh Hw Hp Hf. revert w Hw Hp.
  induction p as [a|e|o k IH|R c k IH]; intros w Hw Hp; simpl in *; auto.
  - destruct Hp. auto.
  - destruct Hp as [H1 H2]. destruct (Hh _ c w Hw H1) as [Ha Hi].
    rewrite (IH _ _ Hi (H2 _ Ha)). auto.
Qed.

End Logic.

(** ** Load verification *)

Section LoadVerification.

Context {W : Type} (h : handler W) (I : W -> Prop).

Lemma empty_polls_calls (table_ref : string) (delay : Z) (n : nat) :
  get_table_calls (empty_polls table_ref delay n) = n.
Proof.
  induction n as [|n IH]; [reflexivity|].
  destruct n as [|n]; [reflexivity|].
  change (S (get_table_calls (empty_polls table_ref delay (S n))) = S (S n)).
  now rewrite IH.
Qed.

Lemma empty_polls_step (table_ref : string) (delay : Z) (n : nat) :
  empty_polls table_ref delay (S (S n))
  = EvCall (GetTable table_ref) :: EvOut (Log INFO "Waiting for data load")
    :: EvOut (Sleep delay) :: empty_polls table_ref delay (S n).
Proof. reflexivity. Qed.

Lemma verify_table_loop_empty (table_ref : string) (max_attempts : nat) (delay : Z)
    (todo attempt : nat) (w : W) :
  respects I h (table_empty table_ref) quiet -> I w ->
  (0 < todo)%nat -> (attempt + todo = max_attempts)%nat ->
  let r := run h (verify_table_loop table_ref max_attempts delay todo attempt) w in
  outcome_of r = Returned (Some true)
  /\ trace_of r = empty_polls table_ref delay todo.
Proof.
  intros Hh. revert attempt w.
  induction todo as [|todo IH]; intros attempt w Hw Hpos Hsum; [lia|].
  destruct (Hh _ (GetTable table_ref) w Hw eq_refl) as [Ha Hi].
  destruct (Ha eq_refl) as (t & Et & Hrows).
  cbn [verify_table_loop run]. rewrite Et.
  destruct (Z.ltb_spec 0 (num_rows t)) as [?|_]; [lia|].
  destruct todo as [|todo].
  - destruct (Z.ltb_spec (Z.of_nat attempt) (Z.of_nat max_attempts - 1)); [lia|].
    split; reflexivity.
  - destruct (Z.ltb_spec (Z.of_nat attempt) (Z.of_nat max_attempts - 1)); [|lia].
    destruct (IH (S attempt) _ Hi) as [O T]; [lia | lia |].
    cbn [run after outcome_of trace_of]. split; [exact O|].
    rewrite empty_polls_step. now rewrite <- T.
Qed.

Lemma verify_table_loop_found (table_ref : string) (max_attempts : nat) (delay : Z)
    (todo attempt : nat) :
  guarantees (table_not_missing table_ref) quiet
    (fun o => o <> Returned (Some false))
    (verify_table_loop table_ref max_attempts delay todo attempt).
Proof.
  revert attempt. induction todo as [|todo IH]; intros attempt; simpl; [discriminate|].
  split; [reflexivity|]. intros [t|e] Hr.
  - destruct (0 <? num_rows t); simpl; [split; [reflexivity | discriminate]|].
    destruct (Z.of_nat attempt <? Z.of_nat max_attempts - 1); simpl.
    + repeat split. apply IH.
    + split; [reflexivity | discriminate].
  - destruct e; simpl; try discriminate. now destruct (Hr eq_refl).
Qed.

End LoadVerification.

(** C9.  When the table is there but still has no row at each of the
    bounded attempts, [verify_table_load] polls it that many times and
    returns [True] after a warning; it returns [False] when the table is
    not found, and only then. *)
Theorem verify_table_load_degrades {W : Type} (h : handler W) (I : W -> Prop)
    (table_ref : string) (max_attempts : nat) (delay : Z) (w : W) :
  let r := run h (verify_table_load table_ref max_attempts delay) w in
  I w ->
  (respects I h (table_empty table_ref) quiet -> (0 < max_attempts)%nat ->
   outcome_of r = Returned (Some true)
   /\ trace_of r = empty_polls table_ref delay max_attempts
   /\ get_table_calls (trace_of r) = max_attempts)
  /\ ((h _ (GetTable table_ref) w).1 = Raised NotFound -> (0 < max_attempts)%nat ->
      outcome_of r = Returned (Some false))
  /\ (respects I h (table_not_missing table_ref) quiet ->
      outcome_of r <> Returned (Some false)).
Proof.
  intros r Hw. split; [|split].
  - intros Hh Hpos.
    destruct (verify_table_loop_empty h I table_ref max_attempts delay max_attempts 0 w
                Hh Hw Hpos eq_refl) as [O T].
    split; [exact O|]. split; [exact T|].
    unfold r, verify_table_load. rewrite T. apply empty_polls_calls.
  - intros E Hpos. unfold r, verify_table_load.
    destruct max_attempts as [|n]; [lia|].
    cbn [verify_table_loop run]. rewrite E. reflexivity.
  - intros Hh.
    apply (guarantees_run I h _ _ _ _ w Hh Hw
             (verify_table_loop_found table_ref max_attempts delay max_attempts 0)).
Qed.

(** ** The reference services *)

Section CloudFacts.

Lemma serve_quiet_tables {R : Type} (c : call R) (w : Cloud.state) :
  mutating c = false -> Cloud.tables (Cloud.serve R c w).2 = Cloud.tables w.
Proof.
  destruct c; simpl; try discriminate; intros _; try reflexivity.
  - destruct (Cloud.blobs w !! _); reflexivity.
  - destruct (bool_decide _); reflexivity.
  - destruct (bool_decide _); reflexivity.
  - destruct (Cloud.tables w !! _); reflexivity.
Qed.

Lemma serve_project {R : Type} (c : call R) (w : Cloud.state) :
  Cloud.project (Cloud.serve R c w).2 = Cloud.project w.
Proof.
  destruct c; simpl; try reflexivity.
  - destruct (Cloud.blobs w !! _); reflexivity.
  - destruct (bool_decide _); reflexivity.
  - destruct (bool_decide _); reflexivity.
  - destruct (Cloud.tables w !! _); reflexivity.
  - destruct (Cloud.blobs w !! _); reflexivity.
Qed.

(** A table that is there stays as it is under the calls that are not
    jobs, and [get_table] describes it. *)
Lemma serve_keeps_table (table_ref : string) (t : Cloud.stored_table)
    (Good : outcome Table -> Prop) :
  Good (Returned (Cloud.describe t)) ->
  respects (fun w => Cloud.tables w !! table_ref = Some t) Cloud.serve
    (about_table table_ref Good) quiet.
Proof.
  intros G R c w Hw Hq. split.
  - destruct c; simpl; try exact Logic.I. intros ->. now rewrite Hw.
  - rewrite serve_quiet_tables; [assumption | exact Hq].
Qed.

End CloudFacts.

Lemma verify_table_load_degrades_witness :
  let r := run Cloud.serve (verify_table_load "proj.sales.orders" 5 30) empty_table_world in
  outcome_of r = Returned (Some true) /\ get_table_calls (trace_of r) = 5%nat.
Proof.
  pose proof (verify_table_load_degrades Cloud.serve
                (fun w => Cloud.tables w !! "proj.sales.orders"
                          = Some (Cloud.StoredTable ["name"; "age"] []))
                "proj.sales.orders" 5 30 empty_table_world eq_refl) as (H & _).
  destruct H as (O & _ & C).
  - apply serve_keeps_table. eexists. split; [reflexivity | simpl; lia].
  - lia.
  - split; [exact O | exact C].
Defined.

(** ** Dataset provisioning *)

Section Provisioning.

Context {W : Type} (h : handler W) (present : W -> bool).

Lemma grows_refl (w : W) : grows present w w.
Proof. unfold grows. auto. Qed.

Lemma grows_trans (w1 w2 w3 : W) :
  grows present w1 w2 -> grows present w2 w3 -> grows present w1 w3.
Proof. unfold grows. auto. Qed.

Lemma wins_mono (p : prog (option bool)) (w w' : W) :
  grows present w w' -> wins h present p w -> wins h present p w'.
Proof.
  revert w w'. induction p as [v|e|o k IH|R c k IH]; intros w w' G; simpl.
  - intros [-> H]. split; [reflexivity|]. now apply G.
  - easy.
  - apply IH, G.
  - intros H w'' G'. apply H. now apply grows_trans with w'.
Qed.

Variable dataset_ref : string.
Hypothesis service : dataset_namespace h dataset_ref present.

Lemma call_grows {R : Type} (c : call R) (w : W) : grows present w (h R c w).2.
Proof. intros H. now apply (proj1 service). Qed.

Lemma step_grows (p : prog (option bool)) (w : W) :
  grows present w (step h p w).2.
Proof. destruct p; simpl; try apply grows_refl. apply call_grows. Qed.

Lemma wins_step (p : prog (option bool)) (w : W) :
  wins h present p w -> wins h present (step h p w).1 (step h p w).2.
Proof.
  destruct p as [v|e|o k|R c k]; simpl; try easy.
  intros H. apply H, grows_refl.
Qed.

Lemma wins_interleave (schedule : list bool) (p1 p2 : prog (option bool)) (w : W) :
  wins h present p1 w -> wins h present p2 w ->
  let s := interleave h schedule p1 p2 w in
  wins h present s.1.1 s.2 /\ wins h present s.1.2 s.2.
Proof.
  revert p1 p2 w. induction schedule as [|b schedule IH]; intros p1 p2 w H1 H2; simpl.
  - auto.
  - destruct b.
    + apply IH; [now apply wins_step|].
      apply wins_mono with w; [apply step_grows | assumption].
    + apply IH; [|now apply wins_step].
      apply wins_mono with w; [apply step_grows | assumption].
Qed.

Lemma wins_run (p : prog (option bool)) (w : W) :
  wins h present p w ->
  outcome_of (run h p w) = Returned (Some true)
  /\ present (world_of (run h p w)) = true
  /\ grows present w (world_of (run h p w)).
Proof.
  revert w. induction p as [v|e|o k IH|R c k IH]; intros w; simpl.
  - intros [-> H]. auto using grows_refl.
  - easy.
  - apply IH.
  - intros H. destruct (IH _ _ (H w (grows_refl w))) as (O & D & G).
    repeat split; try assumption.
    apply grows_trans with (h R c w).2; [apply call_grows | assumption].
Qed.

(** However the namespace grows meanwhile, a provisioner ends with
    [True]. *)
Lemma create_dataset_wins (project_id dataset_id : string) (w : W) :
  dataset_ref = dataset_reference project_id dataset_id ->
  wins h present (create_dataset_if_not_exists project_id dataset_id) w.
Proof.
  intros E. destruct service as (_ & Hget & Hmiss & Hdup & Hnew).
  unfold create_dataset_if_not_exists. rewrite <- E. simpl.
  intros w1 _. destruct (present w1) eqn:D1.
  { rewrite (Hget _ D1). simpl. split; [reflexivity|]. now apply call_grows. }
  rewrite (Hmiss _ D1). simpl.
  intros w2 _. destruct (present w2) eqn:D2.
  { rewrite (Hdup _ D2). simpl. split; [reflexivity|]. now apply call_grows. }
  destruct (Hnew _ D2) as [E2 P2]. rewrite E2. simpl.
  intros w3 G3. specialize (G3 P2).
  rewrite (Hget _ G3). simpl. split; [reflexivity|]. now apply call_grows.
Qed.

End Provisioning.

(** The reference services keep an atomic dataset namespace. *)
Lemma serve_namespace (dataset_ref : string) :
  dataset_namespace Cloud.serve dataset_ref
    (fun w => bool_decide (dataset_ref ∈ Cloud.datasets w)).
Proof.
  split; [|split; [|split; [|split]]].
  - intros R c w H. apply bool_decide_eq_true in H. apply bool_decide_eq_true.
    destruct c; simpl; try assumption.
    + destruct (Cloud.blobs w !! _); assumption.
    + destruct (bool_decide _); assumption.
    + destruct (bool_decide _); simpl; [assumption|]. apply elem_of_union. now right.
    + destruct (Cloud.tables w !! _); assumption.
    + destruct (Cloud.blobs w !! _); assumption.
  - intros w H. simpl. now rewrite H.
  - intros w H. simpl. now rewrite H.
  - intros w H. simpl. now rewrite H.
  - intros w H. simpl. rewrite H. simpl. split; [reflexivity|].
    apply bool_decide_eq_true, elem_of_union. left. now apply elem_of_singleton.
Qed.




(** ** The entry point *)

Ltac calm_event := split; [reflexivity | discriminate].

Section Stages.

Variable Ans : answers.

Lemma detected_log_calm (names : list string) :
  guarantees Ans calm (fun o => o = Returned tt) (detected_log names).
Proof.
  induction names as [|n names IH]; simpl; [reflexivity|].
  split; [calm_event | exact IH].
Qed.

(** Schema extraction makes no job and never raises. *)
Lemma process_csv_schema_calm (bucket_name file_name : string) (sample_size : nat) :
  guarantees Ans calm returns (process_csv_schema bucket_name file_name sample_size).
Proof.
  unfold process_csv_schema.
  apply guarantees_catch with (Q1 := fun _ => True).
  - apply guarantees_bind with (Q1 := fun _ => True); [| |easy].
    { apply guarantees_perform; [calm_event | easy]. }
    intros content _.
    apply guarantees_bind with (Q1 := fun _ => True); [| |easy].
    { apply guarantees_perform; [calm_event | easy]. }
    intros [|raw_header reader'] _; simpl; [exact Logic.I|].
    destruct (sample sample_size reader') as [|r0 rows]; simpl; [exact Logic.I|].
    apply guarantees_bind with (Q1 := fun o => o = Returned tt);
      [apply detected_log_calm | easy | discriminate].
  - intros a _. now exists a.
  - intros e _. simpl. split; [calm_event | now eexists].
Qed.

Lemma verify_dataset_loop_calm (dataset_ref : string) (max_attempts : nat) (delay : Z)
    (todo attempt : nat) :
  guarantees Ans calm (fun _ => True)
    (verify_dataset_loop dataset_ref max_attempts delay todo attempt).
Proof.
  revert attempt. induction todo as [|todo IH]; intros attempt; simpl; [exact Logic.I|].
  split; [calm_event|]. intros [[]|e] _; simpl.
  - split; [calm_event | exact Logic.I].
  - destruct e; simpl; try exact Logic.I.
    destruct (Z.of_nat attempt <? Z.of_nat max_attempts - 1); simpl.
    + split; [calm_event|]. split; [calm_event|]. apply IH.
    + split; [calm_event | exact Logic.I].
Qed.

(** Provisioning makes no job, and raises only what looking the dataset
    up raises other than [NotFound]. *)
Lemma create_dataset_calm (project_id dataset_id : string) :
  guarantees Ans calm
    (fun o => (forall R c r, Ans R c r -> healthy R c r) -> returns o)
    (create_dataset_if_not_exists project_id dataset_id).
Proof.
  unfold create_dataset_if_not_exists, catch_not_found.
  apply guarantees_catch
    with (Q1 := fun o => forall e, o = Raised e ->
                 (forall R c r, Ans R c r -> healthy R c r) -> e = NotFound).
  - apply guarantees_bind
      with (Q1 := fun o => forall e, o = Raised e ->
                   (forall R c r, Ans R c r -> healthy R c r) -> e = NotFound).
    + apply guarantees_perform; [calm_event|].
      intros r Hr e -> Hh. destruct (Hh _ _ _ Hr) as [H|H]; congruence.
    + intros [] _. simpl. split; [calm_event | discriminate].
    + intros e H e0 [= <-]. exact (H e eq_refl).
  - intros a _ _. now exists a.
  - intros e He. destruct e;
      try (simpl; intros Hh; specialize (He _ eq_refl Hh); discriminate).
    split; [calm_event|]. fold (@guarantees (option bool)).
    apply guarantees_catch with (Q1 := fun _ => True).
    + apply guarantees_bind with (Q1 := fun _ => True); [| |easy].
      { apply guarantees_perform; [calm_event | easy]. }
      intros [] _. split; [calm_event|].
      exact (verify_dataset_loop_calm (dataset_reference project_id dataset_id) 5 30 5 0).
    + intros a _ _. now exists a.
    + intros e _. destruct e; simpl; (split; [calm_event | intros _; now eexists]).
Qed.

End Stages.

Section CreateMode.

Variable Ans : answers.
Variables proj d t f : string.
Variable event : trigger.

Let table_ref : string := table_reference proj d t.
Let Healthy : Prop := forall R c r, Ans R c r -> healthy R c r.

Hypothesis Hexists : forall R c r, Ans R c r -> destination_exists proj table_ref R c r.
Hypothesis Hparse : parse_filename (name event) = Returned (d, t, "create", f).

Lemma create_mode_conflict_found :
  guarantees Ans calm (fun o => o = Returned true)
    (create_mode_conflict "create" table_ref).
Proof.
  unfold create_mode_conflict, catch_not_found. simpl.
  split; [calm_event|]. intros r Hr.
  destruct (Hexists _ _ _ Hr eq_refl) as [tbl ->]. simpl.
  split; [calm_event | reflexivity].
Qed.

Lemma gcs_to_bq_body_conflict :
  guarantees Ans calm (fun o => Healthy -> o = Returned tt) (gcs_to_bq_body event).
Proof.
  unfold gcs_to_bq_body. rewrite Hparse. simpl lift.
  apply guarantees_bind with (Q1 := fun o => o = Returned (d, t, "create", f));
    [reflexivity | | discriminate].
  intros ? [= ->].
  apply guarantees_bind with (Q1 := fun o => o = Returned tt);
    [simpl; split; [calm_event | reflexivity] | | discriminate].
  intros _ _.
  apply guarantees_bind
    with (Q1 := fun o => (forall p, o = Returned p -> p = proj) /\ (Healthy -> returns o)).
  { apply guarantees_perform; [calm_event|]. intros r Hr. split.
    - exact (Hexists _ _ _ Hr).
    - intros Hh. exact (Hh _ _ _ Hr). }
  2:{ intros e [_ H] Hh. destruct (H Hh) as [? [=]]. }
  intros project_id [Hp _]. rewrite (Hp _ eq_refl). clear project_id Hp.
  apply guarantees_bind with (Q1 := fun o => Healthy -> returns o).
  { apply guarantees_perform; [calm_event|]. intros r Hr Hh. exact (Hh _ _ _ Hr). }
  2:{ intros e H Hh. destruct (H Hh) as [? [=]]. }
  intros _ _.
  apply guarantees_bind with (Q1 := fun o => o = Returned tt);
    [simpl; split; [calm_event | reflexivity] | | discriminate].
  intros _ _.
  apply guarantees_bind with (Q1 := returns);
    [apply process_csv_schema_calm | | intros e [? [=]]].
  intros extracted _.
  assert (Abort : guarantees Ans calm (fun o => Healthy -> o = Returned tt)
                    (emit (Log ERROR "Failed to process schema - aborting")
                     ≫= fun _ => Ret ())).
  { simpl. split; [calm_event | reflexivity]. }
  destruct extracted as [[[clean_fields sch] type_report]|]; [|exact Abort].
  destruct clean_fields as [|c0 clean_fields]; [exact Abort|].
  apply guarantees_bind with (Q1 := fun o => Healthy -> returns o);
    [apply create_dataset_calm | | intros e H Hh; destruct (H Hh) as [? [=]]].
  intros provisioned _.
  destruct (truthy provisioned); simpl negb; cbv iota; [|simpl; reflexivity].
  apply guarantees_bind with (Q1 := fun o => o = Returned true);
    [apply create_mode_conflict_found | | discriminate].
  intros ? [= ->]. simpl. reflexivity.
Qed.

(** In create mode, with the destination in place: no job is made, and
    when the services are healthy the invocation returns without passing
    through its [except] clause. *)
Lemma gcs_to_bq_conflict :
  guarantees Ans (fun ev => quiet ev /\ (Healthy -> ev <> failure_log))
    (fun o => Healthy -> o = Returned tt) (gcs_to_bq event).
Proof.
  unfold gcs_to_bq.
  apply guarantees_bind with (Q1 := fun o => o = Returned tt);
    [simpl; split; [split; [reflexivity | discriminate] | reflexivity] | | discriminate].
  intros _ _.
  destruct (negb (Str.ends_with ".csv" (name event))).
  { simpl. split; [split; [reflexivity | discriminate] | reflexivity]. }
  apply guarantees_finally; [|simpl; split; [split; [reflexivity | discriminate] | reflexivity]].
  apply guarantees_catch with (Q1 := fun o => Healthy -> o = Returned tt).
  - apply guarantees_weaken with (P := calm) (Q := fun o => Healthy -> o = Returned tt);
      [intros ev [H1 H2]; auto | auto | apply gcs_to_bq_body_conflict].
  - auto.
  - intros e He. simpl. split.
    + split; [reflexivity|]. intros Hh. specialize (He Hh). discriminate.
    + exact He.
Qed.

End CreateMode.

Lemma respects_weaken {W : Type} (I : W -> Prop) (h : handler W) (Ans : answers)
    (P P' : event -> Prop) :
  (forall ev, P' ev -> P ev) -> respects I h Ans P -> respects I h Ans P'.
Proof. intros HP Hh R c w Hw Hc. apply Hh; auto. Qed.

Lemma respects_both {W : Type} (I : W -> Prop) (h : handler W) (A1 A2 : answers)
    (P : event -> Prop) :
  respects I h A1 P -> respects I h A2 P -> respects I h (both A1 A2) P.
Proof.
  intros H1 H2 R c w Hw Hc. destruct (H1 R c w Hw Hc), (H2 R c w Hw Hc).
  repeat split; assumption.
Qed.

Lemma quiet_not_load (ev : event) : quiet ev -> is_load_submission ev = false.
Proof.
  destruct ev as [o|R c]; [reflexivity|].
  unfold quiet. destruct c; simpl; intros; congruence.
Qed.

(** C4.  In create mode, when the destination table is there, the
    invocation makes no load job (and no other job), so whatever part of
    the world only jobs can change is as before; and when the clients
    can be built and the dataset lookup works, the invocation returns
    normally, without passing through its error handler. *)
Theorem create_mode_never_overwrites {W : Type} (h : handler W) (I : W -> Prop)
    (event : trigger) (proj d t f : string) (w : W) :
  let table_ref := table_reference proj d t in
  let r := run h (gcs_to_bq event) w in
  parse_filename (name event) = Returned (d, t, "create", f) ->
  respects I h (destination_exists proj table_ref) quiet ->
  I w ->
  Forall quiet (trace_of r)
  /\ Forall (fun ev => is_load_submission ev = false) (trace_of r)
  /\ (forall (X : Type) (content : W -> X),
        (forall R (c : call R) w', I w' -> mutating c = false ->
                                   content (h R c w').2 = content w') ->
        content (world_of r) = content w)
  /\ (respects I h healthy quiet ->
      outcome_of r = Returned tt /\ Forall (fun ev => ev <> failure_log) (trace_of r)).
Proof.
  intros table_ref r Hparse Hh Hw.
  assert (G : guarantees (destination_exists proj table_ref) quiet (fun _ => True)
                (gcs_to_bq event)).
  { eapply guarantees_weaken;
      [| | apply (gcs_to_bq_conflict (destination_exists proj table_ref) proj d t f event)];
      [intros ev [H _]; exact H | easy | auto | exact Hparse]. }
  destruct (guarantees_run I h _ _ _ _ w Hh Hw G) as (T & _ & _).
  split; [exact T|]. split.
  { eapply Forall_impl; [exact T | exact quiet_not_load]. }
  split.
  { intros X content Hc.
    apply (guarantees_frame I h _ _ _ content _ w Hh Hw G).
    intros R c w' Hw' Hq. now apply Hc. }
  intros Hhealthy.
  pose (Ans := both (destination_exists proj table_ref) healthy).
  assert (Healthy : forall R c x, Ans R c x -> healthy R c x) by (intros R c x [_ H]; exact H).
  pose proof (gcs_to_bq_conflict Ans proj d t f event
                (fun R c x H => proj1 H) Hparse) as G'.
  assert (Hh' : respects I h Ans
                  (fun ev => quiet ev /\ ((forall R c r, Ans R c r -> healthy R c r)
                                          -> ev <> failure_log))).
  { apply respects_weaken with (P := quiet); [intros ev [H _]; exact H|].
    now apply respects_both. }
  destruct (guarantees_run I h _ _ _ _ w Hh' Hw G') as (T' & O' & _).
  split; [exact (O' Healthy)|].
  eapply Forall_impl; [exact T'|]. intros ev [_ H]. exact (H Healthy).
Qed.

Lemma create_mode_never_overwrites_witness :
  let r := run Cloud.serve (gcs_to_bq create_event) loaded_world in
  outcome_of r = Returned tt
  /\ Cloud.tables (world_of r) = Cloud.tables loaded_world
  /\ Forall (fun ev => is_load_submission ev = false) (trace_of r).
Proof.
  pose (I := fun w : Cloud.state =>
               Cloud.project w = "proj"
               /\ Cloud.tables w !! "proj.sales.orders"
                  = Some (Cloud.StoredTable ["name"; "age"] [["ann"; "3"]; ["bob"; "4"]])).
  assert (Hkeep : forall R (c : call R) w, I w -> quiet (EvCall c) -> I (Cloud.serve R c w).2).
  { intros R c w [Hp Ht] Hq. split.
    - now rewrite serve_project.
    - rewrite serve_quiet_tables; [assumption | exact Hq]. }
  destruct (create_mode_never_overwrites Cloud.serve I create_event
              "proj" "sales" "orders" "data.csv" loaded_world) as (_ & L & F & O).
  - reflexivity.
  - intros R c w Hw Hq. split; [|now apply Hkeep].
    destruct Hw as [Hp Ht]. destruct c; simpl; try exact Logic.I.
    + intros p [= <-]. exact Hp.
    + intros ->. unfold table_reference. simpl. rewrite Ht. now eexists.
  - split; reflexivity.
  - intros r. split; [|split].
    + apply O. intros R c w Hw Hq. split; [|now apply Hkeep].
      destruct c; simpl; try exact Logic.I; try (now eexists).
      destruct (bool_decide _); auto.
    + apply (F _ Cloud.tables). intros R c w' _ Hq. now apply serve_quiet_tables.
    + exact L.
Defined.

(** ** Modes other than create *)

Section AppendPath.

Variable Ans : answers.

Lemma calm_appends (ev : event) : calm ev -> appends ev.
Proof.
  intros [Hq _]. destruct ev as [o|R c]; [exact Logic.I|].
  destruct c; try exact Logic.I. discriminate Hq.
Qed.

Lemma schema_log_appends (sch : list SchemaField) :
  guarantees Ans appends (fun o => o = Returned tt) (schema_log sch).
Proof.
  induction sch as [|s sch IH]; simpl; [reflexivity|]. split; [exact Logic.I | exact IH].
Qed.

Lemma verify_table_loop_appends (table_ref : string) (max_attempts : nat) (delay : Z)
    (todo attempt : nat) :
  guarantees Ans appends (fun _ => True)
    (verify_table_loop table_ref max_attempts delay todo attempt).
Proof.
  revert attempt. induction todo as [|todo IH]; intros attempt; simpl; [exact Logic.I|].
  split; [exact Logic.I|]. intros [tbl|e] _; simpl.
  - destruct (0 <? num_rows tbl); simpl; [easy|].
    destruct (Z.of_nat attempt <? Z.of_nat max_attempts - 1); simpl; [|easy].
    split; [exact Logic.I|]. split; [exact Logic.I|]. apply IH.
  - destruct e; simpl; easy.
Qed.

(** The one load job of the load path appends unless the mode is
    [create]. *)
Lemma load_csv_to_bigquery_appends (uri table_ref : string) (sch : list SchemaField)
    (mode : string) :
  mode <> "create" ->
  guarantees Ans appends returns (load_csv_to_bigquery uri table_ref sch mode).
Proof.
  intros Hmode. unfold load_csv_to_bigquery.
  apply guarantees_bind with (Q1 := fun o => o = Returned tt);
    [simpl; easy | | discriminate].
  intros _ _.
  apply guarantees_bind with (Q1 := fun o => o = Returned tt);
    [simpl; easy | | discriminate].
  intros _ _.
  apply guarantees_bind with (Q1 := fun o => o = Returned tt);
    [apply schema_log_appends | | discriminate].
  intros _ _.
  apply guarantees_catch with (Q1 := fun _ => True).
  - apply guarantees_bind with (Q1 := fun _ => True); [| |easy].
    { apply guarantees_perform; [|easy]. simpl.
      destruct (String.eqb_spec mode "create"); [contradiction | reflexivity]. }
    intros load_job _.
    apply guarantees_bind with (Q1 := fun _ => True); [| |easy].
    { apply guarantees_perform; easy. }
    intros errors _.
    apply guarantees_bind with (Q1 := fun _ => True); [| |easy].
    { simpl. easy. }
    intros _ _. exact (verify_table_loop_appends table_ref 5 30 5 0).
  - intros a _. now exists a.
  - intros e _. simpl. split; [exact Logic.I | now eexists].
Qed.

Lemma get_row_count_appends (table_ref : string) :
  guarantees Ans appends (fun _ => True) (DataValidator.get_row_count table_ref).
Proof.
  unfold DataValidator.get_row_count. simpl. split; [exact Logic.I|].
  intros [[|r rows]|e] _; simpl; try easy.
  unfold DataValidator.attribute. destruct (r !! "row_count"); simpl; easy.
Qed.

Lemma column_names_appends (rows : list row) :
  guarantees Ans appends (fun _ => True) (DataValidator.column_names rows).
Proof.
  induction rows as [|r rows IH]; simpl; [exact Logic.I|].
  unfold DataValidator.attribute. destruct (r !! "column_name"); simpl; [|exact Logic.I].
  apply guarantees_bind with (Q1 := fun _ => True); [exact IH | easy | easy].
Qed.

Lemma validate_data_integrity_appends (table_ref : string) (fields : list string) :
  guarantees Ans appends (fun _ => True)
    (DataValidator.validate_data_integrity table_ref fields).
Proof.
  unfold DataValidator.validate_data_integrity.
  apply guarantees_catch with (Q1 := fun _ => True); [|easy|intros e _; simpl; easy].
  unfold DataValidator.component.
  destruct (Str.split "." table_ref !! 0%nat); simpl; [|exact Logic.I].
  destruct (Str.split "." table_ref !! 1%nat); simpl; [|exact Logic.I].
  destruct (Str.split "." table_ref !! 2%nat); simpl; [|exact Logic.I].
  split; [exact Logic.I|]. intros [rows|e] _; simpl; [|exact Logic.I].
  apply guarantees_bind with (Q1 := fun _ => True);
    [apply column_names_appends | | easy].
  intros cols _. destruct (DataValidator.missing_columns fields cols); simpl; easy.
Qed.

Lemma run_data_quality_checks_appends (table_ref : string) (clean_fields : list string) :
  guarantees Ans appends (fun _ => True) (run_data_quality_checks table_ref clean_fields).
Proof.
  unfold run_data_quality_checks.
  apply guarantees_bind with (Q1 := fun _ => True);
    [apply get_row_count_appends | | easy].
  intros row_count _. destruct (bool_decide (row_count = CInt 0)); [simpl; easy|].
  apply guarantees_bind with (Q1 := fun _ => True);
    [apply validate_data_integrity_appends | | easy].
  intros ok _. destruct ok; simpl; [|easy].
  destruct (length clean_fields <? 2)%nat; simpl; easy.
Qed.

Variable event : trigger.
Variables d t m f : string.
Hypothesis Hparse : parse_filename (name event) = Returned (d, t, m, f).
Hypothesis Hmode : m <> "create".

Lemma gcs_to_bq_body_appends :
  guarantees Ans appends (fun _ => True) (gcs_to_bq_body event).
Proof.
  unfold gcs_to_bq_body. rewrite Hparse. simpl lift.
  apply guarantees_bind with (Q1 := fun o => o = Returned (d, t, m, f));
    [reflexivity | | easy].
  intros ? [= ->].
  apply guarantees_bind with (Q1 := fun _ => True); [simpl; easy | | easy].
  intros _ _.
  apply guarantees_bind with (Q1 := fun _ => True);
    [apply guarantees_perform; easy | | easy].
  intros project_id _.
  apply guarantees_bind with (Q1 := fun _ => True);
    [apply guarantees_perform; easy | | easy].
  intros _ _.
  apply guarantees_bind with (Q1 := fun _ => True); [simpl; easy | | easy].
  intros _ _.
  apply guarantees_bind with (Q1 := fun _ => True); [| | easy].
  { eapply guarantees_weaken; [exact calm_appends | | apply process_csv_schema_calm]. easy. }
  intros extracted _.
  destruct extracted as [[[clean_fields sch] type_report]|]; [|simpl; easy].
  destruct clean_fields as [|c0 clean_fields]; [simpl; easy|].
  apply guarantees_bind with (Q1 := fun _ => True); [| | easy].
  { eapply guarantees_weaken; [exact calm_appends | | apply create_dataset_calm]. easy. }
  intros provisioned _.
  destruct (truthy provisioned); simpl negb; cbv iota; [|simpl; easy].
  unfold create_mode_conflict.
  destruct (String.eqb_spec m "create") as [E|_]; [contradiction|].
  apply guarantees_bind with (Q1 := fun o => o = Returned false);
    [reflexivity | | discriminate].
  intros ? [= ->]. cbv iota.
  apply guarantees_bind with (Q1 := fun _ => True);
    [eapply guarantees_weaken; [| | now apply load_csv_to_bigquery_appends]; easy | | easy].
  intros loaded _.
  destruct (truthy loaded); simpl negb; cbv iota; [|simpl; easy].
  apply guarantees_bind with (Q1 := fun _ => True);
    [apply run_data_quality_checks_appends | | easy].
  intros checked _. destruct checked; simpl; easy.
Qed.

Lemma gcs_to_bq_appends :
  guarantees Ans appends (fun _ => True) (gcs_to_bq event).
Proof.
  unfold gcs_to_bq.
  apply guarantees_bind with (Q1 := fun _ => True); [simpl; easy | | easy].
  intros _ _. destruct (negb (Str.ends_with ".csv" (name event))); [simpl; easy|].
  apply guarantees_finally; [|simpl; easy].
  apply guarantees_catch with (Q1 := fun _ => True);
    [apply gcs_to_bq_body_appends | easy | intros e _; simpl; easy].
Qed.

End AppendPath.

(** C10.  A name with three metadata tokens is accepted whatever its
    mode token is, only put in lower case; the load path selects the
    append disposition for every mode other than [create], so every load
    job of an invocation whose mode is not [create] appends; with the
    mode [replace] the invocation runs to its normal end and the rows of
    the file are appended to the table. *)
Theorem unrecognised_mode_appends :
  (forall s d t m f, decomposes s d t m f ->
     parse_filename s = Returned (d, t, Str.lower m, f))
  /\ (forall sch mode, mode <> "create" ->
        write_disposition (load_job_config sch mode) = WRITE_APPEND)
  /\ (forall (W : Type) (h : handler W) (w : W) event d t m f,
        parse_filename (name event) = Returned (d, t, m, f) -> m <> "create" ->
        Forall appends (trace_of (run h (gcs_to_bq event) w)))
  /\ (let r := run Cloud.serve (gcs_to_bq replace_event) replace_world in
      parse_filename (name replace_event)
      = Returned ("sales", "orders", "replace", "data.csv")
      /\ outcome_of r = Returned tt
      /\ existsb is_load_submission (trace_of r) = true
      /\ Cloud.rows <$> (Cloud.tables (world_of r) !! "proj.sales.orders")
         = Some [["ann"; "3"]; ["bob"; "4"]; ["ann"; "3"]; ["bob"; "4"]]).
Proof.
  split; [|split; [|split]].
  - exact parse_filename_accepts.
  - intros sch mode Hmode. simpl.
    destruct (String.eqb_spec mode "create"); [contradiction | reflexivity].
  - intros W h w event d t m f Hparse Hmode.
    apply (guarantees_run (fun _ => True) h any_answer appends (fun _ => True)
             (gcs_to_bq event) w).
    + intros R c w' _ _. split; exact Logic.I.
    + exact Logic.I.
    + now apply gcs_to_bq_appends with d t m f.
  - repeat split; vm_compute; reflexivity.
Qed.

Lemma unrecognised_mode_appends_witness :
  Forall appends (trace_of (run Cloud.serve (gcs_to_bq replace_event) replace_world)).
Proof.
  apply (proj1 (proj2 (proj2 unrecognised_mode_appends)) _ Cloud.serve replace_world
           replace_event "sales" "orders" "replace" "data.csv").
  - reflexivity.
  - discriminate.
Defined.

(** ** Result validator *)

Section Validator.

Import DataValidator.

Context {W : Type} (h : handler W) (w : W).

Lemma column_names_eq (rows : list row) :
  column_names rows =
  match row_columns rows with
  | Some cs => Ret cs
  | None => Raise (OtherError "AttributeError")
  end.
Proof.
  induction rows as [|r rows IH]; [reflexivity|]. simpl.
  unfold attribute. destruct (r !! "column_name") as [c|]; [|reflexivity].
  simpl. rewrite IH. destruct (row_columns rows); reflexivity.
Qed.

Lemma missing_columns_nil (fields : list string) (cols : list cell) :
  missing_columns fields cols = [] <-> forall f, f ∈ fields -> CStr f ∈ cols.
Proof.
  unfold missing_columns. split.
  - intros E f Hf. destruct (decide (CStr f ∈ cols)) as [|N]; [assumption|].
    now destruct (filter_nil_not_elem_of _ _ f E N).
  - intros H. apply elem_of_nil_inv. intros f Hf.
    apply list_elem_of_filter in Hf as [N Hf]. now apply N, H.
Qed.

(** The run of [validate_data_integrity] on a reference of three
    components, by the answer of the schema query. *)
Lemma validate_data_integrity_run (table_ref : string) (fields : list string)
    (p d t : string) (rest : list string) :
  Str.split "." table_ref = p :: d :: t :: rest ->
  outcome_of (run h (validate_data_integrity table_ref fields) w) =
  match (h _ (Query (SqlSchemaColumns p d t) None) w).1 with
  | Returned rows =>
      match row_columns rows with
      | Some cols => Returned (bool_decide (missing_columns fields cols = []))
      | None => Returned true
      end
  | Raised _ => Returned true
  end.
Proof.
  intros E. unfold validate_data_integrity, component. rewrite E. simpl.
  destruct (h _ (Query (SqlSchemaColumns p d t) None) w).1 as [rows|e]; simpl; [|reflexivity].
  rewrite column_names_eq. destruct (row_columns rows) as [cols|]; simpl; [|reflexivity].
  destruct (missing_columns fields cols); reflexivity.
Qed.

(** The run of [validate_cleaning_results], by the answer of the
    validation query. *)
Lemma validate_cleaning_results_run (table_ref : string) (original : Z) (tol : float) :
  outcome_of (run h (validate_cleaning_results table_ref original tol) w) =
  match (h _ (Query (SqlValidation table_ref original) None) w).1 with
  | Returned (result :: _) =>
      match result !! "row_count_change", result !! "current_row_count" with
      | Some (CInt change), Some _ =>
          Returned (negb (bool_decide (change <> 0)
                          && ((original =? 0) || PrimFloat.ltb tol (change_pct change original))))
      | Some (CInt change), None => Returned false
      | Some _, _ => Returned false
      | None, _ => Returned false
      end
  | Returned [] => Returned false
  | Raised _ => Returned false
  end.
Proof.
  unfold validate_cleaning_results. simpl.
  destruct (h _ (Query (SqlValidation table_ref original) None) w).1 as [[|result rows]|e];
    simpl; try reflexivity.
  unfold attribute.
  destruct (result !! "row_count_change") as [[change| |]|];
    destruct (result !! "current_row_count") as [cur|]; simpl;
    repeat case_bool_decide; simplify_eq; simpl; try reflexivity; try congruence.
  all: unfold true_div, change_pct; destruct (original =? 0); simpl; try reflexivity.
  all: destruct (PrimFloat.ltb tol _); reflexivity.
Qed.

End Validator.




(** C7.  [validate_data_integrity] returns [False] when an expected
    column is not among the columns the schema query lists, and [True]
    when the check itself raises: when the query raises, and when the
    table reference has fewer than three components.  It never raises. *)
Theorem validate_data_integrity_permissive {W : Type} (h : handler W) (w : W)
    (table_ref : string) (fields : list string) :
  let r := run h (DataValidator.validate_data_integrity table_ref fields) w in
  (forall p d t rest rows cols f,
     Str.split "." table_ref = p :: d :: t :: rest ->
     (h _ (Query (SqlSchemaColumns p d t) None) w).1 = Returned rows ->
     row_columns rows = Some cols ->
     f ∈ fields -> CStr f ∉ cols ->
     outcome_of r = Returned false)
  /\ (forall p d t rest e,
        Str.split "." table_ref = p :: d :: t :: rest ->
        (h _ (Query (SqlSchemaColumns p d t) None) w).1 = Raised e ->
        outcome_of r = Returned true)
  /\ ((length (Str.split "." table_ref) < 3)%nat -> outcome_of r = Returned true)
  /\ returns (outcome_of r).
Proof.
  intros r. split; [|split; [|split]].
  - intros p d t rest rows cols f E A C Hf Hc. unfold r.
    rewrite (validate_data_integrity_run h w _ _ _ _ _ _ E), A, C. f_equal.
    apply bool_decide_eq_false. intros N.
    apply (proj1 (missing_columns_nil fields cols)) with (f := f) in N; auto.
  - intros p d t rest e E A. unfold r.
    now rewrite (validate_data_integrity_run h w _ _ _ _ _ _ E), A.
  - unfold r, DataValidator.validate_data_integrity, DataValidator.component.
    destruct (Str.split "." table_ref) as [|a [|b [|c l]]]; simpl; try reflexivity. lia.
  - destruct (Str.split "." table_ref) as [|a [|b [|c l]]] eqn:E;
      try (unfold r, DataValidator.validate_data_integrity, DataValidator.component;
           rewrite E; simpl; now eexists).
    unfold r. rewrite (validate_data_integrity_run h w _ _ _ _ _ _ E).
    destruct (h _ _ w).1 as [rows|e]; [|now eexists].
    destruct (row_columns rows); now eexists.
Qed.

Lemma validate_data_integrity_permissive_witness :
  outcome_of (run Cloud.serve (DataValidator.validate_data_integrity
                                 "proj.sales.orders" ["name"; "email"]) loaded_world)
  = Returned false
  /\ outcome_of (run offline (DataValidator.validate_data_integrity
                                "proj.sales.orders" ["name"; "email"]) tt)
     = Returned true.
Proof.
  split.
  - apply (proj1 (validate_data_integrity_permissive Cloud.serve loaded_world
                    "proj.sales.orders" ["name"; "email"])
             "proj" "sales" "orders" []
             [ {[ "column_name" := CStr "name" ]}; {[ "column_name" := CStr "age" ]} ]
             [CStr "name"; CStr "age"] "email").
    + reflexivity.
    + reflexivity.
    + reflexivity.
    + apply elem_of_cons. right. apply list_elem_of_here.
    + intros H. apply elem_of_cons in H as [H|H]; [discriminate|].
      apply elem_of_cons in H as [H|H]; [discriminate | inversion H].
  - apply (proj1 (proj2 (validate_data_integrity_permissive offline tt
                           "proj.sales.orders" ["name"; "email"]))
             "proj" "sales" "orders" [] (OtherError "service unavailable"));
      reflexivity.
Defined.

(** ** Copy-based remediation *)

Section CopyRemediation.

Import CleanTable.

Lemma select_clause_distinct (dup_count total_rows : Z) :
  select_clause dup_count total_rows = "SELECT DISTINCT *"
  <-> PrimFloat.ltb (fraction dup_count total_rows) tenth = true /\ 0 < dup_count.
Proof.
  unfold select_clause, remove_duplicates.
  destruct (PrimFloat.ltb (fraction dup_count total_rows) tenth);
    destruct (Z.ltb_spec 0 dup_count); simpl; split;
    first [discriminate | intros [? ?]; first [discriminate | lia] | auto].
Qed.

Lemma cleaning_query_distinct (source_table : string) (cols : list string)
    (na_count dup_count total_rows : Z) :
  (exists rest, cleaning_query source_table cols na_count dup_count total_rows
                = "SELECT DISTINCT *" +:+ rest)
  <-> remove_duplicates dup_count total_rows = true.
Proof.
  unfold cleaning_query, select_clause.
  destruct (remove_duplicates dup_count total_rows); split; try discriminate.
  - reflexivity.
  - intros _. eexists. reflexivity.
  - intros [rest E]. simpl in E. discriminate E.
Qed.

Variable source : payload.
Variable tbl : Table.
Variables na dup : Z.

Let source_table : string :=
  table_reference (project_id source) (dataset_id source) (table_id source).
Let Ans : answers := measures source_table tbl na dup.
Let P : event -> Prop := expected_copy source_table tbl na dup.

Lemma scalar_reads (rows : list row) (key : string) :
  guarantees Ans P
    (fun o => forall n, o = Returned n -> read_scalar key (Returned rows) = Some n)
    (scalar rows key).
Proof.
  unfold scalar, read_scalar. destruct rows as [|x rows]; simpl; [discriminate|].
  destruct (x !! key) as [[n| |]|]; simpl; try discriminate. now intros ? [= ->].
Qed.

(** Every cleaning query [clean_bq_table] submits is the one built from
    the counts it measured. *)
Lemma clean_bq_table_copy :
  guarantees Ans P (fun _ => True) (clean_bq_table source).
Proof.
  unfold clean_bq_table. fold source_table.
  apply guarantees_bind with (Q1 := fun _ => True);
    [apply guarantees_perform; easy | | easy].
  intros _ _.
  apply guarantees_bind with (Q1 := fun _ => True); [simpl; easy | | easy].
  intros _ _.
  apply guarantees_catch with (Q1 := fun _ => True); [|easy|intros e _; simpl; easy].
  apply guarantees_bind with (Q1 := fun o => forall t, o = Returned t -> t = tbl);
    [apply guarantees_perform; [easy | intros r Hr; exact (Hr eq_refl)] | | easy].
  intros t Ht. rewrite (Ht _ eq_refl). clear t Ht.
  apply guarantees_bind with (Q1 := fun _ => True); [simpl; easy | | easy].
  intros _ _.
  destruct (num_rows tbl =? 0); [simpl; easy|].
  apply guarantees_bind
    with (Q1 := fun o => forall n, read_scalar "na_count" o = Some n -> n = na);
    [apply guarantees_perform; [easy | intros r Hr; exact Hr] | | easy].
  intros na_rows Hna.
  apply guarantees_bind with (Q1 := fun o => forall n, o = Returned n -> n = na); [| |easy].
  { eapply guarantees_weaken; [| |apply scalar_reads]; [auto|].
    intros o H n E. apply Hna, H, E. }
  intros n Hn. rewrite (Hn _ eq_refl). clear n Hn na_rows Hna.
  apply guarantees_bind with (Q1 := fun _ => True); [simpl; easy | | easy].
  intros _ _.
  apply guarantees_bind
    with (Q1 := fun o => forall n, read_scalar "dup_count" o = Some n -> n = dup);
    [apply guarantees_perform; [easy | intros r Hr; exact Hr] | | easy].
  intros dup_rows Hdup.
  apply guarantees_bind with (Q1 := fun o => forall n, o = Returned n -> n = dup); [| |easy].
  { eapply guarantees_weaken; [| |apply scalar_reads]; [auto|].
    intros o H n E. apply Hdup, H, E. }
  intros n Hn. rewrite (Hn _ eq_refl). clear n Hn dup_rows Hdup.
  apply guarantees_bind with (Q1 := fun _ => True); [simpl; easy | | easy].
  intros _ _.
  apply guarantees_bind with (Q1 := fun _ => True);
    [apply guarantees_perform; easy | | easy].
  intros timestamp _.
  do 4 (apply guarantees_bind with (Q1 := fun _ => True); [simpl; easy | | easy];
        intros _ _).
  apply guarantees_bind with (Q1 := fun _ => True);
    [apply guarantees_perform; [reflexivity | easy] | | easy].
  intros _ _.
  apply guarantees_bind with (Q1 := fun _ => True);
    [apply guarantees_perform; easy | | easy].
  intros final_table _. simpl. easy.
Qed.

End CopyRemediation.

Section CopyMade.

Import CleanTable.

Lemma cleaning_query_text (source_table : string) (cols : list string)
    (na dup total : Z) :
  cleaning_query source_table cols na dup total
  = Warehouse.copy_query_text (remove_duplicates dup total) (remove_na_rows na total)
      source_table cols.
Proof. reflexivity. Qed.

Lemma scalar_read (rows : list row) (key : string) (n : Z) :
  read_scalar key (Returned rows) = Some n -> scalar rows key = Ret n.
Proof.
  destruct rows as [|r rest]; simpl; [discriminate|].
  destruct (r !! key) as [[]|]; try discriminate. now intros [= ->].
Qed.

Lemma read_scalar_returned (key : string) (r : outcome (list row)) (n : Z) :
  read_scalar key r = Some n -> exists rows, r = Returned rows.
Proof. destruct r; [eauto | discriminate]. Qed.

Context {W : Type} (h : handler W) (content : W -> gmap string (list Warehouse.cells)).
Variable source : payload.
Variable cols : list string.

Let source_table : string :=
  table_reference (project_id source) (dataset_id source) (table_id source).

Hypothesis service : Warehouse.faithful h content source_table cols.

(** Against a faithful warehouse the remediation returns, submits the
    one copy built from the counts of the table, and leaves in the
    destination what that copy selects. *)
Lemma clean_bq_table_copies (rows : list Warehouse.cells) (w : W) :
  content w !! source_table = Some rows -> rows <> [] ->
  let total := Z.of_nat (length rows) in
  let na := Warehouse.na_count rows in
  let dup := Warehouse.dup_count rows in
  let r := run h (clean_bq_table source) w in
  outcome_of r = Returned tt
  /\ submitted_queries (trace_of r) = [cleaning_query source_table cols na dup total]
  /\ exists timestamp,
       content (world_of r)
       = <[table_reference (project_id source) (dataset_id source)
             (table_id source +:+ "_cleaned_" +:+ timestamp)
           := Warehouse.copy_result (remove_duplicates dup total)
                (remove_na_rows na total) rows]> (content w).
Proof.
  intros Hsrc Hrows total na dup.
  destruct service as (Hread & Hclient & Hclock & Htable & Hany & Hna & Hdup & Hcopy).
  assert (Htotal : (total =? 0) = false).
  { apply Z.eqb_neq. unfold total. destruct rows; [easy | simpl; lia]. }
  unfold clean_bq_table. fold source_table.
  cbn [run bind catch perform emit mbind prog_bind after outcome_of world_of trace_of].
  destruct (Hclient w) as [project E0]. rewrite E0.
  cbn [run bind catch perform emit mbind prog_bind after outcome_of world_of trace_of].
  set (w1 := (h _ BigQueryClient w).2).
  assert (C1 : content w1 = content w) by (apply Hread; reflexivity).
  assert (S1 : content w1 !! source_table = Some rows) by now rewrite C1.
  rewrite (Htable _ _ S1).
  cbn [run bind catch perform emit mbind prog_bind after outcome_of world_of trace_of
       num_rows schema].
  fold total. rewrite Htotal.
  cbn [run bind catch perform emit mbind prog_bind after outcome_of world_of trace_of].
  set (w2 := (h _ (GetTable source_table) w1).2).
  assert (C2 : content w2 = content w) by (unfold w2; rewrite Hread; [exact C1 | reflexivity]).
  assert (S2 : content w2 !! source_table = Some rows) by now rewrite C2.
  fold (Warehouse.null_condition cols).
  pose proof (Hna _ _ S2) as N.
  destruct (read_scalar_returned _ _ _ N) as [na_rows EN]. rewrite EN in N |- *.
  cbn [run bind catch perform emit mbind prog_bind after outcome_of world_of trace_of].
  rewrite (scalar_read _ _ _ N).
  cbn [run bind catch perform emit mbind prog_bind after outcome_of world_of trace_of].
  set (w3 := (h _ (Query (SqlNaCount source_table (Warehouse.null_condition cols)) None) w2).2).
  assert (C3 : content w3 = content w) by (unfold w3; rewrite Hread; [exact C2 | reflexivity]).
  assert (S3 : content w3 !! source_table = Some rows) by now rewrite C3.
  pose proof (Hdup _ _ S3) as D.
  destruct (read_scalar_returned _ _ _ D) as [dup_rows ED]. rewrite ED in D |- *.
  cbn [run bind catch perform emit mbind prog_bind after outcome_of world_of trace_of].
  rewrite (scalar_read _ _ _ D).
  cbn [run bind catch perform emit mbind prog_bind after outcome_of world_of trace_of].
  set (w4 := (h _ (Query (SqlDupCount source_table) None) w3).2).
  assert (C4 : content w4 = content w) by (unfold w4; rewrite Hread; [exact C3 | reflexivity]).
  destruct (Hclock w4) as [timestamp ET]. rewrite ET.
  cbn [run bind catch perform emit mbind prog_bind after outcome_of world_of trace_of].
  set (w5 := (h _ UtcNow w4).2).
  assert (C5 : content w5 = content w) by (unfold w5; rewrite Hread; [exact C4 | reflexivity]).
  assert (S5 : content w5 !! source_table = Some rows) by now rewrite C5.
  fold na dup. rewrite cleaning_query_text.
  set (destination := table_reference (project_id source) (dataset_id source)
                        (table_id source +:+ "_cleaned_" +:+ timestamp)).
  destruct (Hcopy w5 rows (remove_duplicates dup total) (remove_na_rows na total)
              destination S5) as [[answer EC] C6].
  rewrite EC.
  cbn [run bind catch perform emit mbind prog_bind after outcome_of world_of trace_of].
  set (w6 := (h _ (Query (SqlText _) (Some destination)) w5).2) in *.
  destruct (Hany w6 destination) as [t EG].
  { rewrite C6, lookup_insert_eq. eauto. }
  rewrite EG.
  cbn [run bind catch perform emit mbind prog_bind after outcome_of world_of trace_of].
  split; [reflexivity|]. split; [reflexivity|].
  exists timestamp. rewrite Hread by reflexivity. rewrite C6, C5. reflexivity.
Qed.

End CopyMade.

(** The reference warehouse answers faithfully for the orders table. *)
Lemma serve_faithful_orders :
  Warehouse.faithful (Warehouse.serve "proj.sales.orders" ["id"; "email"]) (fun w => w)
    "proj.sales.orders" ["id"; "email"].
Proof.
  split; [|split; [|split; [|split; [|split; [|split; [|split]]]]]].
  - intros R c w. destruct c; try discriminate; try reflexivity.
    destruct destination; [discriminate|]. intros _.
    destruct q; reflexivity.
  - intros w. now eexists.
  - intros w. now eexists.
  - intros w rows E. cbn. now rewrite E.
  - intros w ref [rows E]. cbn. rewrite E. now eexists.
  - intros w rows E. cbn. now rewrite E.
  - intros w rows E. cbn. now rewrite E.
  - intros w rows distinct drop_nulls destination E.
    assert (P : Warehouse.parse_copy "proj.sales.orders" ["id"; "email"]
                  (Warehouse.copy_query_text distinct drop_nulls "proj.sales.orders"
                     ["id"; "email"]) = Some (distinct, drop_nulls))
      by (destruct distinct, drop_nulls; reflexivity).
    cbn [Warehouse.serve]. rewrite E, P. cbn. split; [now eexists | reflexivity].
Qed.

(** C5 (as amended).  The copy is made with [SELECT DISTINCT] exactly
    when the duplicate rate, in double precision, is below 0.1 and there
    is at least one duplicate; the query submitted is built from the
    measured counts.  Against a warehouse that answers faithfully, for a
    table that has rows, the remediation returns, submits that one copy,
    and leaves in the destination table the rows of the source: without
    those that have a null when the rule for nulls applies, and each
    different row once when the rule for duplicates applies.  With 600
    duplicates in 1,000 rows the copy is a plain [SELECT], and so it is
    at exactly 10% and without duplicates; with neither rule applying
    the destination holds every row of the source. *)
Theorem copy_remediation_distinct :
  (forall dup_count total_rows,
     CleanTable.select_clause dup_count total_rows = "SELECT DISTINCT *"
     <-> PrimFloat.ltb (CleanTable.fraction dup_count total_rows) CleanTable.tenth = true
         /\ 0 < dup_count)
  /\ (forall dup_count total_rows,
        CleanTable.select_clause dup_count total_rows <> "SELECT DISTINCT *" ->
        CleanTable.select_clause dup_count total_rows = "SELECT *")
  /\ (forall source_table cols na_count dup_count total_rows,
        (exists rest,
           CleanTable.cleaning_query source_table cols na_count dup_count total_rows
           = "SELECT DISTINCT *" +:+ rest)
        <-> PrimFloat.ltb (CleanTable.fraction dup_count total_rows) CleanTable.tenth = true
            /\ 0 < dup_count)
  /\ (forall (W : Type) (h : handler W) (I : W -> Prop) (w : W) source tbl na dup,
        let source_table :=
          table_reference (CleanTable.project_id source) (CleanTable.dataset_id source)
            (CleanTable.table_id source) in
        respects I h (measures source_table tbl na dup)
          (expected_copy source_table tbl na dup) ->
        I w ->
        Forall (expected_copy source_table tbl na dup)
          (trace_of (run h (CleanTable.clean_bq_table source) w)))
  /\ (forall (W : Type) (h : handler W) (content : W -> gmap string (list Warehouse.cells))
        source cols rows (w : W),
        let source_table :=
          table_reference (CleanTable.project_id source) (CleanTable.dataset_id source)
            (CleanTable.table_id source) in
        let total := Z.of_nat (length rows) in
        let na := Warehouse.na_count rows in
        let dup := Warehouse.dup_count rows in
        let r := run h (CleanTable.clean_bq_table source) w in
        Warehouse.faithful h content source_table cols ->
        content w !! source_table = Some rows ->
        rows <> [] ->
        outcome_of r = Returned tt
        /\ CleanTable.submitted_queries (trace_of r)
           = [CleanTable.cleaning_query source_table cols na dup total]
        /\ exists timestamp,
             content (world_of r)
             = <[table_reference (CleanTable.project_id source)
                   (CleanTable.dataset_id source)
                   (CleanTable.table_id source +:+ "_cleaned_" +:+ timestamp)
                 := Warehouse.copy_result (CleanTable.remove_duplicates dup total)
                      (CleanTable.remove_na_rows na total) rows]> (content w))
  /\ (forall rows, Warehouse.copy_result false false rows = rows)
  /\ (forall rows,
        Warehouse.copy_result false true rows
        = List.filter (fun r => negb (Warehouse.has_null r)) rows)
  /\ CleanTable.select_clause 600 1000 = "SELECT *"
  /\ CleanTable.select_clause 100 1000 = "SELECT *"
  /\ CleanTable.select_clause 99 1000 = "SELECT DISTINCT *"
  /\ CleanTable.select_clause 0 1000 = "SELECT *"
  /\ CleanTable.submitted_queries
       (trace_of (run (survey 1000 0 600) (CleanTable.clean_bq_table orders_payload) tt))
     = ["SELECT * FROM `proj.sales.orders` "].
Proof.
  split; [exact select_clause_distinct|].
  split.
  { intros dup_count total_rows. unfold CleanTable.select_clause.
    destruct (CleanTable.remove_duplicates dup_count total_rows); [congruence | reflexivity]. }
  split.
  { intros source_table cols na_count dup_count total_rows.
    rewrite cleaning_query_distinct. unfold CleanTable.remove_duplicates.
    rewrite andb_true_iff, Z.ltb_lt. reflexivity. }
  split.
  { intros W h I w source tbl na dup source_table Hh Hw.
    apply (guarantees_run I h _ _ (fun _ => True) _ w Hh Hw).
    apply clean_bq_table_copy. }
  split.
  { intros W h content source cols rows w source_table total na dup r Hh Hw Hrows.
    exact (clean_bq_table_copies h content source cols Hh rows w Hw Hrows). }
  split; [reflexivity|]. split; [reflexivity|].
  repeat split; vm_compute; reflexivity.
Qed.

Lemma copy_remediation_distinct_witness :
  let r := run (Warehouse.serve "proj.sales.orders" ["id"; "email"])
             (CleanTable.clean_bq_table orders_payload)
             {[ "proj.sales.orders" := replicate 4 [Some "1"; Some "a@example.com"] ]} in
  outcome_of r = Returned tt
  /\ CleanTable.submitted_queries (trace_of r) = ["SELECT * FROM `proj.sales.orders` "]
  /\ world_of r !! "proj.sales.orders_cleaned_20240101_000000"
     = Some (replicate 4 [Some "1"; Some "a@example.com"]).
Proof.
  intros r.
  assert (E : ({[ "proj.sales.orders" := replicate 4 [Some "1"; Some "a@example.com"] ]}
               : gmap string (list Warehouse.cells)) !! "proj.sales.orders"
              = Some (replicate 4 [Some "1"; Some "a@example.com"]))
    by (vm_compute; reflexivity).
  destruct (proj1 (proj2 (proj2 (proj2 (proj2 copy_remediation_distinct))))
              _ (Warehouse.serve "proj.sales.orders" ["id"; "email"]) (fun w => w)
              orders_payload ["id"; "email"]
              (replicate 4 [Some "1"; Some "a@example.com"])
              {[ "proj.sales.orders" := replicate 4 [Some "1"; Some "a@example.com"] ]}
              serve_faithful_orders E ltac:(discriminate))
    as (O & Q & timestamp & C).
  split; [exact O|]. split; [exact Q|]. reflexivity.
Defined.

(** With 60% of duplicates the copy has no [DISTINCT], but it does not
    keep every duplicate: when fewer than 10% of the rows have a null the
    copy leaves those rows out, the repeated ones among them. *)
Lemma copy_drops_repeated_rows_with_nulls :
  let r := run (Warehouse.serve "proj.sales.orders" ["id"; "email"])
             (CleanTable.clean_bq_table orders_payload)
             {[ "proj.sales.orders" := repeated_orders ]} in
  length repeated_orders = 30%nat
  /\ Warehouse.dup_count repeated_orders = 18
  /\ Warehouse.na_count repeated_orders = 2
  /\ Warehouse.occurrences [Some "2"; None] repeated_orders = 2%nat
  /\ outcome_of r = Returned tt
  /\ CleanTable.submitted_queries (trace_of r)
     = ["SELECT * FROM `proj.sales.orders` WHERE id IS NOT NULL AND email IS NOT NULL"]
  /\ (exists copied,
        world_of r !! "proj.sales.orders_cleaned_20240101_000000" = Some copied
        /\ length copied = 28%nat
        /\ Warehouse.dup_count copied = 17
        /\ Warehouse.occurrences [Some "2"; None] copied = 0%nat).
Proof.
  intros r. repeat (split; [vm_compute; reflexivity|]).
  eexists. split; [vm_compute; reflexivity|].
  repeat split; vm_compute; reflexivity.
Qed.


(** * Further properties of the code *)

(** ** Column names *)

Section ColumnNames.

Local Lemma lower_char_column (c : ascii) :
  is_word_char c = true -> is_column_char (Str.lower_char c) = true.
Proof. destruct c as [[] [] [] [] [] [] [] []]; vm_compute; congruence. Qed.

Local Lemma lower_char_underscore (c : ascii) :
  Str.lower_char c = "_"%char -> c = "_"%char.
Proof. destruct c as [[] [] [] [] [] [] [] []]; vm_compute; congruence. Qed.

Local Lemma column_char_fixed (c : ascii) :
  is_column_char c = true -> is_word_char c = true /\ Str.lower_char c = c.
Proof. destruct c as [[] [] [] [] [] [] [] []]; vm_compute; intuition congruence. Qed.

Local Lemma sub_char_underscore (c : ascii) :
  (if is_word_char c then c else "_"%char) = "_"%char <-> is_alnum c = false.
Proof. destruct c as [[] [] [] [] [] [] [] []]; vm_compute; intuition congruence. Qed.

Lemma sub_non_word_chars (name : string) :
  string_forall is_word_char (sub_non_word name) = true.
Proof.
  induction name as [|c s IH]; [reflexivity|]. simpl. rewrite IH, andb_true_r.
  destruct (is_word_char c) eqn:E; [exact E | reflexivity].
Qed.

Lemma lstrip_char_forall (P : ascii -> bool) (x : ascii) (s : string) :
  string_forall P s = true -> string_forall P (Str.lstrip_char x s) = true.
Proof.
  induction s as [|c s IH]; [reflexivity|]. simpl. intros H.
  destruct (Ascii.eqb c x); [|exact H].
  apply andb_true_iff in H as [_ H]. now apply IH.
Qed.

Lemma rstrip_char_forall (P : ascii -> bool) (x : ascii) (s : string) :
  string_forall P s = true -> string_forall P (Str.rstrip_char x s) = true.
Proof.
  induction s as [|c s IH]; [reflexivity|]. simpl. intros H.
  apply andb_true_iff in H as [Hc H]. specialize (IH H).
  destruct (Str.rstrip_char x s) as [|d r].
  - destruct (Ascii.eqb c x); simpl; [reflexivity | now rewrite Hc].
  - simpl in *. now rewrite Hc, IH.
Qed.

Lemma lower_forall (s : string) :
  string_forall is_word_char s = true ->
  string_forall is_column_char (Str.lower s) = true.
Proof.
  induction s as [|c s IH]; [reflexivity|]. simpl. intros H.
  apply andb_true_iff in H as [Hc H]. now rewrite lower_char_column, IH.
Qed.

Lemma lstrip_char_head (x : ascii) (s r : string) :
  Str.lstrip_char x s <> String x r.
Proof.
  induction s as [|c s IH]; simpl; [discriminate|].
  destruct (Ascii.eqb c x) eqn:E; [exact IH|].
  intros [= -> _]. now rewrite Ascii.eqb_refl in E.
Qed.

Lemma rstrip_char_head (x : ascii) (s : string) :
  (forall r, s <> String x r) -> forall r, Str.rstrip_char x s <> String x r.
Proof.
  destruct s as [|c s]; simpl; [discriminate|]. intros H r.
  assert (N : c <> x) by (intros ->; now apply (H s)).
  destruct (Str.rstrip_char x s).
  - destruct (Ascii.eqb_spec c x); [contradiction|]. now intros [= ->].
  - now intros [= ->].
Qed.

Lemma rstrip_char_last (x : ascii) (s r : string) :
  Str.rstrip_char x s <> r +:+ String x "".
Proof.
  revert r. induction s as [|c s IH]; intros r; simpl.
  - destruct r; discriminate.
  - destruct (Str.rstrip_char x s) as [|d t] eqn:R.
    + destruct (Ascii.eqb_spec c x) as [->|N]; [destruct r; discriminate|].
      destruct r as [|? [|? ?]]; simpl; try discriminate. now intros [= ->].
    + destruct r as [|y r]; simpl; [discriminate|].
      intros [= _ E]. now apply (IH r).
Qed.

Lemma lower_head (s r : string) (x : ascii) :
  Str.lower s = String x r -> exists c s', s = String c s' /\ Str.lower_char c = x.
Proof. destruct s as [|c s']; simpl; [discriminate|]. intros [= <- _]. eauto. Qed.

Lemma lstrip_char_id (x : ascii) (s : string) :
  (forall r, s <> String x r) -> Str.lstrip_char x s = s.
Proof.
  destruct s as [|c s]; [reflexivity|]. simpl. intros H.
  destruct (Ascii.eqb_spec c x) as [->|_]; [now destruct (H s) | reflexivity].
Qed.

Lemma rstrip_char_id (x : ascii) (s : string) :
  (forall r, s <> r +:+ String x "") -> Str.rstrip_char x s = s.
Proof.
  induction s as [|c s IH]; [reflexivity|]. simpl. intros H.
  rewrite IH.
  - destruct s as [|d s]; [|reflexivity].
    destruct (Ascii.eqb_spec c x) as [->|_]; [now destruct (H "") | reflexivity].
  - intros r ->. now apply (H (String c r)).
Qed.

Lemma sub_non_word_id (s : string) :
  string_forall is_word_char s = true -> sub_non_word s = s.
Proof.
  induction s as [|c s IH]; [reflexivity|]. simpl. intros H.
  apply andb_true_iff in H as [Hc H]. now rewrite Hc, IH.
Qed.

Lemma lower_id (s : string) :
  string_forall is_column_char s = true -> Str.lower s = s.
Proof.
  induction s as [|c s IH]; [reflexivity|]. simpl. intros H.
  apply andb_true_iff in H as [Hc H].
  destruct (column_char_fixed c Hc) as [_ ->]. now rewrite IH.
Qed.

Lemma column_chars_word (s : string) :
  string_forall is_column_char s = true -> string_forall is_word_char s = true.
Proof.
  induction s as [|c s IH]; [reflexivity|]. simpl. intros H.
  apply andb_true_iff in H as [Hc H].
  destruct (column_char_fixed c Hc) as [-> _]. now apply IH.
Qed.

Lemma lower_empty (s : string) : Str.lower s = "" <-> s = "".
Proof. destruct s; simpl; split; congruence. Qed.

Lemma lstrip_char_empty (x : ascii) (s : string) :
  Str.lstrip_char x s = "" <-> string_forall (fun c => Ascii.eqb c x) s = true.
Proof.
  induction s as [|c s IH]; simpl; [easy|].
  destruct (Ascii.eqb c x); simpl; [exact IH | split; discriminate].
Qed.

Lemma rstrip_char_empty (x : ascii) (s : string) :
  Str.rstrip_char x s = "" <-> string_forall (fun c => Ascii.eqb c x) s = true.
Proof.
  induction s as [|c s IH]; simpl; [easy|].
  destruct (Str.rstrip_char x s) as [|d r].
  - destruct (Ascii.eqb c x); simpl; [|split; discriminate].
    split; [intros _; now apply IH | reflexivity].
  - split; [discriminate|]. intros H. apply andb_true_iff in H as [_ H].
    apply IH in H. discriminate.
Qed.

Lemma strip_char_empty (x : ascii) (s : string) :
  Str.strip_char x s = "" <-> string_forall (fun c => Ascii.eqb c x) s = true.
Proof.
  unfold Str.strip_char. rewrite <- lstrip_char_empty. split.
  - intros H. pose proof (lstrip_char_head x s) as Hh.
    apply rstrip_char_empty in H. destruct (Str.lstrip_char x s) as [|c r]; [reflexivity|].
    simpl in H. apply andb_true_iff in H as [H _]. apply Ascii.eqb_eq in H as ->.
    now destruct (Hh r).
  - now intros ->.
Qed.

Lemma sub_non_word_underscores (name : string) :
  string_forall (fun c => Ascii.eqb c "_") (sub_non_word name) = true
  <-> string_forall (fun c => negb (is_alnum c)) name = true.
Proof.
  induction name as [|c s IH]; simpl; [easy|].
  rewrite !andb_true_iff, IH, Ascii.eqb_eq, sub_char_underscore, negb_true_iff.
  reflexivity.
Qed.

End ColumnNames.

(** X1.  A cleaned column name consists of lower-case letters, digits and
    underscores only, neither starts nor ends with an underscore, and
    cleaning it again changes nothing. *)
Theorem clean_column_normal_form (name : string) :
  string_forall is_column_char (clean_column name) = true
  /\ (forall r, clean_column name <> String "_" r)
  /\ (forall r, clean_column name <> r +:+ "_")
  /\ clean_column (clean_column name) = clean_column name.
Proof.
  assert (A : string_forall is_column_char (clean_column name) = true).
  { unfold clean_column, Str.strip_char.
    apply lower_forall, rstrip_char_forall, lstrip_char_forall, sub_non_word_chars. }
  assert (B : forall r, clean_column name <> String "_" r).
  { intros r E. unfold clean_column in E.
    apply lower_head in E as (c & s' & E & Hc). apply lower_char_underscore in Hc as ->.
    revert E. apply rstrip_char_head. apply lstrip_char_head. }
  assert (C : forall r, clean_column name <> r +:+ "_").
  { intros r E. unfold clean_column in E.
    apply lower_ends in E as (s' & c & E & Hc). apply lower_char_underscore in Hc as ->.
    revert E. apply rstrip_char_last. }
  repeat split; try assumption.
  set (n := clean_column name) in *. unfold clean_column, Str.strip_char.
  rewrite (sub_non_word_id n) by now apply column_chars_word.
  rewrite (lstrip_char_id "_" n B), (rstrip_char_id "_" n C).
  now apply lower_id.
Qed.

(** X2.  A header cell cleans to the empty column name exactly when it
    has no letter and no digit. *)
Theorem clean_column_empty (name : string) :
  clean_column name = "" <-> string_forall (fun c => negb (is_alnum c)) name = true.
Proof.
  unfold clean_column.
  rewrite lower_empty, strip_char_empty. apply sub_non_word_underscores.
Qed.


(** ** Schema extraction *)

Section SchemaExtraction.

Lemma map_lookup {A B : Type} (f : A -> B) (l : list A) (i : nat) :
  map f l !! i = f <$> (l !! i).
Proof.
  revert i. induction l as [|x l IH]; intros [|i]; simpl; try reflexivity. apply IH.
Qed.

Lemma sample_filter (sample_size : nat) (reader : list (list string)) :
  sample sample_size reader = List.filter any_field (take sample_size reader).
Proof.
  revert reader. induction sample_size as [|n IH]; intros [|r reader]; simpl;
    try reflexivity.
  rewrite IH. destruct (any_field r); reflexivity.
Qed.

Local Lemma width_le (n : nat) (rows : list (list string)) (r : list string) :
  r ∈ rows -> (foldr (fun x m => Nat.min (length x) m) n rows <= length r)%nat.
Proof.
  induction rows as [|x rows IH]; simpl; [intros H; inversion H|].
  intros H. apply elem_of_cons in H as [->|H]; [lia|]. specialize (IH H). lia.
Qed.

Local Lemma width_le_init (n : nat) (rows : list (list string)) :
  (foldr (fun x m => Nat.min (length x) m) n rows <= n)%nat.
Proof. induction rows as [|x rows IH]; simpl; lia. Qed.

Local Lemma width_attained (n : nat) (rows : list (list string)) :
  foldr (fun x m => Nat.min (length x) m) n rows = n
  \/ exists r, r ∈ rows /\ length r = foldr (fun x m => Nat.min (length x) m) n rows.
Proof.
  induction rows as [|x rows IH]; simpl; [now left|].
  destruct (Nat.min_spec (length x) (foldr (fun x m => Nat.min (length x) m) n rows))
    as [[_ ->]|[_ ->]].
  - right. exists x. split; [apply list_elem_of_here | reflexivity].
  - destruct IH as [IH|(r & Hr & E)]; [now left|].
    right. exists r. split; [now apply elem_of_cons; right | exact E].
Qed.

Lemma infer_columns_names (raw_header : list string) (columns : list (list string)) :
  let r := infer_columns raw_header columns in
  let n := Nat.min (length raw_header) (length columns) in
  r.1.1 = map clean_column (take n raw_header)
  /\ map field_name r.1.2 = r.1.1
  /\ map field_type r.1.2
     = map (fun col => detect_column_type (map Some col)) (take n columns).
Proof.
  revert columns. induction raw_header as [|h hdr IH]; intros [|c cols]; simpl;
    try (repeat split; reflexivity).
  specialize (IH cols). simpl in IH. destruct (infer_columns hdr cols) as [[fs sch] rep].
  simpl in *. destruct IH as (-> & E1 & E2). rewrite E1, E2. repeat split; reflexivity.
Qed.

Lemma infer_columns_report (raw_header : list string) (columns : list (list string))
    (f : string) :
  let r := infer_columns raw_header columns in
  r.2 !! f = field_type <$> last (List.filter (fun x => bool_decide (field_name x = f)) r.1.2).
Proof.
  revert columns. induction raw_header as [|h hdr IH]; intros [|c cols]; simpl;
    try reflexivity.
  specialize (IH cols). simpl in IH. destruct (infer_columns hdr cols) as [[fs sch] rep].
  simpl in *. rewrite lookup_union, IH.
  destruct (List.filter _ sch) as [|y l] eqn:F; simpl.
  - case_bool_decide as E; simpl.
    + subst f. now rewrite lookup_singleton_eq.
    + now rewrite lookup_singleton_ne.
  - assert (L : is_Some (last (y :: l))) by (apply last_is_Some; discriminate).
    destruct L as [z L]. rewrite L. simpl.
    case_bool_decide as E; simpl; rewrite ?L; simpl;
      match goal with |- context [Some ?a ∪ ?o] => destruct o end; reflexivity.
Qed.

Lemma detected_log_outcome {W A : Type} (h : handler W) (w : W) (names : list string)
    (x : A) (handle : exn -> prog A) :
  outcome_of (run h (catch (detected_log names ≫= fun _ => Ret x) handle) w) = Returned x.
Proof. induction names as [|n names IH]; simpl; [reflexivity | exact IH]. Qed.

End SchemaExtraction.

(** X3.  [zip( *sample_rows)] transposes: there are as many columns as
    the shortest sampled row has fields, every column has one value per
    row, and value [i] of column [j] is field [j] of row [i]; fields beyond
    the shortest row are dropped. *)
Theorem zip_star_transposes (rows : list (list string)) :
  (forall r, r ∈ rows -> (length (zip_star rows) <= length r)%nat)
  /\ (rows <> [] -> exists r, r ∈ rows /\ length r = length (zip_star rows))
  /\ (forall j col, zip_star rows !! j = Some col ->
        length col = length rows
        /\ forall i r, rows !! i = Some r ->
                       is_Some (r !! j) /\ col !! i = r !! j).
Proof.
  destruct rows as [|r0 rest].
  { split; [intros r H; inversion H|]. split; [easy|].
    intros j col H. simpl in H. discriminate. }
  set (width := foldr (fun x m => Nat.min (length x) m) (length r0) rest).
  assert (L : length (zip_star (r0 :: rest)) = width).
  { unfold zip_star. fold width. now rewrite length_map, length_seq. }
  assert (Hle : forall r, r ∈ r0 :: rest -> (width <= length r)%nat).
  { intros r H. apply elem_of_cons in H as [->|H];
      [apply width_le_init | now apply width_le]. }
  split; [|split].
  - intros r H. rewrite L. now apply Hle.
  - intros _. rewrite L. unfold width.
    destruct (width_attained (length r0) rest) as [E|(r & Hr & E)].
    + exists r0. split; [apply list_elem_of_here | now rewrite E].
    + exists r. split; [now apply elem_of_cons; right | exact E].
  - intros j col Hj. unfold zip_star in Hj. fold width in Hj.
    rewrite map_lookup in Hj.
    destruct (seq 0 width !! j) as [j'|] eqn:Sj; [|discriminate].
    apply lookup_seq in Sj as [-> Hlt].
    cbv [fmap option_fmap option_map] in Hj. injection Hj as <-.
    change (nth j r0 "" :: map (fun x : list string => nth j x "") rest)
      with (map (fun x : list string => nth j x "") (r0 :: rest)).
    split; [now rewrite List.length_map|].
    intros i r Hi. assert (Hr : r ∈ r0 :: rest) by (eapply list_elem_of_lookup_2; eauto).
    specialize (Hle r Hr).
    destruct (lookup_lt_is_Some_2 r j) as [x Hx]; [lia|].
    split; [eauto|].
    rewrite map_lookup, Hi. simpl. now rewrite nth_lookup, Hx.
Qed.

(** X4.  The inferred schema is aligned with the header: one field per
    header cell up to the number of columns, named by the cleaned header
    cell and typed from that column's values; the type report maps a name
    to the type of the last field of that name. *)
Theorem infer_columns_aligned (raw_header : list string) (columns : list (list string)) :
  let r := infer_columns raw_header columns in
  let n := Nat.min (length raw_header) (length columns) in
  r.1.1 = map clean_column (take n raw_header)
  /\ map field_name r.1.2 = r.1.1
  /\ map field_type r.1.2
     = map (fun col => detect_column_type (map Some col)) (take n columns)
  /\ (forall f, r.2 !! f
                = field_type <$> last (List.filter (fun x => bool_decide (field_name x = f))
                                          r.1.2)).
Proof.
  intros r n. destruct (infer_columns_names raw_header columns) as (A & B & C).
  repeat split; try assumption. intros f. apply infer_columns_report.
Qed.

(** X5.  [process_csv_schema] never raises.  It returns a schema exactly
    when the download and the CSV reader answer, the file has a header
    line, and one of the [sample_size] lines after the header is not
    blank; the schema is then inferred from those non-blank lines.  Blank
    lines use up the sample, and lines after it are not looked at. *)
Theorem process_csv_schema_result {W : Type} (h : handler W) (w : W)
    (bucket_name file_name : string) (sample_size : nat) :
  let r := run h (process_csv_schema bucket_name file_name sample_size) w in
  let download := h _ (DownloadAsText bucket_name file_name) w in
  returns (outcome_of r)
  /\ (forall x, outcome_of r = Returned (Some x) <->
        exists content raw_header lines,
          download.1 = Returned content
          /\ (h _ (CsvReader content) download.2).1 = Returned (raw_header :: lines)
          /\ List.filter any_field (take sample_size lines) <> []
          /\ x = infer_columns raw_header
                   (zip_star (List.filter any_field (take sample_size lines)))).
Proof.
  intros r download. unfold r, process_csv_schema. simpl. fold download.
  destruct download.1 as [content|e] eqn:D; simpl.
  2:{ split; [now eexists|]. intros x. split; [discriminate|].
      intros (? & ? & ? & [=] & _). }
  destruct (h _ (CsvReader content) download.2).1 as [[|raw_header lines]|e] eqn:C; simpl.
  - split; [now eexists|]. intros x. split; [discriminate|].
    intros (? & ? & ? & [= <-] & E & _). rewrite C in E. discriminate.
  - rewrite sample_filter.
    destruct (List.filter any_field (take sample_size lines)) as [|l0 ls] eqn:F; simpl.
    + split; [now eexists|]. intros x. split; [discriminate|].
      intros (? & ? & ? & [= <-] & E & N & _). rewrite C in E. injection E as <- <-.
      now rewrite F in N.
    + rewrite detected_log_outcome. split; [now eexists|]. intros x. split.
      * intros [= <-]. exists content, raw_header, lines.
        rewrite F. repeat split; [exact C | discriminate].
      * intros (? & ? & ? & [= <-] & E & _ & ->). rewrite C in E. injection E as <- <-.
        now rewrite F.
  - split; [now eexists|]. intros x. split; [discriminate|].
    intros (? & ? & ? & [= <-] & E & _). rewrite C in E. discriminate.
Qed.

(** ** Runs of composed programs *)

Section RunEquations.

Context {W : Type} (h : handler W).

Lemma run_bind {A B : Type} (p : prog A) (f : A -> prog B) (w : W) :
  run h (bind p f) w
  = extend (run h p w)
      (fun o w' =>
         match o with
         | Returned a => run h (f a) w'
         | Raised e => Result (Raised e) w' []
         end).
Proof.
  revert w. induction p as [a|e|o k IH|R c k IH]; intros w; unfold extend; cbn.
  - now destruct (run h (f a) w).
  - reflexivity.
  - now rewrite IH.
  - now rewrite IH.
Qed.

Lemma run_mbind {A B : Type} (p : prog A) (f : A -> prog B) (w : W) :
  run h (p ≫= f) w
  = extend (run h p w)
      (fun o w' =>
         match o with
         | Returned a => run h (f a) w'
         | Raised e => Result (Raised e) w' []
         end).
Proof. apply run_bind. Qed.

Lemma run_catch {A : Type} (p : prog A) (k : exn -> prog A) (w : W) :
  run h (catch p k) w
  = extend (run h p w)
      (fun o w' =>
         match o with
         | Returned a => Result (Returned a) w' []
         | Raised e => run h (k e) w'
         end).
Proof.
  revert w. induction p as [a|e|o k' IH|R c k' IH]; intros w; unfold extend; cbn.
  - reflexivity.
  - now destruct (run h (k e) w).
  - now rewrite IH.
  - now rewrite IH.
Qed.

Lemma run_finally {A : Type} (p : prog A) (f : prog unit) (w : W) :
  run h (finally p f) w
  = extend (run h p w) (fun o w' => run h (bind f (fun _ => lift o)) w').
Proof.
  revert w. induction p as [a|e|o k IH|R c k IH]; intros w; unfold extend; cbn.
  - now destruct (run h _ w).
  - now destruct (run h _ w).
  - now rewrite IH.
  - now rewrite IH.
Qed.

End RunEquations.

(** ** Provisioning: time-outs and failures *)

Section ProvisioningFailures.

Context {W : Type} (h : handler W) (I : W -> Prop).

Lemma missing_polls_step (dataset_ref : string) (delay : Z) (n : nat) :
  missing_polls dataset_ref delay (S (S n))
  = EvCall (GetDataset dataset_ref) :: EvOut (Log INFO "Waiting for dataset creation")
    :: EvOut (Sleep delay) :: missing_polls dataset_ref delay (S n).
Proof. reflexivity. Qed.

Lemma missing_polls_counts (dataset_ref : string) (delay : Z) (n : nat) :
  get_dataset_calls (missing_polls dataset_ref delay (S n)) = S n
  /\ slept (missing_polls dataset_ref delay (S n)) = delay * Z.of_nat n.
Proof.
  induction n as [|n [IH1 IH2]]; [split; [reflexivity | simpl; lia]|].
  rewrite missing_polls_step. split.
  - change (S (get_dataset_calls (missing_polls dataset_ref delay (S n))) = S (S n)).
    now rewrite IH1.
  - change (delay + slept (missing_polls dataset_ref delay (S n)) = delay * Z.of_nat (S n)).
    rewrite IH2. lia.
Qed.

Lemma verify_dataset_loop_missing (dataset_ref : string) (max_attempts : nat) (delay : Z)
    (todo attempt : nat) (w : W) :
  respects I h (dataset_missing dataset_ref) quiet -> I w ->
  (0 < todo)%nat -> (attempt + todo = max_attempts)%nat ->
  let r := run h (verify_dataset_loop dataset_ref max_attempts delay todo attempt) w in
  outcome_of r = Returned (Some false)
  /\ trace_of r = missing_polls dataset_ref delay todo
  /\ I (world_of r).
Proof.
  intros Hh. revert attempt w.
  induction todo as [|todo IH]; intros attempt w Hw Hpos Hsum; [lia|].
  destruct (Hh _ (GetDataset dataset_ref) w Hw eq_refl) as [Ha Hi].
  specialize (Ha eq_refl). cbn [verify_dataset_loop run]. rewrite Ha.
  destruct todo as [|todo].
  - destruct (Z.ltb_spec (Z.of_nat attempt) (Z.of_nat max_attempts - 1)); [lia|].
    cbn. split; [reflexivity|]. split; [reflexivity | exact Hi].
  - destruct (Z.ltb_spec (Z.of_nat attempt) (Z.of_nat max_attempts - 1)); [|lia].
    destruct (IH (S attempt) _ Hi) as (O & T & Iw); [lia | lia |].
    cbn [run after outcome_of trace_of world_of]. split; [exact O|].
    split; [|exact Iw]. rewrite missing_polls_step. now rewrite <- T.
Qed.

End ProvisioningFailures.

(** X6.  [verify_dataset_creation] polls a bounded number of times: when
    every lookup reports the dataset missing, it returns [False] after
    exactly [max_attempts] lookups and [max_attempts - 1] pauses of
    [delay] seconds; when the first lookup finds the dataset it returns
    [True] at once; with no attempt allowed it makes no call and returns
    [None]. *)
Theorem verify_dataset_creation_bounded {W : Type} (h : handler W) (I : W -> Prop)
    (dataset_ref : string) (max_attempts : nat) (delay : Z) (w : W) :
  let r := run h (verify_dataset_creation dataset_ref max_attempts delay) w in
  I w ->
  (respects I h (dataset_missing dataset_ref) quiet -> (0 < max_attempts)%nat ->
   outcome_of r = Returned (Some false)
   /\ get_dataset_calls (trace_of r) = max_attempts
   /\ slept (trace_of r) = delay * (Z.of_nat max_attempts - 1))
  /\ ((h _ (GetDataset dataset_ref) w).1 = Returned tt -> (0 < max_attempts)%nat ->
      outcome_of r = Returned (Some true)
      /\ get_dataset_calls (trace_of r) = 1%nat /\ slept (trace_of r) = 0)
  /\ (max_attempts = 0%nat -> outcome_of r = Returned None /\ trace_of r = []).
Proof.
  intros r Hw. split; [|split].
  - intros Hh Hpos.
    destruct (verify_dataset_loop_missing h I dataset_ref max_attempts delay
                max_attempts 0 w Hh Hw Hpos eq_refl) as (O & T & _).
    split; [exact O|]. unfold r, verify_dataset_creation. rewrite T.
    destruct max_attempts as [|n]; [lia|].
    destruct (missing_polls_counts dataset_ref delay n) as [C S].
    split; [exact C|]. rewrite S. lia.
  - intros E Hpos. unfold r, verify_dataset_creation.
    destruct max_attempts as [|n]; [lia|].
    cbn [verify_dataset_loop run]. rewrite E. repeat split.
  - intros ->. split; reflexivity.
Qed.

Lemma verify_dataset_creation_bounded_witness :
  let r := run lagging (verify_dataset_creation "proj.sales" 5 30) tt in
  outcome_of r = Returned (Some false)
  /\ get_dataset_calls (trace_of r) = 5%nat /\ slept (trace_of r) = 120.
Proof.
  apply (proj1 (verify_dataset_creation_bounded lagging (fun _ => True)
                  "proj.sales" 5 30 tt Logic.I)).
  - intros R c w _ _. split; [|exact Logic.I]. destruct c; simpl; auto.
  - lia.
Defined.

(** X7.  For a project and a dataset identifier that are plain,
    [create_dataset_if_not_exists] raises only what the first lookup
    raises other than [NotFound], and then makes no create call; in every
    other case it returns.  It returns [False] when the create
    call fails with anything but a conflict, and when the dataset is
    created but still reported missing at each of the five lookups that
    follow. *)
Theorem create_dataset_failures {W : Type} (h : handler W) (I : W -> Prop) (w : W)
    (project_id dataset_id : string) :
  plain_id project_id = true -> plain_id dataset_id = true ->
  let ref := dataset_reference project_id dataset_id in
  let r := run h (create_dataset_if_not_exists project_id dataset_id) w in
  let first := h _ (GetDataset ref) w in
  (forall e, first.1 = Raised e -> e <> NotFound ->
     outcome_of r = Raised e /\ trace_of r = [EvCall (GetDataset ref)])
  /\ (first.1 = Returned tt \/ first.1 = Raised NotFound -> returns (outcome_of r))
  /\ (forall e, first.1 = Raised NotFound ->
        (h _ (CreateDataset ref) first.2).1 = Raised e -> e <> Conflict ->
        outcome_of r = Returned (Some false))
  /\ (respects I h (dataset_missing ref) quiet -> I w ->
      (forall w', I w' -> (h _ (CreateDataset ref) w').1 = Returned tt) ->
      outcome_of r = Returned (Some false)
      /\ get_dataset_calls (trace_of r) = 6%nat /\ slept (trace_of r) = 120).
Proof.
  intros _ _ ref r first. unfold r, create_dataset_if_not_exists, catch_not_found.
  fold ref. remember (verify_dataset_creation ref 5 30) as p eqn:Ep.
  split; [|split; [|split]].
  - intros e E N. cbn. fold first. rewrite E. destruct e; try contradiction; split; reflexivity.
  - intros [E|E]; cbn; fold first; rewrite E; cbn; [now eexists|].
    destruct (h _ (CreateDataset ref) first.2).1 as [[]|e] eqn:C; cbn.
    + rewrite run_catch.
      destruct (run h p (h _ (CreateDataset ref) first.2).2) as [[a|e] w3 tr]; cbn;
        [now eexists|]. destruct e; cbn; now eexists.
    + destruct e; cbn; now eexists.
  - intros e E C N. cbn. fold first. rewrite E. cbn. rewrite C.
    destruct e; try contradiction; reflexivity.
  - intros Hh Hw Hc.
    destruct (Hh _ (GetDataset ref) w Hw eq_refl) as [E Hi]. specialize (E eq_refl).
    fold first in E, Hi. cbn. fold first. rewrite E. cbn.
    rewrite (Hc _ Hi). cbn.
    assert (Hw2 : I (h _ (CreateDataset ref) first.2).2)
      by apply (Hh _ (CreateDataset ref) first.2 Hi eq_refl).
    destruct (verify_dataset_loop_missing h I ref 5 30 5 0 _ Hh Hw2) as (O & T & _);
      [lia | reflexivity |].
    rewrite run_catch. subst p. unfold verify_dataset_creation.
    destruct (run h (verify_dataset_loop ref 5 30 5 0) (h _ (CreateDataset ref) first.2).2)
      as [o w3 tr].
    cbn in O, T. subst o tr. repeat split.
Qed.

Lemma create_dataset_failures_witness :
  let r := run lagging (create_dataset_if_not_exists "proj" "sales") tt in
  outcome_of r = Returned (Some false) /\ get_dataset_calls (trace_of r) = 6%nat.
Proof.
  destruct (proj2 (proj2 (proj2 (create_dataset_failures lagging (fun _ => True) tt
                                   "proj" "sales" eq_refl eq_refl)))) as (O & C & _).
  - intros R c w _ _. split; [|exact Logic.I]. destruct c; simpl; auto.
  - exact Logic.I.
  - reflexivity.
  - split; [exact O | exact C].
Defined.


(** ** The load path and the quality checks *)

Section LoadPath.

Context {W : Type} (h : handler W).

Lemma run_schema_log (sch : list SchemaField) (w : W) :
  run h (schema_log sch) w
  = Result (Returned tt) w (map (fun _ => EvOut (Log INFO "  - field")) sch).
Proof.
  induction sch as [|s sch IH]; cbn; [reflexivity|].
  unfold schema_log in IH. now rewrite IH.
Qed.

Lemma get_table_calls_app (tr1 tr2 : list event) :
  get_table_calls (tr1 ++ tr2) = (get_table_calls tr1 + get_table_calls tr2)%nat.
Proof. unfold get_table_calls. now rewrite List.filter_app, length_app. Qed.

Lemma get_table_calls_out (o : output) (tr : list event) :
  get_table_calls (EvOut o :: tr) = get_table_calls tr.
Proof. reflexivity. Qed.

Lemma schema_log_no_lookup (sch : list SchemaField) :
  get_table_calls (map (fun _ => EvOut (Log INFO "  - field")) sch) = 0%nat.
Proof. induction sch as [|s sch IH]; [reflexivity | exact IH]. Qed.

(** A verification that is allowed an attempt answers [True] or [False],
    or raises. *)
Lemma verify_table_loop_decides (table_ref : string) (max_attempts : nat) (delay : Z)
    (todo attempt : nat) (w : W) :
  (0 < todo)%nat -> (attempt + todo = max_attempts)%nat ->
  outcome_of (run h (verify_table_loop table_ref max_attempts delay todo attempt) w)
  <> Returned None.
Proof.
  revert attempt w. induction todo as [|todo IH]; intros attempt w Hpos Hsum; [lia|].
  cbn [verify_table_loop run].
  destruct (h _ (GetTable table_ref) w).1 as [table|e]; cbn.
  - destruct (0 <? num_rows table); cbn; [discriminate|].
    destruct (Z.ltb_spec (Z.of_nat attempt) (Z.of_nat max_attempts - 1)); cbn;
      [|discriminate].
    apply IH; lia.
  - destruct e; cbn; discriminate.
Qed.

(** The run of [get_row_count], by the answer of the count query. *)
Lemma get_row_count_run (table_ref : string) (w : W) :
  let count := h _ (Query (SqlRowCount table_ref) None) w in
  let found := match count.1 with
               | Returned (r :: _) => r !! "row_count"
               | _ => None
               end in
  run h (DataValidator.get_row_count table_ref) w
  = Result (Returned (default (CInt 0) found)) count.2
      (EvCall (Query (SqlRowCount table_ref) None)
       :: match found with
          | Some _ => []
          | None => [EvOut (Print "Could not get row count")]
          end).
Proof.
  unfold DataValidator.get_row_count. cbn.
  destruct (h _ (Query (SqlRowCount table_ref) None) w).1 as [[|r rows]|e]; cbn;
    try reflexivity.
  unfold DataValidator.attribute. destruct (r !! "row_count"); reflexivity.
Qed.

Lemma validate_data_integrity_returns (table_ref : string) (fields : list string) (w : W) :
  returns (outcome_of (run h (DataValidator.validate_data_integrity table_ref fields) w)).
Proof.
  destruct (Str.split "." table_ref) as [|a [|b [|c l]]] eqn:E;
    try (unfold DataValidator.validate_data_integrity, DataValidator.component;
         rewrite E; simpl; now eexists).
  rewrite (validate_data_integrity_run h w _ _ _ _ _ _ E).
  destruct (h _ _ w).1 as [rows|e]; [|now eexists].
  destruct (row_columns rows); now eexists.
Qed.

End LoadPath.

(** X8.  [load_csv_to_bigquery] never raises and never answers [None]:
    it returns [True] or [False].  When the submission of the load job or
    the wait for its result raises, it returns [False] without looking
    the table up; errors that the finished job reports do not fail the
    load, which returns [True] once the table shows a row. *)
Theorem load_csv_to_bigquery_outcomes {W : Type} (h : handler W) (w : W)
    (uri table_ref : string) (sch : list SchemaField) (mode : string) :
  let r := run h (load_csv_to_bigquery uri table_ref sch mode) w in
  let submit := h _ (LoadTableFromUri uri table_ref (load_job_config sch mode)) w in
  (exists b, outcome_of r = Returned (Some b))
  /\ (forall e, submit.1 = Raised e ->
        outcome_of r = Returned (Some false) /\ get_table_calls (trace_of r) = 0%nat)
  /\ (forall job e, submit.1 = Returned job ->
        (h _ (LoadJobResult job) submit.2).1 = Raised e ->
        outcome_of r = Returned (Some false) /\ get_table_calls (trace_of r) = 0%nat)
  /\ (forall job errors table, submit.1 = Returned job ->
        let waited := h _ (LoadJobResult job) submit.2 in
        waited.1 = Returned errors ->
        (h _ (GetTable table_ref) waited.2).1 = Returned table ->
        0 < num_rows table ->
        outcome_of r = Returned (Some true)).
Proof.
  intros r submit. unfold r, load_csv_to_bigquery.
  cbn [mbind prog_bind bind emit run].
  rewrite run_mbind, run_schema_log. unfold extend. cbn [outcome_of world_of trace_of].
  rewrite run_catch. unfold extend.
  cbn [bind perform run mbind prog_bind]. fold submit.
  destruct submit.1 as [job|e] eqn:S; cbn [bind run after outcome_of trace_of world_of].
  - destruct (h _ (LoadJobResult job) submit.2).1 as [errors|e] eqn:J;
      cbn [bind run after outcome_of trace_of world_of].
    + pose proof (verify_table_loop_decides h table_ref 5 30 5 0
                    (h _ (LoadJobResult job) submit.2).2) as D.
      split; [|split; [discriminate|split]].
      * unfold verify_table_load.
        destruct (outcome_of (run h (verify_table_loop table_ref 5 30 5 0) _))
          as [[b|]|e] eqn:V; cbn.
        -- now exists b.
        -- exfalso. apply D; [lia | reflexivity | reflexivity].
        -- now exists false.
      * intros job' e [= <-]. rewrite J. discriminate.
      * intros job' errors' table [= <-]. cbv zeta. rewrite J.
        intros _ T Hrows. unfold verify_table_load. cbn [verify_table_loop run].
        rewrite T. cbn. destruct (Z.ltb_spec 0 (num_rows table)); [reflexivity | lia].
    + split; [now exists false|]. split; [discriminate|]. split.
      * intros job' e' [= <-] _. split; [reflexivity|].
        cbn [trace_of after].
        now rewrite !get_table_calls_out, get_table_calls_app, schema_log_no_lookup.
      * intros job' errors table [= <-]. cbv zeta. rewrite J. discriminate.
  - split; [now exists false|]. split.
    + intros e' _. split; [reflexivity|].
      cbn [trace_of after].
      now rewrite !get_table_calls_out, get_table_calls_app, schema_log_no_lookup.
    + split; discriminate.
Qed.

Lemma load_csv_to_bigquery_outcomes_witness :
  let r := run offline (load_csv_to_bigquery "gs://bkt/data.csv" "proj.sales.orders"
                          [mkSchemaField "name" STRING] "append") tt in
  outcome_of r = Returned (Some false) /\ get_table_calls (trace_of r) = 0%nat.
Proof.
  apply (proj1 (proj2 (load_csv_to_bigquery_outcomes offline tt "gs://bkt/data.csv"
                         "proj.sales.orders" [mkSchemaField "name" STRING] "append"))
           (OtherError "service unavailable")).
  reflexivity.
Defined.

(** X9.  [run_data_quality_checks] never raises.  It answers [True] only
    for at least two fields; a row-count query that fails counts as an
    empty table, so the checks answer [False] after that one query; and
    when the count is not zero and there are two fields or more, a schema
    query that fails does not fail the checks. *)
Theorem run_data_quality_checks_outcomes {W : Type} (h : handler W) (w : W)
    (table_ref : string) (clean_fields : list string) :
  let r := run h (run_data_quality_checks table_ref clean_fields) w in
  let count := h _ (Query (SqlRowCount table_ref) None) w in
  returns (outcome_of r)
  /\ (outcome_of r = Returned true -> (2 <= length clean_fields)%nat)
  /\ (forall e, count.1 = Raised e ->
        outcome_of r = Returned false
        /\ calls (trace_of r) = [EvCall (Query (SqlRowCount table_ref) None)])
  /\ (forall first rest n project dataset table e,
        count.1 = Returned (first :: rest) -> first !! "row_count" = Some (CInt n) ->
        n <> 0 ->
        Str.split "." table_ref = [project; dataset; table] ->
        (h _ (Query (SqlSchemaColumns project dataset table) None) count.2).1 = Raised e ->
        (2 <= length clean_fields)%nat ->
        outcome_of r = Returned true).
Proof.
  intros r count. unfold r, run_data_quality_checks.
  rewrite run_mbind, get_row_count_run. fold count. unfold extend.
  cbn [outcome_of world_of trace_of].
  pose proof (validate_data_integrity_returns h table_ref clean_fields count.2) as [ok V].
  split; [|split; [|split]].
  - case_bool_decide; cbn; [now eexists|].
    rewrite run_mbind. unfold extend. rewrite V.
    destruct ok; cbn; [|now eexists].
    destruct (length clean_fields <=? 1)%nat; cbn; now eexists.
  - case_bool_decide; cbn; [discriminate|].
    rewrite run_mbind. unfold extend. rewrite V.
    destruct ok; cbn; [|discriminate].
    destruct (Nat.leb_spec (length clean_fields) 1); cbn; [discriminate | lia].
  - intros e E. rewrite E. cbn. split; reflexivity.
  - intros first rest n project dataset table e E L N S Q Hlen.
    rewrite E, L. cbn [default].
    rewrite bool_decide_eq_false_2 by (intros [= ?]; contradiction).
    rewrite run_mbind. unfold extend.
    rewrite (validate_data_integrity_run h count.2 _ _ _ _ _ _ S), Q. cbn.
    destruct (Nat.leb_spec (length clean_fields) 1); [lia | reflexivity].
Qed.

Lemma run_data_quality_checks_outcomes_witness :
  outcome_of (run (count_only 7) (run_data_quality_checks "proj.sales.orders"
                                    ["name"; "age"]) tt) = Returned true.
Proof.
  apply (proj2 (proj2 (proj2 (run_data_quality_checks_outcomes (count_only 7) tt
                                "proj.sales.orders" ["name"; "age"])))
           {[ "row_count" := CInt 7 ]} [] 7 "proj" "sales" "orders"
           (OtherError "unsupported call")).
  - reflexivity.
  - reflexivity.
  - lia.
  - reflexivity.
  - reflexivity.
  - simpl. lia.
Defined.


(** ** The entry point: reach and failures *)

Section Reach.

Variable Ans : answers.
Variables bucket_name file_name project_id dataset_id table_id : string.

Let P : event -> Prop := within bucket_name file_name project_id dataset_id table_id.
Let table_ref : string := table_reference project_id dataset_id table_id.

Lemma detected_log_within (names : list string) :
  guarantees Ans P (fun o => o = Returned tt) (detected_log names).
Proof.
  induction names as [|x names IH]; simpl; [reflexivity|].
  split; [exact Logic.I | exact IH].
Qed.

Lemma process_csv_schema_within (sample_size : nat) :
  guarantees Ans P returns (process_csv_schema bucket_name file_name sample_size).
Proof.
  unfold process_csv_schema.
  apply guarantees_catch with (Q1 := fun _ => True).
  - apply guarantees_bind with (Q1 := fun _ => True); [| |easy].
    { apply guarantees_perform; [now split | easy]. }
    intros content _.
    apply guarantees_bind with (Q1 := fun _ => True); [| |easy].
    { apply guarantees_perform; [exact Logic.I | easy]. }
    intros [|raw_header reader'] _; simpl; [exact Logic.I|].
    destruct (sample sample_size reader') as [|r0 rows]; simpl; [exact Logic.I|].
    apply guarantees_bind with (Q1 := fun o => o = Returned tt);
      [apply detected_log_within | easy | discriminate].
  - intros a _. now exists a.
  - intros e _. simpl. split; [exact Logic.I | now eexists].
Qed.

Lemma verify_dataset_loop_within (max_attempts : nat) (delay : Z) (todo attempt : nat) :
  guarantees Ans P (fun _ => True)
    (verify_dataset_loop (dataset_reference project_id dataset_id) max_attempts delay
       todo attempt).
Proof.
  revert attempt. induction todo as [|todo IH]; intros attempt; simpl; [exact Logic.I|].
  split; [reflexivity|]. intros [[]|e] _; simpl; [easy|].
  destruct e; simpl; try exact Logic.I.
  destruct (Z.of_nat attempt <? Z.of_nat max_attempts - 1); simpl; [|easy].
  split; [exact Logic.I|]. split; [exact Logic.I|]. apply IH.
Qed.

(** Provisioning raises only what its first lookup raises. *)
Lemma create_dataset_within :
  guarantees Ans P
    (fun o => forall e, o = Raised e ->
       e <> NotFound
       /\ Ans _ (GetDataset (dataset_reference project_id dataset_id)) (Raised e))
    (create_dataset_if_not_exists project_id dataset_id).
Proof.
  unfold create_dataset_if_not_exists, catch_not_found.
  set (ref := dataset_reference project_id dataset_id).
  apply guarantees_catch
    with (Q1 := fun o => forall e, o = Raised e -> Ans _ (GetDataset ref) (Raised e)).
  - apply guarantees_bind with (Q1 := fun o => Ans _ (GetDataset ref) o).
    + apply guarantees_perform; [reflexivity | auto].
    + intros [] _. simpl. split; [exact Logic.I | discriminate].
    + intros e He e' [= <-]. exact He.
  - discriminate.
  - intros e He. specialize (He e eq_refl).
    destruct e; cbn [guarantees];
      try (intros e' [= <-]; split; [discriminate | exact He]).
    split; [exact Logic.I|].
    apply guarantees_catch with (Q1 := fun _ => True).
    + apply guarantees_bind with (Q1 := fun _ => True);
        [apply guarantees_perform; [reflexivity | easy] | | easy].
      intros [] _.
      apply guarantees_bind with (Q1 := fun _ => True); [simpl; easy | | easy].
      intros _ _. apply (verify_dataset_loop_within 5 30 5 0).
    + discriminate.
    + intros e _. destruct e; simpl; (split; [exact Logic.I | discriminate]).
Qed.

(** The existence test of the create mode raises only what its lookup
    raises. *)
Lemma create_mode_conflict_within (mode : string) :
  guarantees Ans P
    (fun o => forall e, o = Raised e ->
       e <> NotFound /\ Ans _ (GetTable table_ref) (Raised e))
    (create_mode_conflict mode table_ref).
Proof.
  unfold create_mode_conflict, catch_not_found.
  destruct (String.eqb mode "create"); [|simpl; discriminate].
  apply guarantees_catch
    with (Q1 := fun o => forall e, o = Raised e -> Ans _ (GetTable table_ref) (Raised e)).
  - apply guarantees_bind with (Q1 := fun o => Ans _ (GetTable table_ref) o).
    + apply guarantees_perform; [reflexivity | auto].
    + intros existing _. simpl. split; [exact Logic.I | discriminate].
    + intros e He e' [= <-]. exact He.
  - discriminate.
  - intros e He. specialize (He e eq_refl).
    destruct e; cbn [guarantees];
      try (intros e' [= <-]; split; [discriminate | exact He]).
    discriminate.
Qed.

Lemma schema_log_within (sch : list SchemaField) :
  guarantees Ans P (fun o => o = Returned tt) (schema_log sch).
Proof.
  induction sch as [|s sch IH]; simpl; [reflexivity|]. split; [exact Logic.I | exact IH].
Qed.

Lemma verify_table_loop_within (max_attempts : nat) (delay : Z) (todo attempt : nat) :
  guarantees Ans P (fun _ => True)
    (verify_table_loop table_ref max_attempts delay todo attempt).
Proof.
  revert attempt. induction todo as [|todo IH]; intros attempt; simpl; [exact Logic.I|].
  split; [reflexivity|]. intros [tbl|e] _; simpl.
  - destruct (0 <? num_rows tbl); simpl; [easy|].
    destruct (Z.of_nat attempt <? Z.of_nat max_attempts - 1); simpl; [|easy].
    split; [exact Logic.I|]. split; [exact Logic.I|]. apply IH.
  - destruct e; simpl; easy.
Qed.

Lemma load_csv_to_bigquery_within (sch : list SchemaField) (mode : string) :
  guarantees Ans P returns
    (load_csv_to_bigquery (gcs_uri bucket_name file_name) table_ref sch mode).
Proof.
  unfold load_csv_to_bigquery.
  apply guarantees_bind with (Q1 := fun o => o = Returned tt);
    [simpl; easy | | discriminate].
  intros _ _.
  apply guarantees_bind with (Q1 := fun o => o = Returned tt);
    [simpl; easy | | discriminate].
  intros _ _.
  apply guarantees_bind with (Q1 := fun o => o = Returned tt);
    [apply schema_log_within | | discriminate].
  intros _ _.
  apply guarantees_catch with (Q1 := fun _ => True).
  - apply guarantees_bind with (Q1 := fun _ => True);
      [apply guarantees_perform; [now split | easy] | | easy].
    intros job _.
    apply guarantees_bind with (Q1 := fun _ => True);
      [apply guarantees_perform; [exact Logic.I | easy] | | easy].
    intros errors _.
    apply guarantees_bind with (Q1 := fun _ => True); [simpl; easy | | easy].
    intros _ _. apply (verify_table_loop_within 5 30 5 0).
  - intros a _. now exists a.
  - intros e _. simpl. split; [exact Logic.I | now eexists].
Qed.

Lemma column_names_within (rows : list row) :
  guarantees Ans P (fun _ => True) (DataValidator.column_names rows).
Proof.
  induction rows as [|r rows IH]; simpl; [exact Logic.I|].
  unfold DataValidator.attribute. destruct (r !! "column_name"); simpl; [|exact Logic.I].
  apply guarantees_bind with (Q1 := fun _ => True); [exact IH | easy | easy].
Qed.

Lemma run_data_quality_checks_within (clean_fields : list string) :
  guarantees Ans P returns (run_data_quality_checks table_ref clean_fields).
Proof.
  unfold run_data_quality_checks.
  apply guarantees_bind with (Q1 := returns).
  - unfold DataValidator.get_row_count.
    apply guarantees_catch with (Q1 := fun _ => True).
    + simpl. split; [now split|]. intros [[|r rows]|e] _; simpl; try easy.
      unfold DataValidator.attribute. destruct (r !! "row_count"); simpl; easy.
    + intros a _. now exists a.
    + intros e _. simpl. split; [exact Logic.I | now eexists].
  - intros row_count _.
    destruct (bool_decide (row_count = CInt 0));
      [simpl; split; [exact Logic.I | now eexists]|].
    apply guarantees_bind with (Q1 := returns).
    + unfold DataValidator.validate_data_integrity.
      apply guarantees_catch with (Q1 := fun _ => True).
      * unfold DataValidator.component.
        destruct (Str.split "." table_ref !! 0%nat); simpl; [|exact Logic.I].
        destruct (Str.split "." table_ref !! 1%nat); simpl; [|exact Logic.I].
        destruct (Str.split "." table_ref !! 2%nat); simpl; [|exact Logic.I].
        split; [now split|]. intros [rows|e] _; simpl; [|exact Logic.I].
        apply guarantees_bind with (Q1 := fun _ => True);
          [apply column_names_within | | easy].
        intros cols _.
        destruct (DataValidator.missing_columns clean_fields cols); simpl; easy.
      * intros a _. now exists a.
      * intros e _. simpl. split; [exact Logic.I | now eexists].
    + intros ok _. destruct ok; simpl; [|split; [exact Logic.I | now eexists]].
      destruct (length clean_fields <? 2)%nat; simpl;
        [split; [exact Logic.I | now eexists] | now eexists].
    + intros e [a Ha]. discriminate.
  - intros e [a Ha]. discriminate.
Qed.

End Reach.

Section EntryPoint.

Variable Ans : answers.
Variable P : event -> Prop.
Variable event : trigger.

Hypothesis Pout : forall o, P (EvOut o).
Hypothesis Pbq : P (EvCall BigQueryClient).
Hypothesis Pst : P (EvCall StorageClient).
Hypothesis Preach : forall d t m f proj,
  parse_filename (name event) = Returned (d, t, m, f) ->
  Ans _ BigQueryClient (Returned proj) ->
  forall ev, within (bucket event) (name event) proj d t ev -> P ev.

Lemma gcs_to_bq_body_guarantee :
  guarantees Ans P
    (fun o => forall e, o = Raised e -> failure_source Ans (name event) e)
    (gcs_to_bq_body event).
Proof.
  unfold gcs_to_bq_body.
  apply guarantees_bind with (Q1 := fun o => o = parse_filename (name event)).
  { destruct (parse_filename (name event)); reflexivity. }
  2: { intros e He e' [= <-]. left. now rewrite He. }
  intros [[[d t] m] f] Hparse. symmetry in Hparse.
  apply guarantees_bind with (Q1 := fun o => o = Returned tt);
    [simpl; split; [apply Pout | reflexivity] | | discriminate].
  intros _ _.
  apply guarantees_bind with (Q1 := fun o => Ans _ BigQueryClient o);
    [apply guarantees_perform; [exact Pbq | auto] | |].
  2: { intros e He e' [= <-]. right. left. exact He. }
  intros proj Hproj.
  apply guarantees_bind with (Q1 := fun o => Ans _ StorageClient o);
    [apply guarantees_perform; [exact Pst | auto] | |].
  2: { intros e He e' [= <-]. right. right. left. exact He. }
  intros [] _.
  apply guarantees_bind with (Q1 := fun o => o = Returned tt);
    [simpl; split; [apply Pout | reflexivity] | | discriminate].
  intros _ _.
  pose proof (Preach d t m f proj Hparse Hproj) as Hin.
  apply guarantees_bind with (Q1 := returns).
  { eapply guarantees_weaken; [exact Hin | | apply process_csv_schema_within]. easy. }
  2: { intros e [a Ha]. discriminate. }
  intros extracted _.
  destruct extracted as [[[clean_fields sch] type_report]|];
    [|simpl; split; [apply Pout | discriminate]].
  destruct clean_fields as [|c0 clean_fields];
    [simpl; split; [apply Pout | discriminate]|].
  apply guarantees_bind
    with (Q1 := fun o => forall e, o = Raised e ->
                  e <> NotFound
                  /\ Ans _ (GetDataset (dataset_reference proj d)) (Raised e)).
  { eapply guarantees_weaken; [exact Hin | | apply create_dataset_within]. easy. }
  2: { intros e He e' [= <-]. destruct (He e eq_refl) as [N A].
       right. right. right. split; [exact N|]. left. eexists. exact A. }
  intros provisioned _.
  destruct (truthy provisioned); simpl negb; cbv iota; [|simpl; discriminate].
  apply guarantees_bind
    with (Q1 := fun o => forall e, o = Raised e ->
                  e <> NotFound
                  /\ Ans _ (GetTable (table_reference proj d t)) (Raised e)).
  { eapply guarantees_weaken; [exact Hin | | apply create_mode_conflict_within]. easy. }
  2: { intros e He e' [= <-]. destruct (He e eq_refl) as [N A].
       right. right. right. split; [exact N|]. right. eexists. exact A. }
  intros conflict _. destruct conflict; [simpl; discriminate|].
  apply guarantees_bind with (Q1 := returns).
  { eapply guarantees_weaken; [exact Hin | | apply load_csv_to_bigquery_within]. easy. }
  2: { intros e [a Ha]. discriminate. }
  intros loaded _.
  destruct (truthy loaded); simpl negb; cbv iota; [|simpl; discriminate].
  apply guarantees_bind with (Q1 := returns).
  { eapply guarantees_weaken; [exact Hin | | apply run_data_quality_checks_within]. easy. }
  2: { intros e [a Ha]. discriminate. }
  intros checked _.
  destruct checked; simpl; repeat (split; [apply Pout|]); discriminate.
Qed.

Lemma gcs_to_bq_guarantee :
  guarantees Ans P
    (fun o => forall e, o = Raised e -> failure_source Ans (name event) e)
    (gcs_to_bq event).
Proof.
  unfold gcs_to_bq.
  apply guarantees_bind with (Q1 := fun o => o = Returned tt);
    [simpl; split; [apply Pout | reflexivity] | | discriminate].
  intros _ _. destruct (negb (Str.ends_with ".csv" (name event)));
    [simpl; split; [apply Pout | discriminate]|].
  apply guarantees_finally; [|simpl; split; [apply Pout | reflexivity]].
  apply guarantees_catch
    with (Q1 := fun o => forall e, o = Raised e -> failure_source Ans (name event) e);
    [apply gcs_to_bq_body_guarantee | discriminate |].
  intros e He. simpl. split; [apply Pout|]. intros e' [= <-]. now apply He.
Qed.

End EntryPoint.


Lemma serve_dependable :
  respects (fun _ => True) Cloud.serve dependable (fun _ => True).
Proof.
  intros R c w _ _. split; [|exact Logic.I].
  destruct c; simpl; try exact Logic.I; try (now eexists).
  - destruct (bool_decide _); simpl; [left; now eexists | now right].
  - destruct (Cloud.tables w !! _); simpl; [left; now eexists | now right].
Qed.

Lemma serve_project_is (proj : string) (P : event -> Prop) :
  respects (fun w => Cloud.project w = proj) Cloud.serve (project_is proj) P.
Proof.
  intros R c w Hw _. split; [|now rewrite serve_project].
  destruct c; simpl; try exact Logic.I. now intros p [= <-].
Qed.

(** X10.  [gcs_to_bq] decides on the name alone before it builds a
    client: a name that does not end in [.csv] is skipped after two log
    lines, without a completion log; a [.csv] name that does not parse
    makes it raise the parse error after logging the failure.  For every
    [.csv] name, whatever the services answer, the last event is the
    completion log, and a raised exception is logged just before it. *)
Theorem gcs_to_bq_early_exits {W : Type} (h : handler W) (w : W) (event : trigger) :
  let r := run h (gcs_to_bq event) w in
  (Str.ends_with ".csv" (name event) = false ->
   r = Result (Returned tt) w
         [EvOut (Log INFO "Triggered by"); EvOut (Log INFO "Skipping non-CSV file")])
  /\ (Str.ends_with ".csv" (name event) = true ->
      (forall e, parse_filename (name event) = Raised e ->
         r = Result (Raised e) w
               [EvOut (Log INFO "Triggered by"); failure_log; completion_log])
      /\ last (trace_of r) = Some completion_log
      /\ (forall e, outcome_of r = Raised e ->
            exists tr, trace_of r = tr ++ [failure_log; completion_log])).
Proof.
  intros r. unfold r, gcs_to_bq. cbn [mbind prog_bind bind emit run].
  split; intros E; rewrite E; cbn [negb]; [reflexivity|].
  rewrite run_finally, run_catch. unfold extend. split; [|split].
  - intros e Hparse. unfold gcs_to_bq_body. rewrite Hparse. reflexivity.
  - destruct (run h (gcs_to_bq_body event) w) as [[a|e] w' tr]; cbn.
    + rewrite app_nil_r.
      change (last ((EvOut (Log INFO "Triggered by") :: tr) ++ [completion_log])
              = Some completion_log).
      apply last_snoc.
    + change (last ((EvOut (Log INFO "Triggered by") :: tr ++ [failure_log])
                    ++ [completion_log]) = Some completion_log).
      apply last_snoc.
  - destruct (run h (gcs_to_bq_body event) w) as [[a|e] w' tr]; cbn; [discriminate|].
    intros e' _. exists (EvOut (Log INFO "Triggered by") :: tr).
    now rewrite <- app_assoc.
Qed.

Lemma gcs_to_bq_early_exits_witness :
  run offline (gcs_to_bq (Trigger "bkt" "sales-orders-create__data.CSV")) tt
  = Result (Returned tt) tt
      [EvOut (Log INFO "Triggered by"); EvOut (Log INFO "Skipping non-CSV file")]
  /\ run offline (gcs_to_bq (Trigger "bkt" "notes.csv")) tt
     = Result (Raised malformed) tt
         [EvOut (Log INFO "Triggered by"); failure_log; completion_log].
Proof.
  split.
  - apply (proj1 (gcs_to_bq_early_exits offline tt
                    (Trigger "bkt" "sales-orders-create__data.CSV"))).
    reflexivity.
  - apply (proj1 (proj2 (gcs_to_bq_early_exits offline tt (Trigger "bkt" "notes.csv"))
                   eq_refl)).
    reflexivity.
Defined.

(** X11.  When the clients can be built, the project of the client and
    the dataset a name designates are plain identifiers, and every lookup
    of a dataset or a table either answers or reports [NotFound], the
    only exception [gcs_to_bq] raises is the [ValueError] of a name that
    does not parse: failures of the download, of the load job and of the
    queries never escape. *)
Theorem gcs_to_bq_raises_only_malformed {W : Type} (h : handler W) (I : W -> Prop)
    (w : W) (event : trigger) (proj : string) (e : exn) :
  respects I h (both dependable (project_is proj)) (fun _ => True) -> I w ->
  plain_id proj = true ->
  (forall d t m f, parse_filename (name event) = Returned (d, t, m, f) ->
                   plain_id d = true) ->
  outcome_of (run h (gcs_to_bq event) w) = Raised e ->
  parse_filename (name event) = Raised e /\ e = malformed.
Proof.
  intros Hboth Hw _ _ Hr.
  assert (Hh : respects I h dependable (fun _ => True)).
  { intros R c w0 Hw0 Hc. destruct (Hboth R c w0 Hw0 Hc) as [[A _] Hi]. auto. }
  destruct (guarantees_run I h dependable (fun _ => True)
              (fun o => forall e, o = Raised e -> failure_source dependable (name event) e)
              (gcs_to_bq event) w Hh Hw) as (_ & Q & _).
  { apply gcs_to_bq_guarantee; easy. }
  destruct (Q e Hr) as [H|[H|[H|[N [[ref H]|[ref H]]]]]].
  - split; [exact H|]. now apply parse_filename_raises_malformed with (name event).
  - destruct H as [a H]. discriminate.
  - destruct H as [a H]. discriminate.
  - destruct H as [[a H]|[= ->]]; [discriminate | contradiction].
  - destruct H as [[a H]|[= ->]]; [discriminate | contradiction].
Qed.

Lemma gcs_to_bq_raises_only_malformed_witness :
  parse_filename "notes.csv" = Raised (ValueError
    "Filename must be in format: dataset-table-mode__file.csv")
  /\ ValueError "Filename must be in format: dataset-table-mode__file.csv" = malformed.
Proof.
  apply (gcs_to_bq_raises_only_malformed Cloud.serve
           (fun w => Cloud.project w = "proj") empty_table_world
           (Trigger "bkt" "notes.csv") "proj").
  - apply respects_both; [|apply serve_project_is].
    intros R c w Hw Hc.
    split; [exact (proj1 (serve_dependable R c w Logic.I Logic.I)) | now rewrite serve_project].
  - reflexivity.
  - reflexivity.
  - intros d t m f [=].
  - reflexivity.
Defined.

(** X12.  An invocation reaches only what its file name designates: in
    the project of the client, every call of a run for a name that
    parses to dataset [d] and table [t] downloads and loads the
    triggering object itself, looks up or creates the dataset [d] and the
    table [d.t] only, and its queries are the row count of that table and
    a schema listing, never with a destination table. *)
Theorem gcs_to_bq_reach {W : Type} (h : handler W) (I : W -> Prop) (w : W)
    (event : trigger) (proj d t m f : string) :
  respects I h (project_is proj) (within (bucket event) (name event) proj d t) ->
  I w ->
  parse_filename (name event) = Returned (d, t, m, f) ->
  Forall (within (bucket event) (name event) proj d t)
    (trace_of (run h (gcs_to_bq event) w)).
Proof.
  intros Hh Hw Hparse.
  apply (guarantees_run I h (project_is proj) (within (bucket event) (name event) proj d t)
           (fun o => forall e, o = Raised e ->
              failure_source (project_is proj) (name event) e)
           (gcs_to_bq event) w Hh Hw).
  apply gcs_to_bq_guarantee; try easy.
  intros d' t' m' f' proj' Hparse' Hproj ev Hev.
  rewrite Hparse in Hparse'. injection Hparse' as <- <- <- <-.
  now rewrite <- (Hproj proj' eq_refl).
Qed.

Lemma gcs_to_bq_reach_witness :
  Forall (within "bkt" "sales-orders-replace__data.csv" "proj" "sales" "orders")
    (trace_of (run Cloud.serve (gcs_to_bq replace_event) replace_world)).
Proof.
  apply (gcs_to_bq_reach Cloud.serve (fun w => Cloud.project w = "proj") replace_world
           replace_event "proj" "sales" "orders" "replace" "data.csv").
  - apply serve_project_is.
  - reflexivity.
  - reflexivity.
Defined.


(** ** Execution of the cleaning plan *)

Lemma run_operations_log {W : Type} (h : handler W)
    (ops : list DataCleaner.cleaning_op) (w : W) :
  run h (operations_log ops) w
  = Result (Returned tt) w (map (fun _ => EvOut (Print "  column: operations")) ops).
Proof.
  induction ops as [|op ops IH]; cbn; [reflexivity|].
  unfold operations_log in IH. now rewrite IH.
Qed.

Lemma calls_app (tr1 tr2 : list event) : calls (tr1 ++ tr2) = calls tr1 ++ calls tr2.
Proof. apply List.filter_app. Qed.

Lemma calls_outputs {X : Type} (o : X -> output) (l : list X) :
  calls (map (fun x => EvOut (o x)) l) = [].
Proof. induction l as [|x l IH]; [reflexivity | exact IH]. Qed.

Lemma plan_needs_total_rows (fields : list string)
    (report : gmap string (gmap string Z)) (cfg : DataCleaner.config) :
  (forall f, f ∈ fields ->
     DataCleaner.stat (default ∅ (report !! f)) "total_rows" = 0) ->
  DataCleaner._determine_cleaning_operations fields report cfg = [].
Proof.
  induction fields as [|f fields IH]; intros H; [reflexivity|]. simpl.
  unfold DataCleaner.column_plan. rewrite (H f) by (apply elem_of_cons; now left).
  simpl. apply IH. intros g Hg. apply H. apply elem_of_cons. now right.
Qed.

Lemma execute_cleaning_operations_run {W : Type} (h : handler W) (w : W)
    (table_ref : string) (ops : list DataCleaner.cleaning_op) :
  let update := Query (SqlText (update_query table_ref ops)) None in
  let r := run h (_execute_cleaning_operations table_ref ops) w in
  calls (trace_of r) = [EvCall update]
  /\ outcome_of r = match (h _ update w).1 with
                    | Returned _ => Returned true
                    | Raised _ => Returned false
                    end.
Proof.
  intros update r. unfold r, _execute_cleaning_operations. fold update.
  clearbody update.
  cbn [mbind prog_bind bind emit run].
  rewrite run_mbind, run_operations_log. unfold extend.
  cbn [outcome_of world_of trace_of after].
  rewrite run_catch. unfold extend.
  cbn [mbind prog_bind bind perform emit run after outcome_of world_of trace_of].
  destruct (h _ update w).1 as [rows|e]; cbn [bind run after outcome_of trace_of];
    (split; [|reflexivity]).
  - change (calls (map (fun _ => EvOut (Print "  column: operations")) ops
                   ++ [EvCall update; EvOut (Print "Cleaning complete")])
            = [EvCall update]).
    now rewrite calls_app, calls_outputs.
  - change (calls (map (fun _ => EvOut (Print "  column: operations")) ops
                   ++ [EvCall update; EvOut (Print "Cleaning execution failed")])
            = [EvCall update]).
    now rewrite calls_app, calls_outputs.
Qed.

Section CleanerInputs.

Import CleanerInput.

Lemma column_plan_raises (config : config_dict)
    (quality_report : gmap string (option (gmap string Z))) (f : string) (e : exn) :
  column_plan config quality_report f = Raised e ->
  e = OtherError "AttributeError" \/ e = OtherError "KeyError".
Proof.
  unfold column_plan.
  destruct (default (Some ∅) (quality_report !! f)) as [stats|]; [|intros [= <-]; now left].
  destruct (DataCleaner.stat stats "total_rows" =? 0); [discriminate|].
  destruct (min_issue_percentage config) as [lo|]; cbn; [|intros [= <-]; now right].
  destruct (negb _); [discriminate|].
  destruct (max_empty_percentage config) as [hi|]; cbn; [|intros [= <-]; now right].
  destruct (negb _); [discriminate|].
  destruct (operations config) as [ops|]; cbn; [discriminate | intros [= <-]; now right].
Qed.

Lemma determine_raises (fields : list string)
    (quality_report : gmap string (option (gmap string Z))) (config : config_dict)
    (e : exn) :
  _determine_cleaning_operations fields quality_report config = Raised e ->
  e = OtherError "AttributeError" \/ e = OtherError "KeyError".
Proof.
  induction fields as [|f fields IH]; cbn; [discriminate|].
  destruct (column_plan config quality_report f) as [entry|e'] eqn:E; cbn.
  - destruct (_determine_cleaning_operations fields quality_report config); cbn;
      [discriminate | intros [= <-]; now apply IH].
  - intros [= <-]. now apply column_plan_raises in E.
Qed.

Lemma column_plan_complete (config : config_dict) (cfg : DataCleaner.config)
    (quality_report : gmap string (option (gmap string Z))) (f : string) :
  complete config = Some cfg ->
  quality_report !! f <> Some None ->
  column_plan config quality_report f
  = Returned (DataCleaner.column_plan cfg (dictionaries quality_report) f).
Proof.
  unfold complete, column_plan, DataCleaner.column_plan, dictionaries.
  destruct config as [[hi|] [lo|] [ops|] more]; cbn; try discriminate.
  intros [= <-] N. rewrite lookup_omap.
  destruct (quality_report !! f) as [[stats|]|]; cbn; [| contradiction |].
  - destruct (DataCleaner.stat stats "total_rows" =? 0); [reflexivity|].
    unfold DataCleaner.within_bounds. cbn.
    destruct (PrimFloat.leb lo _); cbn; [|reflexivity].
    destruct (PrimFloat.leb _ hi); cbn; reflexivity.
  - reflexivity.
Qed.

Lemma determine_complete (config : config_dict) (cfg : DataCleaner.config)
    (fields : list string) (quality_report : gmap string (option (gmap string Z))) :
  complete config = Some cfg ->
  Forall (fun f => quality_report !! f <> Some None) fields ->
  _determine_cleaning_operations fields quality_report config
  = Returned (DataCleaner._determine_cleaning_operations fields
                (dictionaries quality_report) cfg).
Proof.
  intros C. induction 1 as [|f fields N _ IH]; [reflexivity|]. cbn.
  rewrite (column_plan_complete _ _ _ _ C N), IH. cbn.
  now destruct (DataCleaner.column_plan cfg (dictionaries quality_report) f).
Qed.

(** A field without counts: its entry is missing, or a dictionary
    without a [total_rows] other than zero. *)
Lemma column_plan_skips (config : config_dict)
    (quality_report : gmap string (option (gmap string Z))) (f : string)
    (stats : gmap string Z) :
  default (Some ∅) (quality_report !! f) = Some stats ->
  DataCleaner.stat stats "total_rows" = 0 ->
  column_plan config quality_report f = Returned None.
Proof. unfold column_plan. intros -> ->. reflexivity. Qed.

Lemma determine_none_entry (config : config_dict)
    (quality_report : gmap string (option (gmap string Z)))
    (before : list string) (f : string) (rest : list string) :
  quality_report !! f = Some None ->
  Forall (fun g => exists stats,
            default (Some ∅) (quality_report !! g) = Some stats
            /\ DataCleaner.stat stats "total_rows" = 0) before ->
  _determine_cleaning_operations (before ++ f :: rest) quality_report config
  = Raised (OtherError "AttributeError").
Proof.
  intros E. induction 1 as [|g before (stats & D & Z0) _ IH]; cbn.
  - unfold column_plan. rewrite E. reflexivity.
  - rewrite (column_plan_skips _ _ _ _ D Z0). cbn. rewrite IH. reflexivity.
Qed.

End CleanerInputs.




(** ** The copy-based remediation: what it leaves alone *)

Lemma length_append (a b : string) :
  String.length (a +:+ b) = (String.length a + String.length b)%nat.
Proof. induction a as [|c a IH]; simpl; [reflexivity | now rewrite IH]. Qed.

Lemma copy_is_not_source (project_id dataset_id table_id timestamp : string) :
  table_reference project_id dataset_id (table_id +:+ "_cleaned_" +:+ timestamp)
  <> table_reference project_id dataset_id table_id.
Proof.
  intros E. apply (f_equal String.length) in E. unfold table_reference in E.
  rewrite !length_append in E. simpl in E. lia.
Qed.

Lemma scalar_leaves_source (Ans : answers) (p : CleanTable.payload)
    (rows : list row) (key : string) :
  guarantees Ans (leaves_source p) (fun _ => True) (CleanTable.scalar rows key).
Proof.
  unfold CleanTable.scalar. destruct rows as [|x rows]; simpl; [exact Logic.I|].
  destruct (x !! key) as [[n| |]|]; exact Logic.I.
Qed.

Lemma clean_bq_table_leaves_source_guarantee (Ans : answers) (p : CleanTable.payload) :
  guarantees Ans (leaves_source p) (fun _ => True) (CleanTable.clean_bq_table p).
Proof.
  unfold CleanTable.clean_bq_table.
  apply guarantees_bind with (Q1 := fun _ => True);
    [apply guarantees_perform; easy | | easy].
  intros _ _.
  apply guarantees_bind with (Q1 := fun _ => True); [simpl; easy | | easy].
  intros _ _.
  apply guarantees_catch with (Q1 := fun _ => True); [|easy|intros e _; simpl; easy].
  apply guarantees_bind with (Q1 := fun _ => True);
    [apply guarantees_perform; easy | | easy].
  intros tbl _.
  apply guarantees_bind with (Q1 := fun _ => True); [simpl; easy | | easy].
  intros _ _.
  destruct (num_rows tbl =? 0); [simpl; easy|].
  apply guarantees_bind with (Q1 := fun _ => True);
    [apply guarantees_perform; [left; now exists (schema tbl) | easy] | | easy].
  intros na_rows _.
  apply guarantees_bind with (Q1 := fun _ => True);
    [apply scalar_leaves_source | | easy].
  intros na_count _.
  apply guarantees_bind with (Q1 := fun _ => True); [simpl; easy | | easy].
  intros _ _.
  apply guarantees_bind with (Q1 := fun _ => True);
    [apply guarantees_perform; [now right | easy] | | easy].
  intros dup_rows _.
  apply guarantees_bind with (Q1 := fun _ => True);
    [apply scalar_leaves_source | | easy].
  intros dup_count _.
  apply guarantees_bind with (Q1 := fun _ => True); [simpl; easy | | easy].
  intros _ _.
  apply guarantees_bind with (Q1 := fun _ => True);
    [apply guarantees_perform; easy | | easy].
  intros timestamp _.
  do 4 (apply guarantees_bind with (Q1 := fun _ => True); [simpl; easy | | easy];
        intros _ _).
  apply guarantees_bind with (Q1 := fun _ => True); [| | easy].
  { apply guarantees_perform; [|easy]. split; [|split].
    - now exists (schema tbl), na_count, dup_count, (num_rows tbl).
    - now exists timestamp.
    - apply copy_is_not_source. }
  intros _ _.
  apply guarantees_bind with (Q1 := fun _ => True);
    [apply guarantees_perform; easy | | easy].
  intros final_table _. simpl. easy.
Qed.

(** X14.  Whatever the services answer, [clean_bq_table] never writes to
    its source table: besides building the client, looking tables up and
    reading the clock, it submits only the two counting queries over the
    source, without a destination, and the copy, a [SELECT] from the
    source whose destination is a table of the same project and dataset
    named [<table>_cleaned_<timestamp>], which differs from the source;
    it submits no load job, no other statement, and creates no
    dataset. *)
Theorem clean_bq_table_leaves_source {W : Type} (h : handler W) (w : W)
    (p : CleanTable.payload) :
  Forall (leaves_source p) (trace_of (run h (CleanTable.clean_bq_table p) w)).
Proof.
  apply (guarantees_run (fun _ => True) h any_answer (leaves_source p) (fun _ => True)
           (CleanTable.clean_bq_table p) w).
  - intros R c w' _ _. split; exact Logic.I.
  - exact Logic.I.
  - apply clean_bq_table_leaves_source_guarantee.
Qed.

(** X15.  [clean_bq_table] on an empty table returns after the table
    lookup, without any query; when the table lookup raises, it prints
    the error and raises the same exception, again without any query. *)
Theorem clean_bq_table_early_exits {W : Type} (h : handler W) (w : W)
    (p : CleanTable.payload) (project : string) :
  let source_table :=
    table_reference (CleanTable.project_id p) (CleanTable.dataset_id p)
      (CleanTable.table_id p) in
  let client := h _ BigQueryClient w in
  let lookup := h _ (GetTable source_table) client.2 in
  let r := run h (CleanTable.clean_bq_table p) w in
  client.1 = Returned project ->
  (forall tbl, lookup.1 = Returned tbl -> num_rows tbl = 0 ->
     r = Result (Returned tt) lookup.2
           [EvCall BigQueryClient; EvOut (Print "Cleaning table");
            EvCall (GetTable source_table); EvOut (Print "Total rows");
            EvOut (Print "Table is empty, skipping cleaning")])
  /\ (forall e, lookup.1 = Raised e ->
        r = Result (Raised e) lookup.2
              [EvCall BigQueryClient; EvOut (Print "Cleaning table");
               EvCall (GetTable source_table); EvOut (Print "Error cleaning table")]).
Proof.
  intros source_table client lookup r C. unfold r, CleanTable.clean_bq_table.
  fold source_table. cbn [mbind prog_bind bind perform emit run catch].
  fold client. rewrite C. cbn [bind catch run]. fold lookup. split.
  - intros tbl L Z0. rewrite L. cbn [bind catch]. rewrite Z0. reflexivity.
  - intros e L. rewrite L. reflexivity.
Qed.

Lemma clean_bq_table_early_exits_witness :
  run (survey 0 0 0) (CleanTable.clean_bq_table orders_payload) tt
  = Result (Returned tt) tt
      [EvCall BigQueryClient; EvOut (Print "Cleaning table");
       EvCall (GetTable "proj.sales.orders"); EvOut (Print "Total rows");
       EvOut (Print "Table is empty, skipping cleaning")].
Proof.
  apply (proj1 (clean_bq_table_early_exits (survey 0 0 0) tt orders_payload "proj"
                  eq_refl) (mkTable 0 ["id"; "email"])); reflexivity.
Defined.


(** ** From the uploader to the router *)

Section UploadRoundTrip.

#[local] Arguments Ascii.eqb : simpl never.

Lemma append_assoc (a b c : string) : (a +:+ b) +:+ c = a +:+ (b +:+ c).
Proof. induction a as [|x a IH]; simpl; [reflexivity | now rewrite IH]. Qed.

Lemma strip_prefix_cons (a b : ascii) (p s : string) :
  Str.strip_prefix (String a p) (String b s)
  = if Ascii.eqb a b then Str.strip_prefix p s else None.
Proof. reflexivity. Qed.

Lemma partition_double_underscore (a b : string) :
  has_double_underscore a = false -> ends_with_underscore a = false ->
  Str.partition "__" (a +:+ "__" +:+ b) = Some (a, b).
Proof.
  induction a as [|c a IH]; intros H E; [reflexivity|].
  change (String c a +:+ "__" +:+ b) with (String c (a +:+ "__" +:+ b)).
  rewrite StrFacts.partition_eq.
  assert (S : Str.strip_prefix "__" (String c (a +:+ "__" +:+ b)) = None).
  { rewrite strip_prefix_cons.
    destruct (Ascii.eqb_spec "_" c) as [<-|N]; [|reflexivity].
    destruct a as [|c' a].
    - exfalso. revert E. vm_compute. discriminate.
    - change (String c' a +:+ "__" +:+ b) with (String c' (a +:+ "__" +:+ b)).
      rewrite strip_prefix_cons.
      destruct (Ascii.eqb_spec "_" c') as [<-|N']; [|reflexivity].
      exfalso. revert H. cbn [has_double_underscore]. rewrite Ascii.eqb_refl.
      simpl. discriminate. }
  rewrite S. cbv iota.
  rewrite IH; [reflexivity | |].
  - cbn [has_double_underscore] in H. now apply orb_false_iff in H as [_ H].
  - destruct a as [|c' a]; [reflexivity | exact E].
Qed.

Lemma has_double_underscore_app (x y : string) (c : ascii) :
  Ascii.eqb c "_" = false ->
  has_double_underscore (x +:+ String c y)
  = has_double_underscore x || has_double_underscore y.
Proof.
  intros C. induction x as [|a x IH].
  - simpl. now rewrite C.
  - change (String a x +:+ String c y) with (String a (x +:+ String c y)).
    cbn [has_double_underscore]. rewrite IH. destruct x as [|b x]; simpl.
    + rewrite C. now rewrite andb_false_r.
    + now rewrite orb_assoc.
Qed.

Lemma ends_with_underscore_app (x y : string) :
  y <> EmptyString -> ends_with_underscore (x +:+ y) = ends_with_underscore y.
Proof.
  intros N. induction x as [|a x IH]; [reflexivity|]. simpl.
  destruct (x +:+ y) eqn:E; [|exact IH].
  destruct x, y; simpl in E; congruence.
Qed.

Lemma split_length_app (c : ascii) (x y : string) :
  length (Str.split c (x +:+ String c y))
  = (length (Str.split c x) + length (Str.split c y))%nat.
Proof.
  induction x as [|a x IH]; simpl.
  - now rewrite Ascii.eqb_refl.
  - destruct (Ascii.eqb a c); simpl; [now rewrite IH|].
    destruct (Str.split c (x +:+ String c y)) as [|u us] eqn:E1;
      [now apply StrFacts.split_not_nil in E1|].
    destruct (Str.split c x) as [|v vs] eqn:E2;
      [now apply StrFacts.split_not_nil in E2|].
    simpl in *. exact IH.
Qed.

Lemma split_length_contains (c : ascii) (x : string) :
  Str.contains_char c x = true -> (2 <= length (Str.split c x))%nat.
Proof.
  induction x as [|a x IH]; simpl; [discriminate|].
  destruct (Ascii.eqb a c); simpl.
  - intros _. pose proof (StrFacts.split_not_nil c x).
    destruct (Str.split c x); [contradiction | simpl; lia].
  - intros H. specialize (IH H). destruct (Str.split c x); simpl in *; lia.
Qed.

Lemma split_length_pos (c : ascii) (x : string) : (1 <= length (Str.split c x))%nat.
Proof.
  pose proof (StrFacts.split_not_nil c x).
  destruct (Str.split c x); [contradiction | simpl; lia].
Qed.

Lemma ends_with_csv_after_underscore (x f : string) :
  Str.ends_with ".csv" (x +:+ String "_" f) = Str.ends_with ".csv" f.
Proof.
  assert (N : forall s, Str.contains_char "_" s = true -> String.eqb ".csv" s = false).
  { intros s Hs. destruct (String.eqb_spec ".csv" s) as [<-|]; [|reflexivity].
    vm_compute in Hs. discriminate Hs. }
  induction x as [|a x IH].
  - change (EmptyString +:+ String "_" f) with (String "_" f).
    cbn [Str.ends_with]. rewrite N; [reflexivity|].
    cbn [Str.contains_char]. now rewrite Ascii.eqb_refl.
  - change (String a x +:+ String "_" f) with (String a (x +:+ String "_" f)).
    cbn [Str.ends_with]. rewrite IH, N; [reflexivity|].
    cbn [Str.contains_char]. apply orb_true_iff. right.
    clear. induction x as [|b x IH]; [reflexivity|].
    change (String b x +:+ String "_" f) with (String b (x +:+ String "_" f)).
    cbn [Str.contains_char]. rewrite IH. apply orb_true_r.
Qed.

Lemma accepted_mode_Some (answer mode : string) :
  Uploader.accepted_mode answer = Some mode -> mode = "create" \/ mode = "append".
Proof.
  unfold Uploader.accepted_mode. case_bool_decide as H; [|discriminate].
  intros [= <-]. rewrite !elem_of_cons in H.
  destruct H as [H|[H|H]]; [now left | now right | inversion H].
Qed.

End UploadRoundTrip.

(** X16.  What the uploader composes, the router takes apart.
    [upload_csv], its clients answering, reaches the upload exactly when
    the local file exists and the mode typed, stripped and lowercased, is
    [create] or [append]; the
    name it uploads under is composed of the dataset and table names
    typed, of that mode and of the base name of the local file.  When
    the two names have no double underscore, [parse_filename] takes that
    name apart into the same dataset, table, mode and base name,
    provided neither name has a dash; a dash in the dataset or table
    name, which the uploader accepts, makes the router reject the name.
    The uploaded name ends in [.csv] exactly when the local base name
    does. *)
Theorem upload_then_parse (local_file_answer : string) (file_exists : bool)
    (dataset_answer table_answer mode_answer : string) :
  let dataset := Str.strip dataset_answer in
  let table := Str.strip table_answer in
  let mode := Str.lower (Str.strip mode_answer) in
  let actual_file := Uploader.basename (Str.strip local_file_answer) in
  let name := Uploader.trigger_filename dataset table mode actual_file in
  Uploader.upload_csv local_file_answer file_exists dataset_answer table_answer mode_answer
  = (if file_exists && bool_decide (mode ∈ ["create"; "append"]) then Some name else None)
  /\ (mode = "create" \/ mode = "append" ->
      has_double_underscore dataset = false -> has_double_underscore table = false ->
      parse_filename name
      = (if Str.contains_char "-" dataset || Str.contains_char "-" table
         then Raised malformed
         else Returned (dataset, table, mode, actual_file))
      /\ Str.ends_with ".csv" name = Str.ends_with ".csv" actual_file).
Proof.
  intros dataset table mode actual_file name. split.
  { unfold Uploader.upload_csv, Uploader.accepted_mode.
    fold dataset table actual_file mode.
    destruct file_exists; [|reflexivity]. cbn [negb andb].
    case_bool_decide; reflexivity. }
  intros M Hd Ht. unfold name. clear name.
  set (meta := dataset +:+ "-" +:+ table +:+ "-" +:+ mode).
  assert (Hname : Uploader.trigger_filename dataset table mode actual_file
                  = meta +:+ "__" +:+ actual_file).
  { unfold Uploader.trigger_filename, meta. now rewrite !append_assoc. }
  assert (Hm : has_double_underscore mode = false /\ ends_with_underscore mode = false
               /\ mode <> EmptyString /\ Str.contains_char "-" mode = false
               /\ Str.lower mode = mode).
  { destruct M as [E | E]; rewrite E; repeat split; try reflexivity; discriminate. }
  destruct Hm as (Hm1 & Hm2 & Hm3 & Hm4 & Hm5).
  assert (P : Str.partition "__" (meta +:+ "__" +:+ actual_file) = Some (meta, actual_file)).
  { apply partition_double_underscore.
    - unfold meta.
      change (dataset +:+ "-" +:+ table +:+ "-" +:+ mode)
        with (dataset +:+ String "-" (table +:+ String "-" mode)).
      rewrite !has_double_underscore_app by reflexivity.
      now rewrite Hd, Ht, Hm1.
    - unfold meta.
      replace (dataset +:+ "-" +:+ table +:+ "-" +:+ mode)
        with ((dataset +:+ "-" +:+ table +:+ "-") +:+ mode)
        by now rewrite !append_assoc.
      now rewrite ends_with_underscore_app. }
  split.
  - rewrite Hname.
    destruct (Str.contains_char "-" dataset || Str.contains_char "-" table) eqn:D.
    + unfold parse_filename, Str.split1. rewrite P.
      assert (L : (4 <= length (Str.split "-" meta))%nat).
      { unfold meta.
        change (dataset +:+ "-" +:+ table +:+ "-" +:+ mode)
          with (dataset +:+ String "-" (table +:+ String "-" mode)).
        rewrite !split_length_app.
        pose proof (split_length_pos "-" dataset). pose proof (split_length_pos "-" table).
        pose proof (split_length_pos "-" mode).
        apply orb_true_iff in D as [D|D]; apply split_length_contains in D; lia. }
      destruct (Str.split "-" meta) as [|x [|y [|z [|? ?]]]]; simpl in L;
        first [reflexivity | lia].
    + apply orb_false_iff in D as [D1 D2].
      rewrite (parse_filename_accepts _ dataset table mode actual_file);
        [now rewrite Hm5|].
      split; [exact D1|]. split; [exact D2|]. split; [exact Hm4|].
      apply StrFacts.partition_leftmost. exact P.
  - rewrite Hname.
    change (meta +:+ "__" +:+ actual_file) with (meta +:+ String "_" (String "_" actual_file)).
    rewrite ends_with_csv_after_underscore.
    apply (ends_with_csv_after_underscore EmptyString).
Qed.

Lemma upload_then_parse_witness :
  Uploader.upload_csv " /tmp/in/data.csv" true "sales " "orders" " Append "
  = Some "sales-orders-append__data.csv"
  /\ parse_filename "sales-orders-append__data.csv"
     = Returned ("sales", "orders", "append", "data.csv")
  /\ Str.ends_with ".csv" "sales-orders-append__data.csv" = Str.ends_with ".csv" "data.csv".
Proof.
  split.
  - apply (proj1 (upload_then_parse " /tmp/in/data.csv" true "sales " "orders" " Append ")).
  - apply (proj2 (upload_then_parse " /tmp/in/data.csv" true "sales " "orders" " Append "));
      [now right | reflexivity | reflexivity].
Defined.


(** ** The quality analyzer *)

Section QualityAnalysis.

Import DataQualityAnalyzer.

(** A program that is guaranteed to make no event is finished. *)
Lemma run_silent {W A : Type} (Ans : answers) (Q : outcome A -> Prop) (p : prog A)
    (h : handler W) (w : W) :
  guarantees Ans no_event Q p -> exists o, run h p w = Result o w [] /\ Q o.
Proof.
  destruct p as [a|e|o k|R c k]; simpl.
  - intros H. now exists (Returned a).
  - intros H. now exists (Raised e).
  - intros [[] _].
  - intros [[] _].
Qed.

Lemma attribute_silent (Ans : answers) (results : row) (key : string) :
  guarantees Ans no_event (fun _ => True) (DataValidator.attribute results key).
Proof. unfold DataValidator.attribute. destruct (results !! key); exact Logic.I. Qed.

Lemma percent_silent (Ans : answers) (results : row) (key : string) :
  guarantees Ans no_event (fun _ => True) (percent results key).
Proof.
  unfold percent.
  apply guarantees_bind with (Q1 := fun _ => True); [apply attribute_silent | | easy].
  intros count _.
  apply guarantees_bind with (Q1 := fun _ => True); [apply attribute_silent | | easy].
  intros total _. destruct count, total; try exact Logic.I.
  unfold true_div. destruct (_ =? 0); exact Logic.I.
Qed.

Lemma column_summary_silent (Ans : answers) (results : row) :
  guarantees Ans no_event
    (fun o => forall a, o = Returned a -> dom a = analysis_keys)
    (column_summary results).
Proof.
  unfold column_summary.
  do 3 (apply guarantees_bind with (Q1 := fun _ => True);
        [apply percent_silent | | discriminate]; intros ? _).
  do 3 (apply guarantees_bind with (Q1 := fun _ => True);
        [apply attribute_silent | | discriminate]; intros ? _).
  simpl. intros ? [= <-]. rewrite !dom_insert_L, dom_singleton_L.
  unfold analysis_keys. set_solver.
Qed.

Context {W : Type} (h : handler W).

Lemma analyze_column_body_run (table_ref column_name : string) (w : W) :
  let q := Query (SqlText (column_query table_ref column_name)) None in
  exists o,
    run h (analyze_column_body table_ref column_name) w
    = Result o (h _ q w).2 [EvCall q]
    /\ o <> Returned None
    /\ (forall a, o = Returned (Some a) -> dom a = analysis_keys)
    /\ (forall e, (h _ q w).1 = Raised e -> o = Raised e).
Proof.
  intros q. unfold analyze_column_body. fold q. clearbody q.
  cbn [mbind prog_bind bind perform run].
  destruct (h _ q w).1 as [[|results rows]|e]; cbn [DataValidator.first_row bind].
  - exists (Raised IndexError). repeat split; discriminate.
  - destruct (run_silent any_answer _ (column_summary results) h (h _ q w).2
                (column_summary_silent any_answer results)) as (o & E & Ho).
    rewrite run_mbind. unfold extend. cbn [run outcome_of world_of trace_of].
    rewrite run_mbind, E. unfold extend. cbn [outcome_of world_of trace_of].
    destruct o as [a|e]; cbn.
    + exists (Returned (Some a)). repeat split; try discriminate.
      intros a' [= <-]. now apply Ho.
    + exists (Raised e). repeat split; discriminate.
  - exists (Raised e). repeat split; try discriminate. now intros e' [= <-].
Qed.

(** The run of [_analyze_column]: one query, and an answer whatever the
    query gave. *)
Lemma analyze_column_run (table_ref column_name : string) (w : W) :
  let q := Query (SqlText (column_query table_ref column_name)) None in
  exists x tr,
    run h (_analyze_column table_ref column_name) w
    = Result (Returned x) (h _ q w).2 (EvCall q :: tr)
    /\ calls tr = []
    /\ (forall a, x = Some a -> dom a = analysis_keys)
    /\ (forall e, (h _ q w).1 = Raised e -> x = None).
Proof.
  intros q. unfold _analyze_column. rewrite run_catch.
  destruct (analyze_column_body_run table_ref column_name w) as (o & E & N & K & F).
  fold q in E, F. rewrite E. unfold extend. cbn [outcome_of world_of trace_of].
  destruct o as [[a|]|e]; cbn.
  - exists (Some a), []. split; [reflexivity|]. split; [reflexivity|]. split.
    + intros a' [= <-]. now apply K.
    + intros e He. specialize (F e He). discriminate.
  - contradiction.
  - exists None, [EvOut (Log ERROR "Column analysis failed")].
    split; [reflexivity|]. split; [reflexivity|]. split; [discriminate | reflexivity].
Qed.

Lemma attribute_run (results : row) (key : string) (w : W) :
  run h (DataValidator.attribute results key) w
  = Result (match results !! key with
            | Some c => Returned c
            | None => Raised (OtherError "AttributeError")
            end) w [].
Proof. unfold DataValidator.attribute. now destruct (results !! key). Qed.

Lemma percent_run (results : row) (key : string) (w : W) :
  exists o,
    run h (percent results key) w = Result o w []
    /\ match percent_of results key with
       | Some x => o = Returned x
       | None => exists e, o = Raised e
       end.
Proof.
  unfold percent, percent_of, count_of, DataValidator.attribute, true_div.
  destruct (results !! key) as [[n| |]|];
    destruct (results !! "total_rows") as [[t| |]|]; cbn;
    try (eexists; split; [reflexivity | eauto]).
  destruct (t =? 0); cbn; eexists; split; try reflexivity; eauto.
Qed.

Lemma column_summary_run (results : row) (w : W) :
  exists o,
    run h (column_summary results) w = Result o w []
    /\ match column_analysis (Returned [results]) with
       | Some a => o = Returned a
       | None => exists e, o = Raised e
       end.
Proof.
  unfold column_summary, column_analysis.
  destruct (percent_run results "non_null_count" w) as (o1 & E1 & H1).
  rewrite run_mbind, E1. unfold extend. cbn [outcome_of world_of trace_of].
  destruct (percent_of results "non_null_count") as [x1|];
    [subst o1 | destruct H1 as [e ->]; eexists; split; [reflexivity | eauto]].
  destruct (percent_run results "empty_string_count" w) as (o2 & E2 & H2).
  rewrite run_mbind, E2. unfold extend. cbn [outcome_of world_of trace_of].
  destruct (percent_of results "empty_string_count") as [x2|];
    [subst o2 | destruct H2 as [e ->]; eexists; split; [reflexivity | eauto]].
  destruct (percent_run results "whitespace_only_count" w) as (o3 & E3 & H3).
  rewrite run_mbind, E3. unfold extend. cbn [outcome_of world_of trace_of].
  destruct (percent_of results "whitespace_only_count") as [x3|];
    [subst o3 | destruct H3 as [e ->]; eexists; split; [reflexivity | eauto]].
  rewrite run_mbind, attribute_run. unfold extend. cbn [outcome_of world_of trace_of].
  destruct (results !! "distinct_values") as [d|];
    [| eexists; split; [reflexivity | eauto]].
  rewrite run_mbind, attribute_run. unfold extend. cbn [outcome_of world_of trace_of].
  destruct (results !! "min_length") as [lo|];
    [| eexists; split; [reflexivity | eauto]].
  rewrite run_mbind, attribute_run. unfold extend. cbn [outcome_of world_of trace_of].
  destruct (results !! "max_length") as [hi|];
    [| eexists; split; [reflexivity | eauto]].
  eexists. split; reflexivity.
Qed.

(** What [_analyze_column] returns is the analysis of the answer to its
    query. *)
Lemma analyze_column_outcome (table_ref column_name : string) (w : W) :
  let q := Query (SqlText (column_query table_ref column_name)) None in
  let r := run h (_analyze_column table_ref column_name) w in
  outcome_of r = Returned (column_analysis (h _ q w).1) /\ world_of r = (h _ q w).2.
Proof.
  intros q r. unfold r, _analyze_column, analyze_column_body. fold q. clearbody q.
  rewrite run_catch. unfold extend.
  cbn [mbind prog_bind bind perform run after outcome_of world_of trace_of].
  destruct (h _ q w).1 as [[|results rows]|e];
    cbn [DataValidator.first_row mbind prog_bind bind run after
         outcome_of world_of trace_of];
    [split; reflexivity | | split; reflexivity].
  destruct (column_summary_run results (h _ q w).2) as (o & E & H).
  change (column_analysis (Returned (results :: rows)))
    with (column_analysis (Returned [results])).
  rewrite run_mbind, E. unfold extend. cbn [outcome_of world_of trace_of].
  destruct (column_analysis (Returned [results])) as [a|].
  - subst o. split; reflexivity.
  - destruct H as [e ->]. split; reflexivity.
Qed.

Lemma expected_analyses_lookup (table_ref : string) (c : string) (cols : list string)
    (report : gmap string (option (gmap string metric))) (w : W) :
  (forall w', column_analysis
                (h _ (Query (SqlText (column_query table_ref c)) None) w').1 = None) ->
  expected_analyses h table_ref cols report w !! c
  = if bool_decide (c ∈ cols) then Some None else report !! c.
Proof.
  intros F. revert report w. induction cols as [|col cols IH]; intros report w.
  - reflexivity.
  - cbn [expected_analyses]. rewrite IH.
    destruct (decide (c = col)) as [->|N].
    + rewrite lookup_insert_eq, F.
      rewrite (bool_decide_eq_true_2 (col ∈ col :: cols)) by (apply elem_of_cons; now left).
      now destruct (bool_decide (col ∈ cols)).
    + rewrite lookup_insert_ne by congruence.
      case_bool_decide as H1; case_bool_decide as H2; try reflexivity.
      * exfalso. apply H2, elem_of_cons. now right.
      * exfalso. apply elem_of_cons in H2 as [H2|H2]; [congruence | contradiction].
Qed.

Lemma calls_cons_call {R : Type} (c : call R) (tr : list event) :
  calls (EvCall c :: tr) = EvCall c :: calls tr.
Proof. reflexivity. Qed.

Lemma analyze_columns_run (table_ref : string) (cols : list string)
    (report : gmap string (option (gmap string metric))) (w : W) :
  exists m,
    outcome_of (run h (analyze_columns table_ref cols report) w) = Returned m
    /\ dom m = dom report ∪ list_to_set cols
    /\ calls (trace_of (run h (analyze_columns table_ref cols report) w))
       = column_queries table_ref cols
    /\ (forall c a, m !! c = Some (Some a) ->
          report !! c = Some (Some a) \/ dom a = analysis_keys)
    /\ m = expected_analyses h table_ref cols report w.
Proof.
  revert report w. induction cols as [|col cols IH]; intros report w.
  - exists report. simpl. split; [reflexivity|].
    split; [|split; [reflexivity | split; [auto | reflexivity]]].
    symmetry. apply (right_id_L ∅ (∪)).
  - cbn [analyze_columns expected_analyses]. rewrite run_mbind.
    destruct (analyze_column_run table_ref col w) as (x & tr & E & C & K & _).
    destruct (analyze_column_outcome table_ref col w) as [X _].
    rewrite E in X. cbn [outcome_of] in X. injection X as X. rewrite <- X.
    rewrite E. unfold extend. cbn [outcome_of world_of trace_of].
    destruct (IH (<[col := x]> report) (h _ (Query (SqlText (column_query table_ref col))
                                                None) w).2)
      as (m & O & D & T & A & M).
    exists m. split; [exact O|]. split; [|split; [|split; [|exact M]]].
    + rewrite D, dom_insert_L. rewrite list_to_set_cons.
      apply leibniz_equiv, set_equiv. intros y. rewrite !elem_of_union. tauto.
    + rewrite calls_app, calls_cons_call, C, T. reflexivity.
    + intros c a Hc. destruct (A c a Hc) as [Hr|Hk]; [|now right].
      destruct (decide (c = col)) as [->|N].
      * rewrite lookup_insert_eq in Hr. injection Hr as ->. right. now apply K.
      * rewrite lookup_insert_ne in Hr by congruence. now left.
Qed.

End QualityAnalysis.



Section CleanerAfterAnalyzer.

Variable columns : gmap string (option (gmap string DataQualityAnalyzer.metric)).
Hypothesis analyses :
  forall c a, columns !! c = Some (Some a) -> dom a = DataQualityAnalyzer.analysis_keys.

Lemma total_rows_not_analysed : "total_rows" ∉ DataQualityAnalyzer.analysis_keys.
Proof.
  unfold DataQualityAnalyzer.analysis_keys. rewrite !elem_of_union, !elem_of_singleton.
  intros [[[[N|N]|N]|N]|N]; discriminate N.
Qed.

(** A requested field whose analysis did not fail has no rows counted. *)
Lemma analysis_has_no_total (f : string) :
  columns !! f <> Some None ->
  exists stats, default (Some ∅) (analyses_as_report columns !! f) = Some stats
                /\ DataCleaner.stat stats "total_rows" = 0.
Proof.
  intros N. unfold analyses_as_report. rewrite lookup_fmap.
  destruct (columns !! f) as [[a|]|] eqn:E; cbn; [| contradiction |].
  - eexists. split; [reflexivity|]. unfold DataCleaner.stat, analysis_counts.
    rewrite lookup_omap.
    destruct (a !! "total_rows") as [m|] eqn:T; [|reflexivity].
    exfalso. apply total_rows_not_analysed. rewrite <- (analyses f a E).
    apply elem_of_dom. now exists m.
  - exists ∅. split; reflexivity.
Qed.

Lemma determine_analyses (fields : list string) (config : CleanerInput.config_dict) :
  (Forall (fun f => columns !! f <> Some None) fields ->
   CleanerInput._determine_cleaning_operations fields (analyses_as_report columns) config
   = Returned [])
  /\ (Exists (fun f => columns !! f = Some None) fields ->
      CleanerInput._determine_cleaning_operations fields (analyses_as_report columns) config
      = Raised (OtherError "AttributeError")).
Proof.
  induction fields as [|f fields [IH1 IH2]]; split.
  - reflexivity.
  - intros H. inversion H.
  - intros H. apply Forall_cons in H as [N H].
    destruct (analysis_has_no_total f N) as (stats & D & Z0).
    cbn. rewrite (column_plan_skips _ _ _ _ D Z0). cbn. now rewrite (IH1 H).
  - intros H.
    assert (C : columns !! f = Some None \/ columns !! f <> Some None).
    { destruct (columns !! f) as [[a|]|];
        [right; discriminate | now left | right; discriminate]. }
    destruct C as [E|N].
    + cbn. unfold CleanerInput.column_plan, analyses_as_report.
      rewrite lookup_fmap, E. reflexivity.
    + destruct (analysis_has_no_total f N) as (stats & D & Z0).
      cbn. rewrite (column_plan_skips _ _ _ _ D Z0). cbn.
      apply Exists_cons in H as [H|H]; [contradiction|]. now rewrite (IH2 H).
Qed.

End CleanerAfterAnalyzer.

(** X18.  The cleaner cannot use what the analyzer reports.  An analysis
    of [_analyze_column] has no [total_rows] entry; so, given the column
    analyses of a report of the analyzer, [perform_smart_cleaning] finds
    nothing to clean, whatever the configuration: when no requested
    field has a failed analysis it returns [True] without any query, and
    when one has it raises an [AttributeError] before any query. *)
Theorem cleaner_ignores_analyses {W : Type} (h : handler W) (w : W)
    (table_ref : string) (fields : list string)
    (columns : gmap string (option (gmap string DataQualityAnalyzer.metric)))
    (config : option CleanerInput.config_dict) :
  let r := run h (perform_smart_cleaning table_ref fields (analyses_as_report columns)
                    config) w in
  ("total_rows" ∉ DataQualityAnalyzer.analysis_keys)
  /\ ((forall c a, columns !! c = Some (Some a) ->
         dom a = DataQualityAnalyzer.analysis_keys) ->
      (Forall (fun f => columns !! f <> Some None) fields ->
       r = Result (Returned true) w
             [EvOut (Print "Analyzing cleaning requirements...");
              EvOut (Print "No cleaning needed - data quality is acceptable!")])
      /\ (Exists (fun f => columns !! f = Some None) fields ->
          r = Result (Raised (OtherError "AttributeError")) w
                [EvOut (Print "Analyzing cleaning requirements...")])).
Proof.
  intros r. split; [exact total_rows_not_analysed|]. intros H.
  destruct (determine_analyses columns H fields (CleanerInput.effective config))
    as [D1 D2].
  unfold r, perform_smart_cleaning. split; intros F.
  - rewrite (D1 F). reflexivity.
  - rewrite (D2 F). reflexivity.
Qed.

Lemma cleaner_ignores_analyses_witness :
  let analysis : gmap string DataQualityAnalyzer.metric :=
    {[ "non_null_pct" := DataQualityAnalyzer.MFloat 100;
       "empty_pct" := DataQualityAnalyzer.MFloat 3;
       "whitespace_pct" := DataQualityAnalyzer.MFloat 0;
       "distinct_values" := DataQualityAnalyzer.MCell (CInt 97);
       "length_range" := DataQualityAnalyzer.MRange (CInt 0) (CInt 40) ]} in
  let columns : gmap string (option (gmap string DataQualityAnalyzer.metric)) :=
    {[ "email" := Some analysis; "name" := None ]} in
  run obliging (perform_smart_cleaning "proj.sales.orders" ["email"]
                  (analyses_as_report columns) None) tt
  = Result (Returned true) tt
      [EvOut (Print "Analyzing cleaning requirements...");
       EvOut (Print "No cleaning needed - data quality is acceptable!")]
  /\ run obliging (perform_smart_cleaning "proj.sales.orders" ["email"; "name"]
                     (analyses_as_report columns) None) tt
     = Result (Raised (OtherError "AttributeError")) tt
         [EvOut (Print "Analyzing cleaning requirements...")].
Proof.
  intros analysis columns.
  assert (H : forall c a, columns !! c = Some (Some a) ->
                          dom a = DataQualityAnalyzer.analysis_keys).
  { intros c a E. unfold columns in E.
    destruct (decide (c = "email")) as [->|N1].
    - rewrite lookup_insert_eq in E. injection E as <-. vm_compute. reflexivity.
    - rewrite lookup_insert_ne in E by congruence.
      apply lookup_singleton_Some in E as [_ E]. discriminate. }
  split.
  - apply (proj1 (proj2 (cleaner_ignores_analyses obliging tt "proj.sales.orders"
                           ["email"] columns None) H)).
    repeat constructor. vm_compute. discriminate.
  - apply (proj2 (proj2 (cleaner_ignores_analyses obliging tt "proj.sales.orders"
                           ["email"; "name"] columns None) H)).
    apply Exists_cons. right. apply Exists_cons. left. vm_compute. reflexivity.
Defined.


(** ** At most one load job *)

Section LoadBudget.

Lemma load_budget_mono {A : Type} (n m : nat) (p : prog A) :
  (n <= m)%nat -> load_budget n p -> load_budget m p.
Proof.
  revert n m. induction p as [a|e|o k IH|R c k IH]; intros n m L; cbn [load_budget]; auto.
  - apply IH, L.
  - destruct (is_load_submission (EvCall c)).
    + destruct n as [|n]; [easy|]. destruct m as [|m]; [lia|].
      intros H r. apply (IH r n m); [lia | apply H].
    + intros H r. apply (IH r n m L), H.
Qed.

Lemma load_budget_bind {A B : Type} (n m : nat) (p : prog A) (f : A -> prog B) :
  load_budget n p -> (forall a, load_budget m (f a)) ->
  load_budget (n + m) (p ≫= f).
Proof.
  rewrite bind_eq. intros Hp Hf. revert n Hp.
  induction p as [a|e|o k IH|R c k IH]; intros n Hp; cbn [load_budget bind catch finally] in *; auto.
  - apply load_budget_mono with m; [lia | apply Hf].
  - destruct (is_load_submission (EvCall c)).
    + destruct n as [|n]; [easy|]. intros r. apply (IH r n), Hp.
    + intros r. apply (IH r n), Hp.
Qed.

Lemma load_budget_catch {A : Type} (n m : nat) (p : prog A) (k : exn -> prog A) :
  load_budget n p -> (forall e, load_budget m (k e)) ->
  load_budget (n + m) (catch p k).
Proof.
  intros Hp Hk. revert n Hp.
  induction p as [a|e|o k' IH|R c k' IH]; intros n Hp; cbn [load_budget bind catch finally] in *; auto.
  - apply load_budget_mono with m; [lia | apply Hk].
  - destruct (is_load_submission (EvCall c)).
    + destruct n as [|n]; [easy|]. intros r. apply (IH r n), Hp.
    + intros r. apply (IH r n), Hp.
Qed.

Lemma load_budget_finally {A : Type} (n : nat) (p : prog A) (f : prog unit) :
  load_budget n p -> load_budget 0 f -> load_budget n (finally p f).
Proof.
  intros Hp Hf. revert n Hp.
  induction p as [a|e|o k IH|R c k IH]; intros n Hp; cbn [load_budget bind catch finally] in *; auto.
  - apply load_budget_mono with (0 + 0)%nat; [lia|].
    apply (load_budget_bind 0 0 f (fun _ => Ret a)); easy.
  - apply load_budget_mono with (0 + 0)%nat; [lia|].
    apply (load_budget_bind 0 0 f (fun _ => Raise e)); easy.
  - destruct (is_load_submission (EvCall c)).
    + destruct n as [|n]; [easy|]. intros r. apply (IH r n), Hp.
    + intros r. apply (IH r n), Hp.
Qed.

(** A program whose every event is no load submission has budget zero. *)
Lemma guarantees_load_budget {A : Type} (P : event -> Prop) (Q : outcome A -> Prop)
    (p : prog A) :
  (forall ev, P ev -> is_load_submission ev = false) ->
  guarantees any_answer P Q p -> load_budget 0 p.
Proof.
  intros HP. induction p as [a|e|o k IH|R c k IH]; cbn [load_budget guarantees]; auto.
  - intros [_ H]. auto.
  - intros [H1 H2]. rewrite (HP _ H1). intros r. apply IH, H2. exact Logic.I.
Qed.

Lemma load_budget_run {W A : Type} (h : handler W) (n : nat) (p : prog A) (w : W) :
  load_budget n p -> (length (load_submissions (trace_of (run h p w))) <= n)%nat.
Proof.
  revert n w. induction p as [a|e|o k IH|R c k IH]; intros n w;
    cbn [load_budget run after trace_of].
  - simpl. lia.
  - simpl. lia.
  - apply IH.
  - unfold load_submissions. cbn [List.filter].
    destruct (is_load_submission (EvCall c)).
    + destruct n as [|n]; [easy|]. intros H. simpl.
      specialize (IH _ n (h R c w).2 (H (h R c w).1)).
      unfold load_submissions in IH. lia.
    + intros H. apply (IH _ n (h R c w).2 (H (h R c w).1)).
Qed.

Lemma calm_not_load (ev : event) : calm ev -> is_load_submission ev = false.
Proof. intros [H _]. now apply quiet_not_load. Qed.

Lemma verify_table_loop_budget (table_ref : string) (max_attempts : nat) (delay : Z)
    (todo attempt : nat) :
  load_budget 0 (verify_table_loop table_ref max_attempts delay todo attempt).
Proof.
  revert attempt. induction todo as [|todo IH]; intros attempt; simpl; [exact Logic.I|].
  intros [tbl|e]; simpl.
  - destruct (0 <? num_rows tbl); simpl; [exact Logic.I|].
    destruct (Z.of_nat attempt <? Z.of_nat max_attempts - 1); simpl; [apply IH | exact Logic.I].
  - destruct e; exact Logic.I.
Qed.

Lemma schema_log_budget (sch : list SchemaField) : load_budget 0 (schema_log sch).
Proof. induction sch as [|s sch IH]; simpl; [exact Logic.I | exact IH]. Qed.

Lemma load_csv_to_bigquery_budget (uri table_ref : string) (sch : list SchemaField)
    (mode : string) :
  load_budget 1 (load_csv_to_bigquery uri table_ref sch mode).
Proof.
  unfold load_csv_to_bigquery.
  do 2 (apply (load_budget_bind 0 1); [exact Logic.I|]; intros _).
  apply (load_budget_bind 0 1); [apply schema_log_budget|]. intros _.
  apply (load_budget_catch 1 0); [|intros e; exact Logic.I].
  cbn [mbind prog_bind bind perform load_budget is_load_submission].
  intros [job|e]; cbn [bind load_budget is_load_submission]; [|exact Logic.I].
  intros [errors|e]; cbn [bind load_budget]; [|exact Logic.I].
  apply (verify_table_loop_budget table_ref 5 30 5 0).
Qed.

Lemma column_names_budget (rows : list row) :
  load_budget 0 (DataValidator.column_names rows).
Proof.
  induction rows as [|r rows IH]; simpl; [exact Logic.I|].
  unfold DataValidator.attribute. destruct (r !! "column_name"); simpl; [|exact Logic.I].
  apply (load_budget_bind 0 0); [exact IH | easy].
Qed.

Lemma run_data_quality_checks_budget (table_ref : string) (clean_fields : list string) :
  load_budget 0 (run_data_quality_checks table_ref clean_fields).
Proof.
  unfold run_data_quality_checks.
  apply (load_budget_bind 0 0).
  { unfold DataValidator.get_row_count. simpl.
    intros [[|r rows]|e]; simpl; try exact Logic.I.
    unfold DataValidator.attribute. destruct (r !! "row_count"); exact Logic.I. }
  intros row_count. destruct (bool_decide (row_count = CInt 0)); [exact Logic.I|].
  apply (load_budget_bind 0 0).
  { unfold DataValidator.validate_data_integrity.
    apply (load_budget_catch 0 0); [|intros e; exact Logic.I].
    unfold DataValidator.component.
    destruct (Str.split "." table_ref !! 0%nat); simpl; [|exact Logic.I].
    destruct (Str.split "." table_ref !! 1%nat); simpl; [|exact Logic.I].
    destruct (Str.split "." table_ref !! 2%nat); simpl; [|exact Logic.I].
    intros [rows|e]; simpl; [|exact Logic.I].
    apply (load_budget_bind 0 0); [apply column_names_budget|].
    intros cols. destruct (DataValidator.missing_columns clean_fields cols); exact Logic.I. }
  intros ok. destruct ok; simpl; [|exact Logic.I].
  destruct (length clean_fields <? 2)%nat; exact Logic.I.
Qed.

Lemma create_mode_conflict_budget (mode table_ref : string) :
  load_budget 0 (create_mode_conflict mode table_ref).
Proof.
  unfold create_mode_conflict, catch_not_found.
  destruct (String.eqb mode "create"); [|exact Logic.I].
  simpl. intros [tbl|e]; simpl; [exact Logic.I|]. destruct e; exact Logic.I.
Qed.

Lemma gcs_to_bq_budget (event : trigger) : load_budget 1 (gcs_to_bq event).
Proof.
  unfold gcs_to_bq.
  apply (load_budget_bind 0 1); [exact Logic.I|]. intros _.
  destruct (negb (Str.ends_with ".csv" (name event))); [exact Logic.I|].
  apply load_budget_finally; [|exact Logic.I].
  apply (load_budget_catch 1 0); [|intros e; exact Logic.I].
  unfold gcs_to_bq_body.
  destruct (parse_filename (name event)) as [[[[d t] m] f]|e]; [|exact Logic.I].
  cbn [lift].
  apply (load_budget_bind 0 1 (Ret (d, t, m, f))); [exact Logic.I|].
  intros [[[d' t'] m'] f'].
  apply (load_budget_bind 0 1); [exact Logic.I|]. intros _.
  apply (load_budget_bind 0 1); [intros [?|?]; exact Logic.I|]. intros project_id.
  apply (load_budget_bind 0 1); [intros [?|?]; exact Logic.I|]. intros _.
  apply (load_budget_bind 0 1); [exact Logic.I|]. intros _.
  apply (load_budget_bind 0 1).
  { apply (guarantees_load_budget calm returns); [exact calm_not_load|].
    apply process_csv_schema_calm. }
  intros [[[[|c0 clean_fields] sch] type_report]|]; try exact Logic.I.
  apply (load_budget_bind 0 1).
  { eapply (guarantees_load_budget calm); [exact calm_not_load|].
    apply create_dataset_calm. }
  intros provisioned. destruct (truthy provisioned); simpl negb; cbv iota;
    [|exact Logic.I].
  apply (load_budget_bind 0 1); [apply create_mode_conflict_budget|].
  intros conflict. destruct conflict; [exact Logic.I|].
  apply (load_budget_bind 1 0); [apply load_csv_to_bigquery_budget|].
  intros loaded. destruct (truthy loaded); simpl negb; cbv iota; [|exact Logic.I].
  apply (load_budget_bind 0 0); [apply run_data_quality_checks_budget|].
  intros checked. destruct checked; exact Logic.I.
Qed.

End LoadBudget.

(** X19.  Whatever the event and whatever the services answer, an
    invocation of [gcs_to_bq] submits at most one load job, and
    [load_csv_to_bigquery] itself submits at most one: a file is never
    loaded twice by one invocation, even when verification has to poll
    or the checks fail. *)
Theorem gcs_to_bq_loads_at_most_once {W : Type} (h : handler W) (w : W) (event : trigger)
    (uri table_ref mode : string) (sch : list SchemaField) :
  (length (load_submissions (trace_of (run h (gcs_to_bq event) w))) <= 1)%nat
  /\ (length (load_submissions
                (trace_of (run h (load_csv_to_bigquery uri table_ref sch mode) w))) <= 1)%nat.
Proof.
  split; apply load_budget_run;
    [apply gcs_to_bq_budget | apply load_csv_to_bigquery_budget].
Qed.


(** X20.  [clean_bq_table] stops before it writes when a measurement
    fails: on a table with rows, if the count of rows with nulls cannot
    be read from the answer of its query (the query raised, gave no row,
    or gave no integer [na_count]), the function raises after that query
    and submits nothing else; likewise when the duplicate count cannot be
    read.  In both cases no copy is made. *)
Theorem clean_bq_table_fail_stop {W : Type} (h : handler W) (w : W)
    (p : CleanTable.payload) (project : string) (tbl : Table) :
  let source_table :=
    table_reference (CleanTable.project_id p) (CleanTable.dataset_id p)
      (CleanTable.table_id p) in
  let client := h _ BigQueryClient w in
  let lookup := h _ (GetTable source_table) client.2 in
  let na_query :=
    Query (SqlNaCount source_table
             (CleanTable.join_with " OR " (map (fun c => c +:+ " IS NULL") (schema tbl))))
      None in
  let na := h _ na_query lookup.2 in
  let dup_query := Query (SqlDupCount source_table) None in
  let dup := h _ dup_query na.2 in
  let r := run h (CleanTable.clean_bq_table p) w in
  client.1 = Returned project -> lookup.1 = Returned tbl -> num_rows tbl <> 0 ->
  (read_scalar "na_count" na.1 = None ->
   (exists e, outcome_of r = Raised e)
   /\ calls (trace_of r)
      = [EvCall BigQueryClient; EvCall (GetTable source_table); EvCall na_query])
  /\ (forall n, read_scalar "na_count" na.1 = Some n ->
        read_scalar "dup_count" dup.1 = None ->
        (exists e, outcome_of r = Raised e)
        /\ calls (trace_of r)
           = [EvCall BigQueryClient; EvCall (GetTable source_table);
              EvCall na_query; EvCall dup_query]).
Proof.
  intros source_table client lookup na_query na dup_query dup r C L N.
  assert (S : forall (rows : outcome (list row)) key,
             read_scalar key rows = None ->
             forall rs, rows = Returned rs ->
             exists e, CleanTable.scalar rs key = Raise e).
  { intros rows key H rs ->. unfold read_scalar in H. unfold CleanTable.scalar.
    destruct rs as [|x rs]; [now eexists|].
    destruct (x !! key) as [[n| |]|]; [discriminate | | |]; now eexists. }
  assert (S' : forall (rows : outcome (list row)) key n,
             read_scalar key rows = Some n ->
             exists rs, rows = Returned rs /\ CleanTable.scalar rs key = Ret n).
  { intros rows key n H. unfold read_scalar in H. destruct rows as [rs|e]; [|discriminate].
    exists rs. split; [reflexivity|]. unfold CleanTable.scalar.
    destruct rs as [|x rs]; [discriminate|].
    destruct (x !! key) as [[m| |]|]; try discriminate. now injection H as ->. }
  unfold r, CleanTable.clean_bq_table. fold source_table.
  cbn [mbind prog_bind bind perform emit run catch]. fold client. rewrite C.
  cbn [mbind prog_bind bind catch run]. fold lookup. rewrite L. cbn [mbind prog_bind bind catch].
  rewrite (proj2 (Z.eqb_neq _ _) N). cbn [mbind prog_bind bind catch run]. fold na_query na.
  split.
  - intros Hna. destruct na.1 as [rs|e] eqn:E.
    + destruct (S _ _ Hna rs eq_refl) as [e Hs]. cbn [mbind prog_bind bind catch]. rewrite Hs.
      cbn. split; [now exists e | reflexivity].
    + cbn. split; [now exists e | reflexivity].
  - intros n Hna Hdup. destruct (S' _ _ _ Hna) as (rs & E & Hs). rewrite E.
    cbn [mbind prog_bind bind catch]. rewrite Hs. cbn [mbind prog_bind bind catch run]. fold dup_query dup.
    destruct dup.1 as [ds|e] eqn:D.
    + destruct (S _ _ Hdup ds eq_refl) as [e Hd]. cbn [mbind prog_bind bind catch]. rewrite Hd.
      cbn. split; [now exists e | reflexivity].
    + cbn. split; [now exists e | reflexivity].
Qed.

Lemma clean_bq_table_fail_stop_witness :
  let r := run (unmeasured 7) (CleanTable.clean_bq_table orders_payload) tt in
  (exists e, outcome_of r = Raised e)
  /\ calls (trace_of r)
     = [EvCall BigQueryClient; EvCall (GetTable "proj.sales.orders");
        EvCall (Query (SqlNaCount "proj.sales.orders" "id IS NULL OR email IS NULL") None)].
Proof.
  refine (proj1 (clean_bq_table_fail_stop (unmeasured 7) tt orders_payload "proj"
                   (mkTable 7 ["id"; "email"]) eq_refl eq_refl _) eq_refl).
  discriminate.
Defined.
